(** * google-takeout-exif-applier: sidecar resolution, metadata merge and
      per-file processing, embedded from the Go sources

    The development follows the package layout of the repository:
    - [GoStrings], [GoFilepath], [GoRegexp], [GoFmt], [GoTime]: the few
      functions of the Go standard library that the program calls and whose
      result the properties below depend on;
    - [metadata]: [internal/metadata] (record model, [mergeMetadata],
      [GetPhotoTime], the coordinate getters, [ParseJSON], [ApplyToFile]);
    - [processor]: [internal/processor] ([checkSupplementalData],
      [processMediaFile], [isSupportedMediaFile]);
    - [walk]: the directory walk with which [Process] of
      [internal/processor] collects the media files.

    A Go [string] is a Rocq [string] (a sequence of bytes); a Go [int] or
    [int64] is a [Z]; a [float64] is a [spec_float]; a Go [map[string]bool]
    is a [gmap string bool] read with default [false]. *)

From Stdlib Require Import ZArith Lia Bool List Ascii String SpecFloat.
From stdpp Require Import base option gmap strings.

Local Open Scope Z_scope.

(** ** Errors and results *)

(** Go [error] values the program creates or tests.  [ErrNotExist] is the
    error for which [os.IsNotExist] answers true; [ErrOther] is any other
    error of the operating system or of a library; [Errorf] is
    [fmt.Errorf] without [%w], [ErrorfW] with a wrapped cause. *)
Inductive error : Type :=
| ErrNotExist (path : string)
| ErrOther (msg : string)
| Errorf (msg : string)
| ErrorfW (msg : string) (cause : error).

(** A Go result pair [(T, error)] in which the value is read only when the
    error is [nil]. *)
Inductive result (A : Type) : Type :=
| Ok (a : A)
| Err (e : error).
Arguments Ok {A} a.
Arguments Err {A} e.

Definition is_Ok {A} (r : result A) : bool :=
  match r with Ok _ => true | Err _ => false end.

(** ** Package strings *)
Module GoStrings.

(** [s[n:]]; the program only slices within bounds. *)
Fixpoint slice_from (s : string) (n : nat) : string :=
  match n, s with
  | O, _ => s
  | S k, String _ s' => slice_from s' k
  | S _, EmptyString => EmptyString
  end.

(** [s[:n]] *)
Fixpoint slice_to (s : string) (n : nat) : string :=
  match n, s with
  | O, _ => EmptyString
  | S k, String c s' => String c (slice_to s' k)
  | S _, EmptyString => EmptyString
  end.

Definition HasPrefix (s pre : string) : bool := String.prefix pre s.

Definition HasSuffix (s suffix : string) : bool :=
  (String.length suffix <=? String.length s)%nat &&
  String.eqb (slice_from s (String.length s - String.length suffix)) suffix.

Definition TrimSuffix (s suffix : string) : string :=
  if HasSuffix s suffix
  then slice_to s (String.length s - String.length suffix)
  else s.

(** [strings.LastIndex]: the index of the last occurrence of [substr] in
    [s], or -1. *)
Fixpoint LastIndex (s substr : string) : Z :=
  match s with
  | EmptyString => if String.eqb substr EmptyString then 0 else -1
  | String _ s' =>
      let r := LastIndex s' substr in
      if 0 <=? r then r + 1
      else if String.prefix substr s then 0 else -1
  end.

(** [strings.Replace(s, old, new, 1)]: the first occurrence of [old]
    replaced by [new]. *)
Fixpoint Replace1 (s old new : string) : string :=
  if String.prefix old s
  then new +:+ slice_from s (String.length old)
  else match s with
       | EmptyString => EmptyString
       | String c s' => String c (Replace1 s' old new)
       end.

Definition isUpper (c : ascii) : bool :=
  ((65 <=? nat_of_ascii c) && (nat_of_ascii c <=? 90))%nat.

Definition lowerByte (c : ascii) : ascii :=
  if isUpper c then ascii_of_nat (nat_of_ascii c + 32) else c.

(** [strings.ToLower].  ASCII letters are mapped byte by byte.  Of the
    runes outside ASCII, exactly two have an ASCII lower case: U+212A
    KELVIN SIGN (bytes E2 84 AA, lower case [k]) and U+0130 (bytes C4 B0,
    lower case [i]); both are mapped here.  Every other rune outside ASCII
    is mapped by Go to a rune outside ASCII and is kept as it is: the
    result is only ever compared with ASCII keys. *)
Fixpoint ToLower (s : string) : string :=
  match s with
  | EmptyString => EmptyString
  | String c s' =>
      match nat_of_ascii c, s' with
      | 226%nat, String c1 (String c2 s'') =>
          if ((nat_of_ascii c1 =? 132) && (nat_of_ascii c2 =? 170))%nat
          then String "k" (ToLower s'')
          else String c (ToLower s')
      | 196%nat, String c1 s'' =>
          if (nat_of_ascii c1 =? 176)%nat
          then String "i" (ToLower s'')
          else String c (ToLower s')
      | _, _ => String (lowerByte c) (ToLower s')
      end
  end.

End GoStrings.

(** ** Package path/filepath *)
Module GoFilepath.

(** The platform the binary is built for; it fixes the path separator. *)
Inductive GOOS : Type := Windows | Unix.

Definition IsPathSeparator (os : GOOS) (c : ascii) : bool :=
  match os with
  | Windows => Ascii.eqb c "\" || Ascii.eqb c "/"
  | Unix => Ascii.eqb c "/"
  end.

(** The loop of [filepath.Ext], run from the last byte downwards:
    [rev_path] holds the bytes not yet visited, last byte first, and
    [acc] the bytes already passed. *)
Fixpoint Ext_loop (os : GOOS) (rev_path acc : list ascii) : list ascii :=
  match rev_path with
  | [] => []
  | c :: rest =>
      if IsPathSeparator os c then []
      else if Ascii.eqb c "." then c :: acc
      else Ext_loop os rest (c :: acc)
  end.

Definition Ext (os : GOOS) (path : string) : string :=
  string_of_list_ascii
    (Ext_loop os (List.rev (list_ascii_of_string path)) []).

End GoFilepath.

(** ** Package regexp, for the one pattern the program compiles *)
Module GoRegexp.
Import GoStrings.

Definition isDigit (c : ascii) : bool :=
  ((48 <=? nat_of_ascii c) && (nat_of_ascii c <=? 57))%nat.

(** After the opening parenthesis: the number of bytes of [\d+\)] at the
    head of [s], if it matches there.  [seen] tells that a digit has been
    read. *)
Fixpoint digitsThenClose (s : string) (seen : bool) : option nat :=
  match s with
  | EmptyString => None
  | String c s' =>
      if isDigit c then option_map S (digitsThenClose s' true)
      else if Ascii.eqb c ")" && seen then Some 1%nat
      else None
  end.

(** The text matched by [\(\d+\)] at the head of [s]. *)
Definition matchAt (s : string) : option string :=
  match s with
  | String c s' =>
      if Ascii.eqb c "("
      then match digitsThenClose s' false with
           | Some n => Some (slice_to s (S n))
           | None => None
           end
      else None
  | EmptyString => None
  end.

(** Successive non-overlapping matches, leftmost first; [skip] counts the
    bytes of the current match still to be passed over. *)
Fixpoint scan (skip : nat) (s : string) : list string :=
  match s with
  | EmptyString => []
  | String _ s' =>
      match skip with
      | S k => scan k s'
      | O =>
          match matchAt s with
          | Some m => m :: scan (String.length m - 1) s'
          | None => scan 0 s'
          end
      end
  end.

(** [regexp.MustCompile(`\(\d+\)`).FindAllString(s, -1)] *)
Definition FindAllString (s : string) : list string := scan 0 s.

End GoRegexp.

(** ** Package fmt: [Sscanf] with the format ["%d"] and an [*int64] *)
Module GoFmt.

Definition byteIs (c : ascii) (n : nat) : bool := (nat_of_ascii c =? n)%nat.

(** One-byte members of the scanner's space table other than newline:
    tab, vertical tab, form feed, carriage return, space. *)
Definition isSpace1 (c : ascii) : bool :=
  byteIs c 9 || byteIs c 11 || byteIs c 12 || byteIs c 13 || byteIs c 32.

(** U+0085 and U+00A0 in UTF-8. *)
Definition isSpace2 (c1 c2 : ascii) : bool :=
  byteIs c1 194 && (byteIs c2 133 || byteIs c2 160).

(** U+1680, U+2000..U+200A, U+2028, U+2029, U+202F, U+205F, U+3000 in
    UTF-8. *)
Definition isSpace3 (c1 c2 c3 : ascii) : bool :=
  (byteIs c1 225 && byteIs c2 154 && byteIs c3 128)
  || (byteIs c1 226 && byteIs c2 128
      && (((128 <=? nat_of_ascii c3) && (nat_of_ascii c3 <=? 138))%nat
          || byteIs c3 168 || byteIs c3 169 || byteIs c3 175))
  || (byteIs c1 226 && byteIs c2 129 && byteIs c3 159)
  || (byteIs c1 227 && byteIs c2 128 && byteIs c3 128).

(** [ss.SkipSpace] with [nlIsSpace = false]: [None] is the scan error
    "unexpected newline". *)
Fixpoint SkipSpace (s : string) : option string :=
  match s with
  | EmptyString => Some EmptyString
  | String c1 s1 =>
      if byteIs c1 10 then None
      else if isSpace1 c1 then SkipSpace s1
      else match s1 with
           | String c2 s2 =>
               if isSpace2 c1 c2 then SkipSpace s2
               else match s2 with
                    | String c3 s3 =>
                        if isSpace3 c1 c2 c3 then SkipSpace s3 else Some s
                    | EmptyString => Some s
                    end
           | EmptyString => Some s
           end
  end.

(** The bytes [scanNumber] accepts for the verb [d]: the decimal digits
    (the underscore is accepted for the verb [v] only). *)
Definition isNumberByte (c : ascii) : bool := GoRegexp.isDigit c.

(** The token read by [scanNumber]: the longest run of accepted bytes. *)
Fixpoint scanNumber (s : string) : string :=
  match s with
  | String c s' => if isNumberByte c then String c (scanNumber s') else EmptyString
  | EmptyString => EmptyString
  end.

(** [strconv.ParseUint(tok, 10, 64)] before its range check: [None] is a
    syntax error (a byte that is no decimal digit). *)
Fixpoint parseDigits (tok : string) (acc : Z) : option Z :=
  match tok with
  | EmptyString => Some acc
  | String c tok' =>
      if GoRegexp.isDigit c
      then parseDigits tok' (10 * acc + Z.of_nat (nat_of_ascii c - 48))
      else None
  end.

Definition minInt64 : Z := - 2 ^ 63.
Definition maxInt64 : Z := 2 ^ 63 - 1.

(** [fmt.Sscanf(str, "%d", &v)]: the value stored in [v], or the error.
    Bytes after the number are left unread and are no error. *)
Definition Sscanf_d (str : string) : result Z :=
  match SkipSpace str with
  | None => Err (ErrOther "unexpected newline")
  | Some EmptyString => Err (ErrOther "unexpected EOF")
  | Some (String c rest as s) =>
      let neg := Ascii.eqb c "-" in
      let body := if Ascii.eqb c "+" || Ascii.eqb c "-" then rest else s in
      match scanNumber body with
      | EmptyString =>
          Err (ErrOther (if String.eqb body EmptyString
                         then "unexpected EOF" else "expected integer"))
      | tok =>
          match parseDigits tok 0 with
          | None => Err (ErrOther "strconv.ParseInt: invalid syntax")
          | Some n =>
              let v := if neg then - n else n in
              if (minInt64 <=? v) && (v <=? maxInt64) then Ok v
              else Err (ErrOther "strconv.ParseInt: value out of range")
          end
      end
  end.

End GoFmt.

(** ** Package time *)
Module GoTime.
(** An instant, named by its Unix time in seconds. *)
Record Time : Type := { UnixSeconds : Z }.
(** [time.Unix(sec, 0).UTC()] *)
Definition Unix (sec : Z) : Time := {| UnixSeconds := sec |}.
End GoTime.

(** [m[k]] for a Go [map[string]bool]: a missing key reads as [false]. *)
Definition mapIndex (m : gmap string bool) (k : string) : bool :=
  default false (m !! k).

(** [os.FileInfo], of which the program reads [IsDir()] only. *)
Record FileInfo : Type := { IsDir : bool }.

(** [os.IsNotExist] *)
Definition IsNotExist (e : error) : bool :=
  match e with ErrNotExist _ => true | _ => false end.

(** ** Package internal/metadata *)
Module metadata.
Import GoStrings GoFilepath.

Module CreationTime_t.
Record t : Type := { Timestamp : string }.
End CreationTime_t.

Module ModificationTime_t.
Record t : Type := { Timestamp : string }.
End ModificationTime_t.

Module PhotoTakenTime_t.
Record t : Type := { Timestamp : string }.
End PhotoTakenTime_t.

Module GeoData_t.
Record t : Type := {
  Latitude : spec_float;
  Longitude : spec_float;
  Altitude : spec_float;
  LatitudeSpan : spec_float;
  LongitudeSpan : spec_float
}.
End GeoData_t.

Module GeoDataAlt_t.
Record t : Type := {
  Latitude : spec_float;
  Longitude : spec_float;
  Altitude : spec_float;
  LatitudeSpan : spec_float;
  LongitudeSpan : spec_float
}.
End GeoDataAlt_t.

(** [type Metadata struct]; the pointer [Supplemental] is [None] for
    [nil]. *)
#[warnings="-register-all"]
Inductive Metadata : Type := mkMetadata {
  Title : string;
  Description : string;
  ImageViews : Z;
  CreationTime : CreationTime_t.t;
  ModificationTime : ModificationTime_t.t;
  GeoData : GeoData_t.t;
  GeoDataAlt : GeoDataAlt_t.t;
  PhotoTakenTime : PhotoTakenTime_t.t;
  Supplemental : option Metadata
}.

(** Assignments to one field of a [Metadata] value. *)
Definition set_Title (v : string) (m : Metadata) : Metadata :=
  mkMetadata v (Description m) (ImageViews m) (CreationTime m)
    (ModificationTime m) (GeoData m) (GeoDataAlt m) (PhotoTakenTime m)
    (Supplemental m).
Definition set_Description (v : string) (m : Metadata) : Metadata :=
  mkMetadata (Title m) v (ImageViews m) (CreationTime m)
    (ModificationTime m) (GeoData m) (GeoDataAlt m) (PhotoTakenTime m)
    (Supplemental m).
Definition set_ImageViews (v : Z) (m : Metadata) : Metadata :=
  mkMetadata (Title m) (Description m) v (CreationTime m)
    (ModificationTime m) (GeoData m) (GeoDataAlt m) (PhotoTakenTime m)
    (Supplemental m).
Definition set_CreationTime (v : CreationTime_t.t) (m : Metadata) : Metadata :=
  mkMetadata (Title m) (Description m) (ImageViews m) v
    (ModificationTime m) (GeoData m) (GeoDataAlt m) (PhotoTakenTime m)
    (Supplemental m).
Definition set_ModificationTime (v : ModificationTime_t.t) (m : Metadata)
  : Metadata :=
  mkMetadata (Title m) (Description m) (ImageViews m) (CreationTime m)
    v (GeoData m) (GeoDataAlt m) (PhotoTakenTime m) (Supplemental m).
Definition set_GeoData (v : GeoData_t.t) (m : Metadata) : Metadata :=
  mkMetadata (Title m) (Description m) (ImageViews m) (CreationTime m)
    (ModificationTime m) v (GeoDataAlt m) (PhotoTakenTime m)
    (Supplemental m).
Definition set_GeoDataAlt (v : GeoDataAlt_t.t) (m : Metadata) : Metadata :=
  mkMetadata (Title m) (Description m) (ImageViews m) (CreationTime m)
    (ModificationTime m) (GeoData m) v (PhotoTakenTime m)
    (Supplemental m).
Definition set_PhotoTakenTime (v : PhotoTakenTime_t.t) (m : Metadata)
  : Metadata :=
  mkMetadata (Title m) (Description m) (ImageViews m) (CreationTime m)
    (ModificationTime m) (GeoData m) (GeoDataAlt m) v (Supplemental m).

(** [x != 0] on [float64]: false for either zero, true for every other
    value (a NaN included). *)
Definition ne0 (x : spec_float) : bool :=
  match x with S754_zero _ => false | _ => true end.
Definition eq0 (x : spec_float) : bool := negb (ne0 x).

(** The float constant [0]. *)
Definition zero : spec_float := S754_zero false.

Definition nonEmpty (s : string) : bool := negb (String.eqb s "").

(** [mergeMetadata]: [primary] is a copy that the body assigns to, one
    guarded assignment after the other. *)
Definition mergeMetadata (primary supplemental : Metadata) : Metadata :=
  let primary :=
    if String.eqb (Title primary) "" && nonEmpty (Title supplemental)
    then set_Title (Title supplemental) primary else primary in
  let primary :=
    if String.eqb (Description primary) ""
       && nonEmpty (Description supplemental)
    then set_Description (Description supplemental) primary else primary in
  let primary :=
    if (ImageViews primary =? 0) && (0 <? ImageViews supplemental)
    then set_ImageViews (ImageViews supplemental) primary else primary in
  let primary :=
    if String.eqb (CreationTime_t.Timestamp (CreationTime primary)) ""
       && nonEmpty (CreationTime_t.Timestamp (CreationTime supplemental))
    then set_CreationTime (CreationTime supplemental) primary
    else primary in
  let primary :=
    if String.eqb (PhotoTakenTime_t.Timestamp (PhotoTakenTime primary)) ""
       && nonEmpty
            (PhotoTakenTime_t.Timestamp (PhotoTakenTime supplemental))
    then set_PhotoTakenTime (PhotoTakenTime supplemental) primary
    else primary in
  let primary :=
    if (eq0 (GeoData_t.Latitude (GeoData primary))
        && eq0 (GeoData_t.Longitude (GeoData primary)))
       && (ne0 (GeoData_t.Latitude (GeoData supplemental))
           || ne0 (GeoData_t.Longitude (GeoData supplemental)))
    then set_GeoData (GeoData supplemental) primary else primary in
  let primary :=
    if (eq0 (GeoDataAlt_t.Latitude (GeoDataAlt primary))
        && eq0 (GeoDataAlt_t.Longitude (GeoDataAlt primary)))
       && (ne0 (GeoDataAlt_t.Latitude (GeoDataAlt supplemental))
           || ne0 (GeoDataAlt_t.Longitude (GeoDataAlt supplemental)))
    then set_GeoDataAlt (GeoDataAlt supplemental) primary else primary in
  primary.

(** [parseTimestamp] *)
Definition parseTimestamp (ts : string) : result GoTime.Time :=
  match GoFmt.Sscanf_d ts with
  | Err _ => Err (Errorf ("invalid timestamp format: " +:+ ts))
  | Ok unixTime => Ok (GoTime.Unix unixTime)
  end.

(** [GetPhotoTime] *)
Definition GetPhotoTime (m : Metadata) : result GoTime.Time :=
  if nonEmpty (PhotoTakenTime_t.Timestamp (PhotoTakenTime m))
  then parseTimestamp (PhotoTakenTime_t.Timestamp (PhotoTakenTime m))
  else if nonEmpty (CreationTime_t.Timestamp (CreationTime m))
  then parseTimestamp (CreationTime_t.Timestamp (CreationTime m))
  else Err (Errorf "no valid timestamp found in metadata").

(** [GetLatitude], [GetLongitude], [GetAltitude] *)
Definition GetLatitude (m : Metadata) : spec_float * bool :=
  if ne0 (GeoData_t.Latitude (GeoData m))
  then (GeoData_t.Latitude (GeoData m), true)
  else if ne0 (GeoDataAlt_t.Latitude (GeoDataAlt m))
  then (GeoDataAlt_t.Latitude (GeoDataAlt m), true)
  else (zero, false).

Definition GetLongitude (m : Metadata) : spec_float * bool :=
  if ne0 (GeoData_t.Longitude (GeoData m))
  then (GeoData_t.Longitude (GeoData m), true)
  else if ne0 (GeoDataAlt_t.Longitude (GeoDataAlt m))
  then (GeoDataAlt_t.Longitude (GeoDataAlt m), true)
  else (zero, false).

Definition GetAltitude (m : Metadata) : spec_float * bool :=
  if ne0 (GeoData_t.Altitude (GeoData m))
  then (GeoData_t.Altitude (GeoData m), true)
  else if ne0 (GeoDataAlt_t.Altitude (GeoDataAlt m))
  then (GeoDataAlt_t.Altitude (GeoDataAlt m), true)
  else (zero, false).

(** The coordinates the appliers write.  Each of [applyToVideo] and
    [applyImageMetadataWithExiftool] reads the getters in this nesting:
    latitude, then longitude, then (optionally) altitude. *)
Definition ResolvedCoordinates (m : Metadata)
  : option (spec_float * spec_float * option spec_float) :=
  let '(lat, latOk) := GetLatitude m in
  if latOk then
    let '(lon, lonOk) := GetLongitude m in
    if lonOk then
      let '(alt, altOk) := GetAltitude m in
      Some (lat, lon, if altOk then Some alt else None)
    else None
  else None.

(** [type ApplyResult struct] *)
Record ApplyResult : Type := {
  Modified : bool;
  Details : string;
  ExistingData : string;
  NewData : string
}.

(** What lies outside the program: the platform, the file system as the
    calls of one unit of work see it, the JSON decoder, the path
    functions of [path/filepath] that only name the supplemental files,
    and the two appliers, whose bodies run [exiftool], [ffmpeg] and
    [os.Chtimes]. *)
Record World : Type := {
  goos : GOOS;
  Stat : string -> result FileInfo;
  ReadFile : string -> result string;
  Remove : string -> option error;
  Dir : string -> string;
  Base : string -> string;
  Join : string -> string -> string;
  Unmarshal : string -> result Metadata;
  applyToImage : string -> Metadata -> result ApplyResult;
  applyToVideo : string -> Metadata -> result ApplyResult
}.

(** The UTF-8 byte order mark EF BB BF is dropped from the head. *)
Definition stripBOM (data : string) : string :=
  match data with
  | String b0 (String b1 (String b2 rest)) =>
      if GoFmt.byteIs b0 239 && GoFmt.byteIs b1 187 && GoFmt.byteIs b2 191
      then rest else data
  | _ => data
  end.

(** [parseSupplementalJSON] *)
Definition parseSupplementalJSON (w : World) (jsonPath : string)
  : result Metadata :=
  match ReadFile w jsonPath with
  | Err e => Err (ErrorfW "failed to read JSON file" e)
  | Ok data =>
      match Unmarshal w (stripBOM data) with
      | Err e => Err (ErrorfW "failed to unmarshal JSON" e)
      | Ok meta => Ok meta
      end
  end.

(** One supplemental layer of [ParseJSON]: merged when the file exists
    and decodes, passed over otherwise. *)
Definition mergeLayer (w : World) (meta : Metadata) (path : string)
  : Metadata :=
  match Stat w path with
  | Ok _ =>
      match parseSupplementalJSON w path with
      | Ok supplemental => mergeMetadata meta supplemental
      | Err _ => meta
      end
  | Err _ => meta
  end.

(** [ParseJSON] *)
Definition ParseJSON (w : World) (jsonPath : string) : result Metadata :=
  match ReadFile w jsonPath with
  | Err e => Err (ErrorfW "failed to read JSON file" e)
  | Ok data =>
      match Unmarshal w (stripBOM data) with
      | Err e => Err (ErrorfW "failed to unmarshal JSON" e)
      | Ok meta =>
          let baseDir := Dir w jsonPath in
          let fileName := Base w jsonPath in
          let mediaFileName := TrimSuffix fileName ".json" in
          let supplementalPath :=
            Join w baseDir "supplemental-metadata.json" in
          let meta := mergeLayer w meta supplementalPath in
          let perFileSupplementalPath :=
            Join w baseDir (mediaFileName +:+ ".supplemental-metadata.json") in
          let meta := mergeLayer w meta perFileSupplementalPath in
          Ok meta
      end
  end.

Definition imageExts : gmap string bool :=
  list_to_map
    [(".jpg", true); (".jpeg", true); (".png", true); (".gif", true);
     (".bmp", true); (".webp", true); (".tiff", true); (".tif", true);
     (".heic", true); (".heif", true)].

Definition videoExts : gmap string bool :=
  list_to_map
    [(".mp4", true); (".avi", true); (".mov", true); (".mkv", true);
     (".flv", true); (".wmv", true); (".webm", true); (".m4v", true);
     (".3gp", true); (".ogv", true); (".ts", true); (".mts", true);
     (".m2ts", true)].

Definition isImageFile (os : GOOS) (path : string) : bool :=
  let ext := ToLower (Ext os path) in
  mapIndex imageExts ext.

Definition isVideoFile (os : GOOS) (path : string) : bool :=
  let ext := ToLower (Ext os path) in
  mapIndex videoExts ext.

(** The branch [ApplyToFile] takes. *)
Inductive Branch : Type := ToImage | ToVideo | Unsupported.

Definition dispatch (os : GOOS) (mediaPath : string) : Branch :=
  if isImageFile os mediaPath then ToImage
  else if isVideoFile os mediaPath then ToVideo
  else Unsupported.

(** [ApplyToFile] *)
Definition ApplyToFile (w : World) (mediaPath : string) (meta : Metadata)
  : result ApplyResult :=
  match dispatch (goos w) mediaPath with
  | ToImage => applyToImage w mediaPath meta
  | ToVideo => applyToVideo w mediaPath meta
  | Unsupported =>
      Err (Errorf ("unsupported media file type: "
                     +:+ Ext (goos w) mediaPath))
  end.

End metadata.

(** ** Package internal/processor *)
Module processor.
Import GoStrings GoFilepath GoRegexp metadata.

(** A Go [int] is 64 bits wide on the platforms the program is built
    for; [x++] wraps around. *)
Definition wrapInt (z : Z) : Z := (z + 2 ^ 63) mod 2 ^ 64 - 2 ^ 63.
Definition incr (x : Z) : Z := wrapInt (x + 1).

(** [type Statistics struct], without its mutex. *)
Record Statistics : Type := {
  TotalFiles : Z;
  JSONFiles : Z;
  ProcessedFiles : Z;
  ModifiedFiles : Z;
  UnmodifiedFiles : Z;
  SkippedFiles : Z;
  ErrorCount : Z;
  ModifiedDetails : list string;
  UnmodifiedDetails : list string
}.

(** [type Processor struct], without its mutex. *)
Record Processor : Type := {
  rootDir : string;
  dryRun : bool;
  verbose : bool;
  stats : Statistics;
  deletedFiles : gmap string bool;
  workerCount : Z
}.

(** An argument of a [fmt.Printf] call. *)
Inductive Arg : Type :=
| AString (s : string)
| AError (e : error)
| AMetadata (m : Metadata).

(** A call of [fmt.Printf]: the format as the source writes it, and the
    arguments. *)
Inductive Output : Type := Printf (format : string) (args : list Arg).

(** The state one unit of work runs in: the processor, the lines written
    to standard output (oldest first) and the paths handed to [os.Stat]
    by the resolver (oldest first).  The program takes a mutex around
    every access to [stats] and [deletedFiles]; a unit of work is followed
    here on its own. *)
Record State : Type := {
  Proc : Processor;
  Stdout : list Output;
  Probes : list string
}.

Definition M (A : Type) : Type := State -> A * State.

Definition ret {A} (a : A) : M A := fun s => (a, s).
Definition bind {A B} (c : M A) (k : A -> M B) : M B :=
  fun s => let '(a, s') := c s in k a s'.

Declare Scope go_scope.
Delimit Scope go_scope with go.
Notation "x <- c ;; k" := (bind c (fun x => k))
  (at level 100, c at next level, right associativity) : go_scope.
Notation "c ;; k" := (bind c (fun _ => k))
  (at level 100, k at level 200, right associativity) : go_scope.
Local Open Scope go_scope.

Definition modifyStats (f : Statistics -> Statistics) : M unit :=
  fun s =>
    let p := Proc s in
    (tt, {| Proc := {| rootDir := rootDir p; dryRun := dryRun p;
                       verbose := verbose p; stats := f (stats p);
                       deletedFiles := deletedFiles p;
                       workerCount := workerCount p |};
            Stdout := Stdout s; Probes := Probes s |}).

Definition modifyDeleted (f : gmap string bool -> gmap string bool)
  : M unit :=
  fun s =>
    let p := Proc s in
    (tt, {| Proc := {| rootDir := rootDir p; dryRun := dryRun p;
                       verbose := verbose p; stats := stats p;
                       deletedFiles := f (deletedFiles p);
                       workerCount := workerCount p |};
            Stdout := Stdout s; Probes := Probes s |}).

Definition printf (format : string) (args : list Arg) : M unit :=
  fun s => (tt, {| Proc := Proc s;
                   Stdout := Stdout s ++ [Printf format args];
                   Probes := Probes s |}).

Definition getProc : M Processor := fun s => (Proc s, s).

Definition when (b : bool) (c : M unit) : M unit := if b then c else ret tt.

(** [os.Stat(path)], recorded. *)
Definition stat (w : World) (path : string) : M (result FileInfo) :=
  fun s => (Stat w path,
            {| Proc := Proc s; Stdout := Stdout s;
               Probes := Probes s ++ [path] |}).

(** The counters' increments. *)
Definition incErrorCount (st : Statistics) : Statistics :=
  {| TotalFiles := TotalFiles st; JSONFiles := JSONFiles st;
     ProcessedFiles := ProcessedFiles st; ModifiedFiles := ModifiedFiles st;
     UnmodifiedFiles := UnmodifiedFiles st; SkippedFiles := SkippedFiles st;
     ErrorCount := incr (ErrorCount st);
     ModifiedDetails := ModifiedDetails st;
     UnmodifiedDetails := UnmodifiedDetails st |}.

Definition incJSONFiles (st : Statistics) : Statistics :=
  {| TotalFiles := TotalFiles st; JSONFiles := incr (JSONFiles st);
     ProcessedFiles := ProcessedFiles st; ModifiedFiles := ModifiedFiles st;
     UnmodifiedFiles := UnmodifiedFiles st; SkippedFiles := SkippedFiles st;
     ErrorCount := ErrorCount st;
     ModifiedDetails := ModifiedDetails st;
     UnmodifiedDetails := UnmodifiedDetails st |}.

Definition incProcessedFiles (st : Statistics) : Statistics :=
  {| TotalFiles := TotalFiles st; JSONFiles := JSONFiles st;
     ProcessedFiles := incr (ProcessedFiles st);
     ModifiedFiles := ModifiedFiles st;
     UnmodifiedFiles := UnmodifiedFiles st; SkippedFiles := SkippedFiles st;
     ErrorCount := ErrorCount st;
     ModifiedDetails := ModifiedDetails st;
     UnmodifiedDetails := UnmodifiedDetails st |}.

(** [ModifiedFiles++] and the append to [ModifiedDetails]. *)
Definition addModified (detail : string) (st : Statistics) : Statistics :=
  {| TotalFiles := TotalFiles st; JSONFiles := JSONFiles st;
     ProcessedFiles := ProcessedFiles st;
     ModifiedFiles := incr (ModifiedFiles st);
     UnmodifiedFiles := UnmodifiedFiles st; SkippedFiles := SkippedFiles st;
     ErrorCount := ErrorCount st;
     ModifiedDetails := ModifiedDetails st ++ [detail];
     UnmodifiedDetails := UnmodifiedDetails st |}.

(** [UnmodifiedFiles++] and the append to [UnmodifiedDetails]. *)
Definition addUnmodified (detail : string) (st : Statistics) : Statistics :=
  {| TotalFiles := TotalFiles st; JSONFiles := JSONFiles st;
     ProcessedFiles := ProcessedFiles st;
     ModifiedFiles := ModifiedFiles st;
     UnmodifiedFiles := incr (UnmodifiedFiles st);
     SkippedFiles := SkippedFiles st;
     ErrorCount := ErrorCount st;
     ModifiedDetails := ModifiedDetails st;
     UnmodifiedDetails := UnmodifiedDetails st ++ [detail] |}.

(** The array literal [jsonSuffixes], in the order of the source. *)
Definition jsonSuffixes : list string :=
  [ "";
    ".supplemental-metadata";
    ".supplemental-metadat";
    ".supplemental-metada";
    ".supplemental-metad";
    ".supplemental-meta";
    ".supplemental-met";
    ".supplemental-me";
    ".supplemental-m";
    ".supplemental-";
    ".supplemental";
    ".supplementa";
    ".supplement";
    ".supplemen";
    ".suppleme";
    ".supplem";
    ".supple";
    ".suppl";
    ".supp";
    ".sup";
    ".su";
    ".s" ].

(** The duplicate-suffix step: the marker [match] (empty when there is
    none) and [newMediaPath]. *)
Definition normalize (mediaPath : string) : string * string :=
  let idx := LastIndex mediaPath "\" in
  let matches :=
    if negb (idx =? -1)
    then FindAllString (slice_from mediaPath (Z.to_nat (idx + 1)))
    else [] in
  match matches with
  | [m] =>
      let fileName :=
        Replace1 (slice_from mediaPath (Z.to_nat (idx + 1))) m "" in
      (m, slice_to mediaPath (Z.to_nat (idx + 1)) +:+ fileName)
  | _ => ("", mediaPath)
  end.

(** The paths of the first loop over [jsonSuffixes], in the order they
    are tried. *)
Definition candidatesWithMarker (newMediaPath mtch : string) : list string :=
  map (fun suffix =>
         let suffix :=
           if nonEmpty mtch then suffix +:+ mtch +:+ ".json"
           else suffix +:+ ".json" in
         newMediaPath +:+ suffix)
      jsonSuffixes.

(** The paths of the second loop. *)
Definition candidatesPlain (mediaPath : string) : list string :=
  map (fun suffix => mediaPath +:+ (suffix +:+ ".json")) jsonSuffixes.

(** One loop over candidate paths: [cur] holds [jsonPath] and the outcome
    of the last [os.Stat]; the loop returns at the first path that
    exists. *)
Fixpoint statLoop (w : World) (paths : list string)
    (cur : string * result FileInfo) : M (string * result FileInfo) :=
  match paths with
  | [] => ret cur
  | jsonPath :: rest =>
      r <- stat w jsonPath ;;
      match r with
      | Ok info => ret (jsonPath, Ok info)
      | Err e => statLoop w rest (jsonPath, Err e)
      end
  end.

(** [checkSupplementalData].  The triple [(info, jsonPath, err)] is the
    pair of [jsonPath] and the outcome of the last [os.Stat]: [info] and
    [err] always come from the same call. *)
Definition checkSupplementalData (w : World) (mediaPath : string)
  : M (string * result FileInfo) :=
  let ext := Ext (goos w) mediaPath in
  let jsonPath := TrimSuffix mediaPath ext +:+ ".json" in
  r <- stat w jsonPath ;;
  match r with
  | Ok info => ret (jsonPath, Ok info)
  | Err e =>
      let '(mtch, newMediaPath) := normalize mediaPath in
      r1 <- statLoop w (candidatesWithMarker newMediaPath mtch)
              (jsonPath, Err e) ;;
      match snd r1 with
      | Ok _ => ret r1
      | Err _ => statLoop w (candidatesPlain mediaPath) r1
      end
  end.

Definition nl : string := String (ascii_of_nat 10) "".

(** [processMediaFile] *)
Definition processMediaFile (w : World) (mediaPath : string) : M bool :=
  found <- checkSupplementalData w mediaPath ;;
  p <- getProc ;;
  let jsonPath := fst found in
  match snd found with
  | Err err =>
      (if IsNotExist err
       then when (verbose p)
              (printf "[SKIP] No metadata file for: %s\n" [AString mediaPath])
       else modifyStats incErrorCount ;;
            printf "[ERROR] Cannot access metadata file %s: %v\n"
              [AString jsonPath; AError err]) ;;
      ret false
  | Ok info =>
      if IsDir info then
        when (verbose p)
          (printf "[SKIP] Metadata path is a directory: %s\n"
             [AString jsonPath]) ;;
        ret false
      else
        match ParseJSON w jsonPath with
        | Err err =>
            modifyStats incErrorCount ;;
            printf "[ERROR] Failed to parse metadata from %s: %v\n"
              [AString jsonPath; AError err] ;;
            ret false
        | Ok meta =>
            modifyStats incJSONFiles ;;
            if dryRun p then
              printf "[DRY-RUN] Would apply metadata to: %s\n"
                [AString mediaPath] ;;
              when (verbose p)
                (printf "          Metadata: %+v\n" [AMetadata meta] ;;
                 printf "          Would delete: %s\n" [AString jsonPath]) ;;
              modifyStats incProcessedFiles ;;
              modifyStats
                (addModified
                   ("  " +:+ Base w mediaPath +:+ " (would be modified)")) ;;
              ret true
            else
              match ApplyToFile w mediaPath meta with
              | Err err =>
                  modifyStats incErrorCount ;;
                  printf "[ERROR] Failed to apply metadata to %s: %v\n"
                    [AString mediaPath; AError err] ;;
                  ret false
              | Ok result =>
                  modifyStats incProcessedFiles ;;
                  (if Modified result then
                     let detail := "  " +:+ Details result in
                     let detail :=
                       if nonEmpty (NewData result)
                       then detail +:+ nl +:+ "    Modified: "
                              +:+ NewData result
                       else detail in
                     modifyStats (addModified detail) ;;
                     printf "[OK] Metadata modified: %s\n"
                       [AString mediaPath] ;;
                     when (verbose p && nonEmpty (ExistingData result))
                       (printf "    Previous: %s\n"
                          [AString (ExistingData result)] ;;
                        printf "    Updated:  %s\n"
                          [AString (NewData result)])
                   else
                     let detail := "  " +:+ Details result in
                     let detail :=
                       if nonEmpty (ExistingData result)
                       then detail +:+ nl +:+ "    Verified: "
                              +:+ ExistingData result
                       else detail in
                     modifyStats (addUnmodified detail) ;;
                     printf "[SKIP] Already up-to-date: %s\n"
                       [AString mediaPath] ;;
                     when (verbose p && nonEmpty (ExistingData result))
                       (printf "    Verified: %s\n"
                          [AString (ExistingData result)])) ;;
                  match Remove w jsonPath with
                  | Some err =>
                      printf
                        "[WARN] Failed to delete supplemental metadata file %s: %v\n"
                        [AString jsonPath; AError err]
                  | None =>
                      modifyDeleted (fun d => <[jsonPath := true]> d) ;;
                      when (verbose p)
                        (printf "    Deleted: %s\n" [AString jsonPath])
                  end ;;
                  ret true
              end
        end
  end.

Definition supportedImageExts : gmap string bool :=
  list_to_map
    [(".jpg", true); (".jpeg", true); (".png", true); (".gif", true);
     (".bmp", true); (".webp", true); (".tiff", true); (".tif", true);
     (".heic", true); (".heif", true); (".dng", true)].

Definition supportedVideoExts : gmap string bool :=
  list_to_map
    [(".mp4", true); (".avi", true); (".mov", true); (".mkv", true);
     (".flv", true); (".wmv", true); (".webm", true); (".m4v", true);
     (".3gp", true); (".ogv", true); (".ts", true); (".mts", true);
     (".m2ts", true)].

(** [isSupportedMediaFile]; its two local maps are [imageExts] and
    [videoExts] in the source. *)
Definition isSupportedMediaFile (os : GOOS) (path : string) : bool :=
  let ext := ToLower (Ext os path) in
  if mapIndex supportedImageExts ext || mapIndex supportedVideoExts ext
  then true
  else false.

End processor.


(** ** Package internal/processor: the directory walk of [Process] *)
Module walk.
Import GoStrings GoFilepath metadata processor.
Local Open Scope go_scope.

(** One call that [filepath.Walk] makes of the function it is given: the
    path, and the file information or the error that it found there. *)
Record Visit : Type := {
  path : string;
  outcome : result FileInfo
}.

Definition incTotalFiles (st : Statistics) : Statistics :=
  {| TotalFiles := incr (TotalFiles st); JSONFiles := JSONFiles st;
     ProcessedFiles := ProcessedFiles st; ModifiedFiles := ModifiedFiles st;
     UnmodifiedFiles := UnmodifiedFiles st; SkippedFiles := SkippedFiles st;
     ErrorCount := ErrorCount st;
     ModifiedDetails := ModifiedDetails st;
     UnmodifiedDetails := UnmodifiedDetails st |}.

(** The function literal that [Process] hands to [filepath.Walk].  It
    appends to the slice [filesToProcess] of the enclosing function, which
    is passed and returned here beside the error. *)
Definition walkFn (os : GOOS) (path : string) (outcome : result FileInfo)
    (filesToProcess : list string) : M (option error * list string) :=
  match outcome with
  | Err err =>
      if IsNotExist err && HasSuffix path ".supplemental-metadata.json"
      then ret (None, filesToProcess)
      else ret (Some err, filesToProcess)
  | Ok info =>
      if IsDir info then ret (None, filesToProcess)
      else
        modifyStats incTotalFiles ;;
        p <- getProc ;;
        let deleted := mapIndex (deletedFiles p) path in
        if HasSuffix path ".supplemental-metadata.json" || deleted
        then ret (None, filesToProcess)
        else if isSupportedMediaFile os path then
          when (verbose p)
            (printf "[MEDIA] Found media file: %s\n" [AString path]) ;;
          ret (None, filesToProcess ++ [path])
        else ret (None, filesToProcess)
  end.

(** [filepath.Walk], as the calls it makes in their order: it stops at the
    first call that returns an error and returns that error.  (The function
    of [Process] returns no error but one that [Walk] has handed to it, so
    the calls that follow do not depend on what it returns, and none is
    [SkipDir] or [SkipAll].) *)
Fixpoint Walk (os : GOOS) (visits : list Visit) (filesToProcess : list string)
  : M (option error * list string) :=
  match visits with
  | [] => ret (None, filesToProcess)
  | v :: rest =>
      r <- walkFn os (path v) (outcome v) filesToProcess ;;
      match fst r with
      | Some err => ret r
      | None => Walk os rest (snd r)
      end
  end.

(** [Process] from the walk to the point where the jobs are sent: the
    media files to process, or the error it returns after counting it. *)
Definition Process_walk (w : World) (visits : list Visit)
  : M (result (list string)) :=
  r <- Walk (goos w) visits [] ;;
  match fst r with
  | Some err =>
      modifyStats incErrorCount ;;
      ret (Err (ErrorfW "error walking directory" err))
  | None => ret (Ok (snd r))
  end.

End walk.
(** * Auxiliary definitions used in the statements *)

Import GoStrings GoFilepath GoRegexp metadata processor.

(** ** Resolver *)

(** The state after the paths [ps] have been handed to [os.Stat]. *)
Definition probed (s : State) (ps : list string) : State :=
  {| Proc := Proc s; Stdout := Stdout s; Probes := Probes s ++ ps |}.

(** The outcome of [os.Stat] on the last of [ps], or [cur] when [ps] is
    empty. *)
Definition lastOutcome (w : World) (ps : list string)
    (cur : string * result FileInfo) : string * result FileInfo :=
  match List.rev ps with
  | [] => cur
  | p :: _ => (p, Stat w p)
  end.

(** [os.Stat] succeeds on [p]. *)
Definition present (w : World) (p : string) : bool := is_Ok (Stat w p).

(** The elements of [l] up to and including the first that satisfies [f];
    all of [l] when none does. *)
Fixpoint uptoFirst {A} (f : A -> bool) (l : list A) : list A :=
  match l with
  | [] => []
  | x :: r => if f x then [x] else x :: uptoFirst f r
  end.

(** The path of step 1: the extension of the media path replaced by
    [.json]. *)
Definition extSwap (os : GOOS) (mediaPath : string) : string :=
  TrimSuffix mediaPath (Ext os mediaPath) +:+ ".json".

(** A byte that is neither a path separator nor a dot. *)
Definition plainByte (os : GOOS) (c : ascii) : bool :=
  negb (IsPathSeparator os c) && negb (Ascii.eqb c ".").

Definition plain (os : GOOS) (e : string) : Prop :=
  forallb (plainByte os) (list_ascii_of_string e) = true.

(** The truncations of [full], longest first, down to two bytes. *)
Definition truncations (full : string) : list string :=
  map (slice_to full) (List.rev (seq 2 (String.length full - 1))).

(** The order in which the source lists the suffixes: the empty suffix,
    then the truncations from longest to shortest. *)
Definition suffixOrder : list string :=
  "" :: truncations ".supplemental-metadata".

(** The order with the empty suffix last. *)
Definition suffixOrderEmptyLast : list string :=
  truncations ".supplemental-metadata" ++ [""].

(** The paths of steps 3 and 4 for a given order of the suffixes: each
    suffix followed by the duplicate marker and [.json] on the normalized
    path, then each suffix followed by [.json] on the original path. *)
Definition truncationPlan (mediaPath : string) (order : list string)
  : list string :=
  let '(mtch, newMediaPath) := normalize mediaPath in
  map (fun suffix => newMediaPath +:+ suffix +:+ mtch +:+ ".json") order
  ++ map (fun suffix => mediaPath +:+ suffix +:+ ".json") order.

(** After a failed step 1, the resolver hands to [os.Stat] the paths of
    [truncationPlan mediaPath order] one after the other, stops at the
    first that exists and returns it. *)
Definition triesInOrder (order : list string) : Prop :=
  forall (w : World) (mediaPath : string) (s : State) (e : error),
    Stat w (extSwap (goos w) mediaPath) = Err e ->
    let plan := truncationPlan mediaPath order in
    let run := checkSupplementalData w mediaPath s in
    Probes (snd run) =
      Probes s ++ extSwap (goos w) mediaPath :: uptoFirst (present w) plan
    /\ (forall p, find (present w) plan = Some p ->
                  fst run = (p, Stat w p) /\ present w p = true)
    /\ (find (present w) plan = None -> is_Ok (snd (fst run)) = false).

(** ** Example data *)

Definition noTime : string := "".

Definition emptyGeo : GeoData_t.t :=
  {| GeoData_t.Latitude := zero; GeoData_t.Longitude := zero;
     GeoData_t.Altitude := zero; GeoData_t.LatitudeSpan := zero;
     GeoData_t.LongitudeSpan := zero |}.

Definition emptyGeoAlt : GeoDataAlt_t.t :=
  {| GeoDataAlt_t.Latitude := zero; GeoDataAlt_t.Longitude := zero;
     GeoDataAlt_t.Altitude := zero; GeoDataAlt_t.LatitudeSpan := zero;
     GeoDataAlt_t.LongitudeSpan := zero |}.

(** The zero value of [Metadata]. *)
Definition emptyMeta : Metadata :=
  mkMetadata "" "" 0
    {| CreationTime_t.Timestamp := noTime |}
    {| ModificationTime_t.Timestamp := noTime |}
    emptyGeo emptyGeoAlt
    {| PhotoTakenTime_t.Timestamp := noTime |}
    None.

(** A record with a photo-taken time only. *)
Definition takenAt (ts : string) : Metadata :=
  set_PhotoTakenTime {| PhotoTakenTime_t.Timestamp := ts |} emptyMeta.

(** A decoder for the documents of the examples: [{}] is the zero record,
    a bare decimal number is a record taken at that time, everything else
    is malformed. *)
Definition exampleUnmarshal (data : string) : result Metadata :=
  if String.eqb data "{}" then Ok emptyMeta
  else if forallb isDigit (list_ascii_of_string data) && nonEmpty data
  then Ok (takenAt data)
  else Err (ErrOther "invalid character").

Definition lookupFile (files : list (string * string)) (p : string)
  : option string :=
  option_map snd (find (fun f => String.eqb (fst f) p) files).

Definition sepOf (os : GOOS) : string :=
  match os with Windows => "\" | Unix => "/" end.

(** A world with the given files (path and content), in which the listed
    paths cannot be deleted.  The media files are photos the image applier
    rewrites.  The path functions suit the paths of the examples. *)
Definition exampleWorld (os : GOOS) (files : list (string * string))
    (undeletable : list string) : World :=
  {| goos := os;
     Stat := fun p =>
       match lookupFile files p with
       | Some _ => Ok {| IsDir := false |}
       | None => Err (ErrNotExist p)
       end;
     ReadFile := fun p =>
       match lookupFile files p with
       | Some data => Ok data
       | None => Err (ErrNotExist p)
       end;
     Remove := fun p =>
       if existsb (String.eqb p) undeletable
       then Some (ErrOther "access is denied")
       else None;
     Dir := fun p =>
       slice_to p (Z.to_nat (LastIndex p (sepOf os)));
     Base := fun p =>
       slice_from p (Z.to_nat (LastIndex p (sepOf os) + 1));
     Join := fun d f => d +:+ sepOf os +:+ f;
     Unmarshal := exampleUnmarshal;
     applyToImage := fun p m =>
       Ok {| Modified := true;
             Details := slice_from p (Z.to_nat (LastIndex p (sepOf os) + 1));
             ExistingData := ""; NewData := "DateTime" |};
     applyToVideo := fun p m => Err (ErrOther "ffmpeg failed") |}.

Definition zeroStats : Statistics :=
  {| TotalFiles := 0; JSONFiles := 0; ProcessedFiles := 0;
     ModifiedFiles := 0; UnmodifiedFiles := 0; SkippedFiles := 0;
     ErrorCount := 0; ModifiedDetails := []; UnmodifiedDetails := [] |}.

(** The state of a fresh, quiet, non-dry run. *)
Definition freshState (root : string) : State :=
  {| Proc := {| rootDir := root; dryRun := false; verbose := false;
                stats := zeroStats; deletedFiles := ∅; workerCount := 2 |};
     Stdout := []; Probes := [] |}.

(** ** Merge *)

Definition creationTs (m : Metadata) : string :=
  CreationTime_t.Timestamp (CreationTime m).
Definition modificationTs (m : Metadata) : string :=
  ModificationTime_t.Timestamp (ModificationTime m).
Definition photoTakenTs (m : Metadata) : string :=
  PhotoTakenTime_t.Timestamp (PhotoTakenTime m).

(** A GPS fix is there when its latitude or its longitude is not zero. *)
Definition hasFix (m : Metadata) : bool :=
  ne0 (GeoData_t.Latitude (GeoData m)) || ne0 (GeoData_t.Longitude (GeoData m)).
Definition hasFixAlt (m : Metadata) : bool :=
  ne0 (GeoDataAlt_t.Latitude (GeoDataAlt m))
  || ne0 (GeoDataAlt_t.Longitude (GeoDataAlt m)).

(** No field that the primary [p] has is lost in the merged record [r]. *)
Definition keepsPrimary (p r : Metadata) : Prop :=
  (Title p <> "" -> Title r = Title p)
  /\ (Description p <> "" -> Description r = Description p)
  /\ (ImageViews p <> 0 -> ImageViews r = ImageViews p)
  /\ (creationTs p <> "" -> CreationTime r = CreationTime p)
  /\ (modificationTs p <> "" -> ModificationTime r = ModificationTime p)
  /\ (photoTakenTs p <> "" -> PhotoTakenTime r = PhotoTakenTime p)
  /\ (hasFix p = true -> GeoData r = GeoData p)
  /\ (hasFixAlt p = true -> GeoDataAlt r = GeoDataAlt p)
  /\ Supplemental r = Supplemental p.

(** Title, description, view count, creation time, photo-taken time and
    the two GPS fixes of [r] come from the supplemental [s] when the primary
    [p] lacks them and [s] has them; a fix comes as a whole. *)
Definition fillsFromSupplemental (p s r : Metadata) : Prop :=
  (Title p = "" -> Title s <> "" -> Title r = Title s)
  /\ (Description p = "" -> Description s <> "" ->
      Description r = Description s)
  /\ (ImageViews p = 0 -> 0 < ImageViews s -> ImageViews r = ImageViews s)
  /\ (creationTs p = "" -> creationTs s <> "" ->
      CreationTime r = CreationTime s)
  /\ (photoTakenTs p = "" -> photoTakenTs s <> "" ->
      PhotoTakenTime r = PhotoTakenTime s)
  /\ (hasFix p = false -> hasFix s = true -> GeoData r = GeoData s)
  /\ (hasFixAlt p = false -> hasFixAlt s = true ->
      GeoDataAlt r = GeoDataAlt s).

(** Nothing else changes: a field of [r] that is not filled from the
    supplemental [s] by the rule above is the primary's.  In particular a
    view count is copied from a positive supplemental count only, and a fix
    is taken over only when the primary's latitude and longitude are both
    zero and the supplemental's are not. *)
Definition changesNothingElse (p s r : Metadata) : Prop :=
  (~ (Title p = "" /\ Title s <> "") -> Title r = Title p)
  /\ (~ (Description p = "" /\ Description s <> "") ->
      Description r = Description p)
  /\ (~ (ImageViews p = 0 /\ 0 < ImageViews s) ->
      ImageViews r = ImageViews p)
  /\ (~ (creationTs p = "" /\ creationTs s <> "") ->
      CreationTime r = CreationTime p)
  /\ (~ (photoTakenTs p = "" /\ photoTakenTs s <> "") ->
      PhotoTakenTime r = PhotoTakenTime p)
  /\ (~ (hasFix p = false /\ hasFix s = true) -> GeoData r = GeoData p)
  /\ (~ (hasFixAlt p = false /\ hasFixAlt s = true) ->
      GeoDataAlt r = GeoDataAlt p).

(** The same for the modification time. *)
Definition fillsModificationTime (p s r : Metadata) : Prop :=
  modificationTs p = "" -> modificationTs s <> "" ->
  ModificationTime r = ModificationTime s.

(** A primary fix is replaced only when it is entirely absent: all five
    of its values are zero. *)
Definition entirelyAbsent (g : GeoData_t.t) : bool :=
  eq0 (GeoData_t.Latitude g) && eq0 (GeoData_t.Longitude g)
  && eq0 (GeoData_t.Altitude g) && eq0 (GeoData_t.LatitudeSpan g)
  && eq0 (GeoData_t.LongitudeSpan g).

Definition replacesOnlyAbsentFix (p r : Metadata) : Prop :=
  GeoData r <> GeoData p -> entirelyAbsent (GeoData p) = true.

(** A record with a modification time only. *)
Definition modifiedAt (ts : string) : Metadata :=
  set_ModificationTime {| ModificationTime_t.Timestamp := ts |} emptyMeta.

(** A record whose primary fix has an altitude (5) and neither latitude
    nor longitude. *)
Definition altitudeOnly : Metadata :=
  set_GeoData
    {| GeoData_t.Latitude := zero; GeoData_t.Longitude := zero;
       GeoData_t.Altitude := S754_finite false 5 0;
       GeoData_t.LatitudeSpan := zero; GeoData_t.LongitudeSpan := zero |}
    emptyMeta.

(** A record whose primary fix is latitude 1, longitude 2, no altitude. *)
Definition fixOnly : Metadata :=
  set_GeoData
    {| GeoData_t.Latitude := S754_finite false 1 0;
       GeoData_t.Longitude := S754_finite false 2 0;
       GeoData_t.Altitude := zero;
       GeoData_t.LatitudeSpan := zero; GeoData_t.LongitudeSpan := zero |}
    emptyMeta.

(** ** Coordinates *)

(** The first of two values that is not zero. *)
Definition pick (a b : spec_float) : option spec_float :=
  if ne0 a then Some a else if ne0 b then Some b else None.

Definition optNe0 (x : spec_float) : option spec_float :=
  if ne0 x then Some x else None.

(** Selection of a fix as a unit: the primary fix when it is there, else
    the alternate fix when it is there; latitude, longitude and altitude
    all come from the selected fix. *)
Definition ResolvedCoordinates_asUnit (m : Metadata)
  : option (spec_float * spec_float * option spec_float) :=
  if hasFix m
  then Some (GeoData_t.Latitude (GeoData m), GeoData_t.Longitude (GeoData m),
             optNe0 (GeoData_t.Altitude (GeoData m)))
  else if hasFixAlt m
  then Some (GeoDataAlt_t.Latitude (GeoDataAlt m),
             GeoDataAlt_t.Longitude (GeoDataAlt m),
             optNe0 (GeoDataAlt_t.Altitude (GeoDataAlt m)))
  else None.

(** The float of a positive integer. *)
Definition fl (n : positive) : spec_float := S754_finite false n 0.

(** Primary fix: latitude 1, longitude 0, altitude 0.  Alternate fix:
    latitude 2, longitude 3, altitude 4. *)
Definition twoFixes : Metadata :=
  set_GeoDataAlt
    {| GeoDataAlt_t.Latitude := fl 2; GeoDataAlt_t.Longitude := fl 3;
       GeoDataAlt_t.Altitude := fl 4; GeoDataAlt_t.LatitudeSpan := zero;
       GeoDataAlt_t.LongitudeSpan := zero |}
    (set_GeoData
       {| GeoData_t.Latitude := fl 1; GeoData_t.Longitude := zero;
          GeoData_t.Altitude := zero; GeoData_t.LatitudeSpan := zero;
          GeoData_t.LongitudeSpan := zero |}
       emptyMeta).

(** ** Timestamps *)

(** A decimal string: one or more decimal digits and nothing else. *)
Definition isDecimal (ts : string) : bool :=
  nonEmpty ts && forallb isDigit (list_ascii_of_string ts).

(** The number a string of decimal digits writes. *)
Definition decimalValue (ts : string) : Z :=
  fold_left (fun acc c => 10 * acc + Z.of_nat (nat_of_ascii c - 48))
    (list_ascii_of_string ts) 0.

(** The string is empty, or its first byte is an ASCII byte that is no
    digit, no sign and no blank. *)
Definition startsUnreadable (ts : string) : bool :=
  match ts with
  | EmptyString => true
  | String c _ =>
      (nat_of_ascii c <? 128)%nat && negb (isDigit c)
      && negb (Ascii.eqb c "+") && negb (Ascii.eqb c "-")
      && negb (GoFmt.isSpace1 c)
  end.

(** The string is empty, or its first byte is no decimal digit. *)
Definition endsNumber (rest : string) : bool :=
  match rest with
  | EmptyString => true
  | String c _ => negb (isDigit c)
  end.

(** A run of blanks: any number of white-space characters other than the
    newline, in UTF-8 (tab, vertical tab, form feed, carriage return, space,
    U+0085, U+00A0, U+1680, U+2000 to U+200A, U+2028, U+2029, U+202F, U+205F,
    U+3000). *)
Fixpoint isBlankRun (s : string) : bool :=
  match s with
  | EmptyString => true
  | String c1 s1 =>
      if GoFmt.isSpace1 c1 then isBlankRun s1
      else match s1 with
           | String c2 s2 =>
               if GoFmt.isSpace2 c1 c2 then isBlankRun s2
               else match s2 with
                    | String c3 s3 =>
                        GoFmt.isSpace3 c1 c2 c3 && isBlankRun s3
                    | EmptyString => false
                    end
           | EmptyString => false
           end
  end.

(** The sign in front of a number: none, [+] or [-]. *)
Definition isSignString (sgn : string) : bool :=
  String.eqb sgn "" || String.eqb sgn "+" || String.eqb sgn "-".

(** The number that the sign [sgn] and the digits [ds] write. *)
Definition signedValue (sgn ds : string) : Z :=
  if String.eqb sgn "-" then - decimalValue ds else decimalValue ds.

(** The number fits a signed 64-bit integer. *)
Definition fits64 (v : Z) : bool := (- 2 ^ 63 <=? v) && (v <=? 2 ^ 63 - 1).

(** The form of a timestamp that is read: blanks, a sign, digits, and
    then anything that does not go on with a digit. *)
Definition readable (ts blanks sgn ds rest : string) : Prop :=
  ts = blanks +:+ sgn +:+ ds +:+ rest
  /\ isBlankRun blanks = true
  /\ isSignString sgn = true
  /\ isDecimal ds = true
  /\ endsNumber rest = true.

(** A newline followed by a number. *)
Definition nl_then_number : string := String (ascii_of_nat 10) "12".

(** A photo-taken or creation time that is not a decimal string makes
    [GetPhotoTime] fail. *)
Definition nonDecimalIsFatal : Prop :=
  forall m : Metadata,
    (nonEmpty (photoTakenTs m) = true -> isDecimal (photoTakenTs m) = false ->
     is_Ok (GetPhotoTime m) = false)
    /\ (photoTakenTs m = "" -> nonEmpty (creationTs m) = true ->
        isDecimal (creationTs m) = false -> is_Ok (GetPhotoTime m) = false).

(** ** Supplemental layers *)

(** The path of the global supplemental sidecar of [jsonPath]. *)
Definition globalPath (w : World) (jsonPath : string) : string :=
  Join w (Dir w jsonPath) "supplemental-metadata.json".

(** The path of the per-file supplemental sidecar of [jsonPath]. *)
Definition perFilePath (w : World) (jsonPath : string) : string :=
  Join w (Dir w jsonPath)
    (TrimSuffix (Base w jsonPath) ".json" +:+ ".supplemental-metadata.json").

(** The record a supplemental sidecar contributes: none when the file is
    not there, cannot be read or does not decode. *)
Definition layer (w : World) (path : string) : option Metadata :=
  match Stat w path, ReadFile w path with
  | Ok _, Ok data =>
      match Unmarshal w (stripBOM data) with
      | Ok supplemental => Some supplemental
      | Err _ => None
      end
  | _, _ => None
  end.

(** The primary record merged with the layers that are there, in order. *)
Definition mergeLayers (meta : Metadata) (layers : list (option Metadata))
  : Metadata :=
  fold_left
    (fun acc l =>
       match l with Some sup => mergeMetadata acc sup | None => acc end)
    layers meta.

(** ** Cleanup *)

(** The warning written when the sidecar cannot be deleted. *)
Definition warnLine (jsonPath : string) (err : error) : Output :=
  Printf "[WARN] Failed to delete supplemental metadata file %s: %v\n"
    [AString jsonPath; AError err].

(** The branches a unit takes after the applier has returned: whether
    the file was modified, whether the run is verbose, whether the result
    carries new and previous data, and whether the sidecar was deleted. *)
Ltac unit_cases w s1 jsonPath res :=
  destruct (Modified res), (verbose (Proc s1)), (nonEmpty (NewData res)),
    (nonEmpty (ExistingData res)), (Remove w jsonPath);
  cbn.

(** ** Duplicate markers *)

(** A parenthesized-integer run: one or more decimal digits enclosed in
    parentheses. *)
Definition isRun (m : string) : Prop :=
  exists ds, isDecimal ds = true /\ m = "(" +:+ ds +:+ ")".

(** The run [m] occurs in [s] between [pre] and [post]. *)
Definition occurs (s pre m post : string) : Prop :=
  s = pre +:+ m +:+ post /\ isRun m.

Definition noBackslash (name : string) : Prop :=
  forallb (fun c => negb (Ascii.eqb c "\")) (list_ascii_of_string name) = true.

Definition notOpen (c : ascii) : bool := negb (Ascii.eqb c "(").

(** ** Further notions for the resolver *)

(** Every path the resolver may hand to [os.Stat] for a media path, in the
    order it does: the extension swap, then the paths of the two loops. *)
Definition probePlan (os : GOOS) (mediaPath : string) : list string :=
  extSwap os mediaPath :: truncationPlan mediaPath suffixOrder.

(** A world with no file at all in which [os.Stat] is refused on the
    listed paths (an error other than does-not-exist). *)
Definition deniedWorld (os : GOOS) (denied : list string) : World :=
  {| goos := os;
     Stat := fun p =>
       if existsb (String.eqb p) denied
       then Err (ErrOther "access is denied")
       else Err (ErrNotExist p);
     ReadFile := fun p => Err (ErrNotExist p);
     Remove := fun p => Some (ErrNotExist p);
     Dir := Dir (exampleWorld os [] []);
     Base := Base (exampleWorld os [] []);
     Join := Join (exampleWorld os [] []);
     Unmarshal := exampleUnmarshal;
     applyToImage := applyToImage (exampleWorld os [] []);
     applyToVideo := applyToVideo (exampleWorld os [] []) |}.

(** ** Further notions for the merge *)

(** The first string of a list that is not empty. *)
Fixpoint firstNonEmpty (l : list string) : option string :=
  match l with
  | [] => None
  | x :: r => if nonEmpty x then Some x else firstNonEmpty r
  end.

(** The fields of merged records, with the guards of the merge laid
    open. *)
Ltac merge_fields :=
  unfold hasFix, hasFixAlt, creationTs, photoTakenTs, nonEmpty;
  cbn [Title Description ImageViews CreationTime ModificationTime GeoData
       GeoDataAlt PhotoTakenTime Supplemental CreationTime_t.Timestamp
       PhotoTakenTime_t.Timestamp].

(** Case analysis on two boolean tests, each replaced wherever it shows up
    again once the branches have been taken. *)
Ltac two_tests a b :=
  let E1 := fresh "E" in
  let E2 := fresh "E" in
  destruct a eqn:E1, b eqn:E2;
  repeat (cbn -[String.eqb Z.eqb Z.ltb]; rewrite ?E1, ?E2);
  try reflexivity.

Ltac four_tests a b c d :=
  let E1 := fresh "E" in
  let E2 := fresh "E" in
  let E3 := fresh "E" in
  let E4 := fresh "E" in
  destruct a eqn:E1, b eqn:E2, c eqn:E3, d eqn:E4;
  repeat (cbn -[String.eqb Z.eqb Z.ltb]; rewrite ?E1, ?E2, ?E3, ?E4);
  try reflexivity.

Ltac six_tests a b c d e f :=
  let E1 := fresh "E" in
  let E2 := fresh "E" in
  let E3 := fresh "E" in
  let E4 := fresh "E" in
  let E5 := fresh "E" in
  let E6 := fresh "E" in
  destruct a eqn:E1, b eqn:E2, c eqn:E3, d eqn:E4, e eqn:E5, f eqn:E6;
  repeat (cbn -[String.eqb Z.eqb Z.ltb];
          rewrite ?E1, ?E2, ?E3, ?E4, ?E5, ?E6);
  try reflexivity.

Ltac three_tests a b c :=
  let E1 := fresh "E" in
  let E2 := fresh "E" in
  let E3 := fresh "E" in
  destruct a eqn:E1, b eqn:E2, c eqn:E3;
  repeat (cbn -[String.eqb Z.eqb Z.ltb]; rewrite ?E1, ?E2, ?E3);
  try reflexivity.


(** ** Further notions for the layers *)

(** The records [ParseJSON] merges for [jsonPath], in the order it does:
    the primary, then those supplemental sidecars that are there and
    decode. *)
Definition layersOf (w : World) (jsonPath : string) (meta : Metadata)
  : list Metadata :=
  meta :: omap (layer w) [globalPath w jsonPath; perFilePath w jsonPath].

(** The strings [GetPhotoTime] may read from a list of records that are
    merged in order: every photo-taken time, then every creation time. *)
Definition timeOrder (ls : list Metadata) : list string :=
  map photoTakenTs ls ++ map creationTs ls.

(** ** Further notions for a unit of work *)

(** The world [w] with other outcomes for the calls that change files:
    [os.Remove] and the two appliers. *)
Definition withEffects (w : World) (rm : string -> option error)
    (ai av : string -> Metadata -> result ApplyResult) : World :=
  {| goos := goos w; Stat := Stat w; ReadFile := ReadFile w; Remove := rm;
     Dir := Dir w; Base := Base w; Join := Join w; Unmarshal := Unmarshal w;
     applyToImage := ai; applyToVideo := av |}.

(** The state of a fresh, quiet dry run. *)
Definition dryState (root : string) : State :=
  {| Proc := {| rootDir := root; dryRun := true; verbose := false;
                stats := zeroStats; deletedFiles := ∅; workerCount := 2 |};
     Stdout := []; Probes := [] |}.

(** The counters add up: processed files are the modified and the
    unmodified ones, as 64-bit integers. *)
Definition balanced (st : Statistics) : Prop :=
  (ProcessedFiles st - (ModifiedFiles st + UnmodifiedFiles st)) mod 2 ^ 64 = 0.

(** The branches of a unit of work whose resolution gave [r] for
    [jsonPath] and left the state [s1], once the settings [verbose] and
    [dryRun] are known. *)
Ltac unit_branches w mediaPath s1 jsonPath r :=
  let info := fresh "info" in
  let e := fresh "e" in
  let meta := fresh "meta" in
  let res := fresh "res" in
  destruct r as [info|e];
  [ destruct (IsDir info) eqn:?;
    [ cbn
    | destruct (ParseJSON w jsonPath) as [meta|] eqn:?;
      [ try (destruct (ApplyToFile w mediaPath meta) as [res|] eqn:?;
             [ destruct (Modified res), (nonEmpty (NewData res)),
                 (nonEmpty (ExistingData res)), (Remove w jsonPath) eqn:?
             | ]);
        cbn
      | cbn ] ]
  | destruct (IsNotExist e) eqn:?; cbn ].

(** A unit of work from its start: [start] is the fact that the
    resolution leaves the processor and the output as they were and returns
    a path of the plan with its [os.Stat] outcome. *)
Ltac unit_start start w mediaPath s :=
  let jsonPath := fresh "jsonPath" in
  let r := fresh "r" in
  let s1 := fresh "s1" in
  let H := fresh "H" in
  let HP := fresh "HP" in
  let HS := fresh "HS" in
  let Hin := fresh "Hin" in
  let Hst := fresh "Hst" in
  let Hv := fresh "Hv" in
  let Hd := fresh "Hd" in
  destruct (start w mediaPath s)
    as (jsonPath & r & s1 & H & HP & HS & Hin & Hst);
  unfold processMediaFile, processor.bind; rewrite H;
  cbn [fst snd getProc]; rewrite <- ?HP, <- ?HS;
  destruct (verbose (Proc s1)) eqn:Hv, (dryRun (Proc s1)) eqn:Hd;
  unit_branches w mediaPath s1 jsonPath r; rewrite ?Hv, ?Hd.

(** ** Further notions for coordinates *)

(** A record whose alternate fix is latitude 2, longitude 3, altitude 4,
    with no primary fix. *)
Definition alternateOnly : Metadata :=
  set_GeoDataAlt
    {| GeoDataAlt_t.Latitude := fl 2; GeoDataAlt_t.Longitude := fl 3;
       GeoDataAlt_t.Altitude := fl 4; GeoDataAlt_t.LatitudeSpan := zero;
       GeoDataAlt_t.LongitudeSpan := zero |}
    emptyMeta.

(** ** Notions for the directory walk *)

Import walk.

(** A call that makes the walk stop: it carries an error, other than a
    not-exist error for a path ending in [.supplemental-metadata.json]. *)
Definition fatal (v : Visit) : bool :=
  match outcome v with
  | Err e =>
      negb (IsNotExist e && HasSuffix (path v) ".supplemental-metadata.json")
  | Ok _ => false
  end.

(** A call for something that is no directory. *)
Definition isFile (v : Visit) : bool :=
  match outcome v with
  | Ok info => negb (IsDir info)
  | Err _ => false
  end.

(** The calls made before the first one that stops the walk. *)
Fixpoint beforeFatal (visits : list Visit) : list Visit :=
  match visits with
  | [] => []
  | v :: rest => if fatal v then [] else v :: beforeFatal rest
  end.

(** The paths of the files among [visits]. *)
Definition filesOf (visits : list Visit) : list string :=
  map path (List.filter isFile visits).

(** The supported media files among [visits] that are not recorded as
    deleted. *)
Definition queued (os : GOOS) (deleted : gmap string bool)
    (visits : list Visit) : list string :=
  List.filter
    (fun p => isSupportedMediaFile os p && negb (mapIndex deleted p))
    (filesOf visits).

(** The counters other than [TotalFiles], and the details. *)
Definition otherCounters (st : Statistics) :=
  (JSONFiles st, ProcessedFiles st, ModifiedFiles st, UnmodifiedFiles st,
   SkippedFiles st, ErrorCount st, ModifiedDetails st, UnmodifiedDetails st).

(** The settings of a run and its set of deleted sidecars. *)
Definition settings (p : Processor) :=
  (rootDir p, dryRun p, verbose p, deletedFiles p, workerCount p).

(** The lines the walk prints for the files it queues. *)
Definition mediaLines (p : Processor) (files : list string) : list Output :=
  if verbose p
  then map (fun f => Printf "[MEDIA] Found media file: %s\n" [AString f])
         files
  else [].

(** A directory, a file, and a path that [filepath.Walk] could not
    examine. *)
Definition dirAt (p : string) : Visit :=
  {| path := p; outcome := Ok {| IsDir := true |} |}.
Definition fileAt (p : string) : Visit :=
  {| path := p; outcome := Ok {| IsDir := false |} |}.
Definition errorAt (p : string) (e : error) : Visit :=
  {| path := p; outcome := Err e |}.

(** The error that stops the walk, if any. *)
Fixpoint firstFatal (visits : list Visit) : option error :=
  match visits with
  | [] => None
  | v :: rest =>
      if fatal v
      then match outcome v with Err e => Some e | Ok _ => None end
      else firstFatal rest
  end.

(** The rest of the walk after one call, by the fact [IH] for the calls
    that follow; [lines] splits the lines printed. *)
Ltac walk_close IH lines :=
  match goal with
  | |- context [Walk ?os ?rest ?files ?s2] =>
      let s' := fresh "s'" in
      let E := fresh "E" in
      let H1 := fresh "H" in
      let H2 := fresh "H" in
      let H3 := fresh "H" in
      let H4 := fresh "H" in
      let H5 := fresh "H" in
      destruct (IH files s2) as (s' & E & H1 & H2 & H3 & H4 & H5);
      exists s'; rewrite E;
      split; [rewrite <- ?List.app_assoc; reflexivity|];
      split; [exact H1|]; split; [exact H2|];
      split; [rewrite ?Nat.iter_succ_r; exact H3|];
      split; [|exact H5];
      rewrite H4, ?lines, ?List.app_assoc; try reflexivity
  end.

(** ** The set of deleted sidecars *)

(** Every path recorded as deleted ends in [.json]. *)
Definition sidecarsOnly (deleted : gmap string bool) : Prop :=
  forall k, mapIndex deleted k = true -> HasSuffix k ".json" = true.
(** * Properties *)

(** ** Strings *)

Lemma app_cons (c : ascii) (s t : string) :
  String c s +:+ t = String c (s +:+ t).
Proof. reflexivity. Qed.

Lemma app_empty_r (s : string) : s +:+ "" = s.
Proof. induction s as [|c s IH]; [reflexivity|]. now rewrite app_cons, IH. Qed.

Lemma app_assoc' (s t u : string) : (s +:+ t) +:+ u = s +:+ (t +:+ u).
Proof.
  induction s as [|c s IH]; [reflexivity|]. now rewrite !app_cons, IH.
Qed.

Lemma length_app (s t : string) :
  String.length (s +:+ t) = (String.length s + String.length t)%nat.
Proof.
  induction s as [|c s IH]; [reflexivity|].
  rewrite app_cons. simpl. now rewrite IH.
Qed.

Lemma slice_to_app (s t : string) : slice_to (s +:+ t) (String.length s) = s.
Proof.
  induction s as [|c s IH]; [now destruct t|].
  rewrite app_cons. simpl. now rewrite IH.
Qed.

Lemma slice_from_app (s t : string) :
  slice_from (s +:+ t) (String.length s) = t.
Proof. induction s as [|c s IH]; [now destruct t|]. now rewrite app_cons. Qed.

Lemma slice_to_from (s : string) (n : nat) :
  slice_to s n +:+ slice_from s n = s.
Proof.
  revert n. induction s as [|c s IH]; intros [|n]; try reflexivity.
  simpl. now rewrite app_cons, IH.
Qed.

Lemma prefix_app (s t : string) : String.prefix s (s +:+ t) = true.
Proof.
  induction s as [|c s IH]; [now destruct t|].
  rewrite app_cons. simpl. destruct (ascii_dec c c); [exact IH|congruence].
Qed.

Lemma prefix_split (s t : string) :
  String.prefix s t = true -> t = s +:+ slice_from t (String.length s).
Proof.
  revert t. induction s as [|c s IH]; intros t H; [now destruct t|].
  destruct t as [|d t]; [discriminate|]. simpl in H.
  destruct (ascii_dec c d) as [->|]; [|discriminate].
  rewrite app_cons. simpl. now rewrite <- IH.
Qed.

Lemma HasSuffix_app (s t : string) : HasSuffix (s +:+ t) t = true.
Proof.
  unfold HasSuffix. rewrite length_app.
  replace (String.length s + String.length t - String.length t)%nat
    with (String.length s) by lia.
  rewrite slice_from_app, String.eqb_refl.
  rewrite andb_true_r. apply Nat.leb_le. lia.
Qed.

Lemma TrimSuffix_app (s t : string) : TrimSuffix (s +:+ t) t = s.
Proof.
  unfold TrimSuffix. rewrite HasSuffix_app, length_app.
  replace (String.length s + String.length t - String.length t)%nat
    with (String.length s) by lia.
  apply slice_to_app.
Qed.

(** ** The resolver's probing loop *)

Lemma probed_nil (s : State) : probed s [] = s.
Proof. destruct s. unfold probed. simpl. now rewrite List.app_nil_r. Qed.

Lemma probed_probed (s : State) (ps qs : list string) :
  probed (probed s ps) qs = probed s (ps ++ qs).
Proof. unfold probed. simpl. now rewrite <- List.app_assoc. Qed.

Lemma stat_run (w : World) (path : string) (s : State) :
  stat w path s = (Stat w path, probed s [path]).
Proof. reflexivity. Qed.

Lemma lastOutcome_cons (w : World) (p : string) (ps : list string) cur :
  lastOutcome w (p :: ps) cur = lastOutcome w ps (p, Stat w p).
Proof.
  unfold lastOutcome. simpl.
  destruct (List.rev ps) as [|q qs]; reflexivity.
Qed.

(** One loop: the paths are tried in order up to the first that exists,
    which is returned; when none exists the outcome of the last is. *)
Lemma statLoop_spec (w : World) (ps : list string) cur (s : State) :
  statLoop w ps cur s =
    (match find (present w) ps with
     | Some p => (p, Stat w p)
     | None => lastOutcome w ps cur
     end,
     probed s (uptoFirst (present w) ps)).
Proof.
  revert cur s. induction ps as [|p ps IH]; intros cur s.
  - simpl. unfold ret, lastOutcome. simpl. now rewrite probed_nil.
  - simpl. unfold processor.bind. rewrite stat_run.
    change (present w p) with (is_Ok (Stat w p)).
    destruct (Stat w p) as [i|e] eqn:E; simpl; [now rewrite E|].
    rewrite IH, probed_probed, lastOutcome_cons, E. reflexivity.
Qed.

Lemma find_present_Ok (w : World) (ps : list string) (p : string) :
  find (present w) ps = Some p -> present w p = true.
Proof. intros H. now apply find_some in H. Qed.

Lemma lastOutcome_missing (w : World) (ps : list string) cur :
  find (present w) ps = None -> is_Ok (snd cur) = false ->
  is_Ok (snd (lastOutcome w ps cur)) = false.
Proof.
  intros Hnone Hcur. unfold lastOutcome.
  destruct (List.rev ps) as [|q qs] eqn:R; [assumption|]. simpl.
  apply (find_none _ _ Hnone q). apply in_rev. rewrite R. now left.
Qed.

Lemma uptoFirst_app {A} (f : A -> bool) (l1 l2 : list A) :
  uptoFirst f (l1 ++ l2) =
    match find f l1 with
    | Some _ => uptoFirst f l1
    | None => l1 ++ uptoFirst f l2
    end.
Proof.
  induction l1 as [|x l1 IH]; [reflexivity|]. simpl.
  destruct (f x); [reflexivity|]. rewrite IH.
  destruct (find f l1); reflexivity.
Qed.

Lemma uptoFirst_none {A} (f : A -> bool) (l : list A) :
  find f l = None -> uptoFirst f l = l.
Proof.
  induction l as [|x l IH]; [reflexivity|]. simpl.
  destruct (f x); [discriminate|]. intros H. now rewrite IH.
Qed.

Lemma find_app {A} (f : A -> bool) (l1 l2 : list A) :
  find f (l1 ++ l2) =
    match find f l1 with Some x => Some x | None => find f l2 end.
Proof.
  induction l1 as [|x l1 IH]; [reflexivity|]. simpl.
  destruct (f x); [reflexivity|exact IH].
Qed.

(** What [checkSupplementalData] does once step 1 has failed. *)
Lemma checkSupplementalData_after_step1 (w : World) (mediaPath : string)
    (s : State) (e : error) :
  Stat w (extSwap (goos w) mediaPath) = Err e ->
  checkSupplementalData w mediaPath s =
    let '(mtch, newMediaPath) := normalize mediaPath in
    let '(r1, s1) :=
      statLoop w (candidatesWithMarker newMediaPath mtch)
        (extSwap (goos w) mediaPath, Err e)
        (probed s [extSwap (goos w) mediaPath]) in
    match snd r1 with
    | Ok _ => (r1, s1)
    | Err _ => statLoop w (candidatesPlain mediaPath) r1 s1
    end.
Proof.
  intros H. unfold checkSupplementalData, processor.bind, extSwap in *.
  rewrite stat_run, H. destruct (normalize mediaPath) as [mtch newMediaPath].
  destruct (statLoop _ _ _ _) as [r1 s1]. destruct (snd r1); reflexivity.
Qed.

(** The two loops read their paths off [jsonSuffixes]. *)
Lemma jsonSuffixes_order : jsonSuffixes = suffixOrder.
Proof. reflexivity. Qed.

Lemma candidatesWithMarker_eq (newMediaPath mtch : string) :
  candidatesWithMarker newMediaPath mtch =
    map (fun suffix => newMediaPath +:+ suffix +:+ mtch +:+ ".json")
        jsonSuffixes.
Proof.
  unfold candidatesWithMarker. apply map_ext. intros suffix.
  unfold nonEmpty. destruct (String.eqb_spec mtch "") as [->|]; reflexivity.
Qed.

Lemma truncationPlan_code (mediaPath : string) :
  truncationPlan mediaPath suffixOrder =
    candidatesWithMarker (snd (normalize mediaPath)) (fst (normalize mediaPath))
    ++ candidatesPlain mediaPath.
Proof.
  unfold truncationPlan. destruct (normalize mediaPath) as [mtch newMediaPath].
  simpl fst. simpl snd. rewrite candidatesWithMarker_eq, jsonSuffixes_order.
  reflexivity.
Qed.

(** ** Step 1: the extension swap *)

Lemma list_ascii_app (s t : string) :
  list_ascii_of_string (s +:+ t) =
    list_ascii_of_string s ++ list_ascii_of_string t.
Proof.
  induction s as [|c s IH]; [reflexivity|].
  rewrite app_cons. simpl. now rewrite IH.
Qed.

Lemma string_of_list_ascii_app (l1 l2 : list ascii) :
  string_of_list_ascii (l1 ++ l2) =
    string_of_list_ascii l1 +:+ string_of_list_ascii l2.
Proof.
  induction l1 as [|c l1 IH]; [reflexivity|].
  simpl. now rewrite IH, app_cons.
Qed.

Lemma Ext_loop_plain (os : GOOS) (l r acc : list ascii) :
  forallb (plainByte os) l = true ->
  Ext_loop os (l ++ "."%char :: r) acc = "."%char :: List.rev l ++ acc.
Proof.
  revert acc. induction l as [|c l IH]; intros acc H.
  - simpl. destruct os; reflexivity.
  - simpl in H. apply andb_prop in H as [Hc Hl].
    unfold plainByte in Hc. apply andb_prop in Hc as [Hsep Hdot].
    apply negb_true_iff in Hsep, Hdot. simpl. rewrite Hsep, Hdot.
    rewrite (IH _ Hl). simpl. now rewrite <- List.app_assoc.
Qed.

(** The extension of [stem.e] is [.e] when [e] has no dot and no
    separator. *)
Lemma Ext_stem (os : GOOS) (stem e : string) :
  plain os e -> Ext os (stem +:+ "." +:+ e) = "." +:+ e.
Proof.
  intros H. unfold Ext, plain in *.
  rewrite list_ascii_app, list_ascii_app, List.rev_app_distr.
  change (list_ascii_of_string ".") with ["."%char].
  change (["."%char] ++ list_ascii_of_string e)
    with ("."%char :: list_ascii_of_string e).
  change (List.rev ("."%char :: list_ascii_of_string e))
    with (List.rev (list_ascii_of_string e) ++ ["."%char]).
  rewrite <- List.app_assoc.
  change (["."%char] ++ List.rev (list_ascii_of_string stem))
    with ("."%char :: List.rev (list_ascii_of_string stem)).
  rewrite Ext_loop_plain.
  - rewrite List.rev_involutive, List.app_nil_r.
    change (string_of_list_ascii ("."%char :: list_ascii_of_string e))
      with (String "." (string_of_list_ascii (list_ascii_of_string e))).
    now rewrite string_of_list_ascii_of_string.
  - rewrite forallb_forall in *. intros c Hc. apply H.
    now apply in_rev.
Qed.

(** Step 1 replaces the extension: for [stem.e] it probes [stem.json]. *)
Lemma extSwap_stem (os : GOOS) (stem e : string) :
  plain os e -> extSwap os (stem +:+ "." +:+ e) = stem +:+ ".json".
Proof.
  intros H. unfold extSwap. rewrite (Ext_stem _ _ _ H).
  now rewrite TrimSuffix_app.
Qed.

(** A successful step 1 ends the resolution. *)
Lemma checkSupplementalData_step1 (w : World) (mediaPath : string)
    (s : State) (info : FileInfo) :
  Stat w (extSwap (goos w) mediaPath) = Ok info ->
  checkSupplementalData w mediaPath s =
    ((extSwap (goos w) mediaPath, Ok info),
     probed s [extSwap (goos w) mediaPath]).
Proof.
  intros H. unfold checkSupplementalData, processor.bind, extSwap in *.
  rewrite stat_run, H. reflexivity.
Qed.

(** C4. When the sidecar named by the extension swap exists, resolution
    returns that path with the outcome of its [os.Stat], and that call is
    the only one made: no path of a later step is probed.  For a media path
    [stem.e] the path is [stem.json]. *)
Theorem C4_extension_swap_returns_first (w : World) (mediaPath : string)
    (s : State) (info : FileInfo) :
  Stat w (extSwap (goos w) mediaPath) = Ok info ->
  checkSupplementalData w mediaPath s =
    ((extSwap (goos w) mediaPath, Ok info),
     probed s [extSwap (goos w) mediaPath])
  /\ (forall stem e, plain (goos w) e -> mediaPath = stem +:+ "." +:+ e ->
                     extSwap (goos w) mediaPath = stem +:+ ".json").
Proof.
  intros H. split; [now apply checkSupplementalData_step1|].
  intros stem e He ->. now apply extSwap_stem.
Qed.

Lemma C4_witness :
  let w := exampleWorld Windows [("C:\Takeout\photo.json", "{}")] [] in
  let s := freshState "C:\Takeout" in
  extSwap Windows "C:\Takeout\photo.jpg" = "C:\Takeout\photo.json"
  /\ checkSupplementalData w "C:\Takeout\photo.jpg" s =
       (("C:\Takeout\photo.json", Ok {| IsDir := false |}),
        probed s ["C:\Takeout\photo.json"]).
Proof.
  split; [reflexivity|].
  exact (proj1 (C4_extension_swap_returns_first
                  (exampleWorld Windows [("C:\Takeout\photo.json", "{}")] [])
                  "C:\Takeout\photo.jpg" (freshState "C:\Takeout")
                  {| IsDir := false |} eq_refl)).
Defined.

(** ** Steps 3 and 4: the order of the suffixes *)

(** C2, as the code has it.  After a failed step 1 the candidate paths are
    tried in the order of [suffixOrder]: the empty suffix first, then
    [.supplemental-metadata] and its truncations from longest to shortest
    down to [.s]; in step 3 each suffix is followed by the duplicate marker
    and [.json] on the normalized path, in step 4 by [.json] alone on the
    original path.  The first path that exists is returned and nothing is
    probed after it. *)
Theorem C2_suffixes_tried_in_source_order : triesInOrder suffixOrder.
Proof.
  intros w mediaPath s e H plan run. subst plan run.
  rewrite truncationPlan_code.
  rewrite (checkSupplementalData_after_step1 _ _ _ _ H).
  destruct (normalize mediaPath) as [mtch newMediaPath]. cbn [fst snd].
  set (c3 := candidatesWithMarker newMediaPath mtch).
  set (c4 := candidatesPlain mediaPath).
  set (p1 := extSwap (goos w) mediaPath).
  rewrite statLoop_spec, find_app, uptoFirst_app.
  destruct (find (present w) c3) as [p|] eqn:F3.
  - pose proof (find_present_Ok _ _ _ F3) as Hp. unfold present in Hp.
    cbn [fst snd]. destruct (Stat w p) as [i|e'] eqn:Ep; [|discriminate].
    cbn [fst snd probed Probes]. rewrite <- List.app_assoc.
    split; [reflexivity|split].
    + intros q [= <-]. rewrite Ep. split; [reflexivity|].
      unfold present. now rewrite Ep.
    + intros; discriminate.
  - assert (Hlast : is_Ok (snd (lastOutcome w c3 (p1, Err e))) = false)
      by (now apply lastOutcome_missing).
    destruct (snd (lastOutcome w c3 (p1, Err e))) as [i|e'] eqn:El;
      [discriminate|].
    rewrite statLoop_spec. cbn [fst snd probed Probes].
    rewrite <- !List.app_assoc, (uptoFirst_none _ _ F3).
    split; [reflexivity|split].
    + intros q Hq. rewrite Hq. split; [reflexivity|].
      now apply find_present_Ok in Hq.
    + intros Hq. rewrite Hq. apply lastOutcome_missing; [assumption|].
      now rewrite El.
Qed.

Lemma C2_witness :
  let w := exampleWorld Windows
             [("C:\Takeout\a.jpg.json", "{}");
              ("C:\Takeout\a.jpg.supplemental-metadata.json", "{}")] [] in
  let s := freshState "C:\Takeout" in
  Stat w (extSwap Windows "C:\Takeout\a.jpg") =
    Err (ErrNotExist "C:\Takeout\a.json")
  /\ Probes (snd (checkSupplementalData w "C:\Takeout\a.jpg" s)) =
       Probes s ++ extSwap (goos w) "C:\Takeout\a.jpg"
         :: uptoFirst (present w)
              (truncationPlan "C:\Takeout\a.jpg" suffixOrder).
Proof.
  split; [reflexivity|].
  exact (proj1 (C2_suffixes_tried_in_source_order
                  (exampleWorld Windows
                     [("C:\Takeout\a.jpg.json", "{}");
                      ("C:\Takeout\a.jpg.supplemental-metadata.json", "{}")] [])
                  "C:\Takeout\a.jpg" (freshState "C:\Takeout")
                  (ErrNotExist "C:\Takeout\a.json") eq_refl)).
Defined.

(** C2 as stated fails: with the empty suffix tried last, a media file
    that has both [a.jpg.json] and [a.jpg.supplemental-metadata.json] would
    resolve to the latter; the code returns [a.jpg.json], the second path it
    probes. *)
Lemma C2_counterexample :
  let w := exampleWorld Windows
             [("C:\Takeout\a.jpg.json", "{}");
              ("C:\Takeout\a.jpg.supplemental-metadata.json", "{}")] [] in
  let s := freshState "C:\Takeout" in
  let run := checkSupplementalData w "C:\Takeout\a.jpg" s in
  find (present w) (truncationPlan "C:\Takeout\a.jpg" suffixOrderEmptyLast) =
    Some "C:\Takeout\a.jpg.supplemental-metadata.json"
  /\ fst run = ("C:\Takeout\a.jpg.json", Ok {| IsDir := false |})
  /\ Probes (snd run) = ["C:\Takeout\a.json"; "C:\Takeout\a.jpg.json"]
  /\ ~ triesInOrder suffixOrderEmptyLast.
Proof.
  intros w s run. split; [reflexivity|]. split; [reflexivity|].
  split; [reflexivity|]. intros H.
  destruct (H w "C:\Takeout\a.jpg" s (ErrNotExist "C:\Takeout\a.json")
              eq_refl) as (_ & Hfind & _).
  specialize (Hfind "C:\Takeout\a.jpg.supplemental-metadata.json" eq_refl).
  destruct Hfind as [Hfst _]. vm_compute in Hfst. discriminate.
Qed.

(** ** Merge *)

Lemma nonEmpty_true (s : string) : nonEmpty s = true <-> s <> "".
Proof.
  unfold nonEmpty. destruct (String.eqb_spec s ""); simpl; split;
    congruence.
Qed.

Lemma nonEmpty_false (s : string) : nonEmpty s = false <-> s = "".
Proof.
  unfold nonEmpty. destruct (String.eqb_spec s ""); simpl; split;
    congruence.
Qed.

(** [mergeMetadata] as one record: every guard reads the arguments only,
    since no assignment changes a field that a later guard reads. *)
Lemma mergeMetadata_record (p s : Metadata) :
  mergeMetadata p s =
    mkMetadata
      (if String.eqb (Title p) "" && nonEmpty (Title s)
       then Title s else Title p)
      (if String.eqb (Description p) "" && nonEmpty (Description s)
       then Description s else Description p)
      (if (ImageViews p =? 0) && (0 <? ImageViews s)
       then ImageViews s else ImageViews p)
      (if String.eqb (creationTs p) "" && nonEmpty (creationTs s)
       then CreationTime s else CreationTime p)
      (ModificationTime p)
      (if negb (hasFix p) && hasFix s then GeoData s else GeoData p)
      (if negb (hasFixAlt p) && hasFixAlt s then GeoDataAlt s
       else GeoDataAlt p)
      (if String.eqb (photoTakenTs p) "" && nonEmpty (photoTakenTs s)
       then PhotoTakenTime s else PhotoTakenTime p)
      (Supplemental p).
Proof.
  destruct p as [t1 d1 v1 c1 m1 g1 a1 p1 s1].
  unfold mergeMetadata, hasFix, hasFixAlt, creationTs, photoTakenTs, eq0.
  rewrite !negb_orb.
  cbn [Title Description ImageViews CreationTime ModificationTime GeoData
       GeoDataAlt PhotoTakenTime Supplemental].
  repeat match goal with
         | |- context [if ?c then set_Title _ _ else _] =>
             destruct c; cbn -[String.eqb Z.eqb Z.ltb]
         | |- context [if ?c then set_Description _ _ else _] =>
             destruct c; cbn -[String.eqb Z.eqb Z.ltb]
         | |- context [if ?c then set_ImageViews _ _ else _] =>
             destruct c; cbn -[String.eqb Z.eqb Z.ltb]
         | |- context [if ?c then set_CreationTime _ _ else _] =>
             destruct c; cbn -[String.eqb Z.eqb Z.ltb]
         | |- context [if ?c then set_PhotoTakenTime _ _ else _] =>
             destruct c; cbn -[String.eqb Z.eqb Z.ltb]
         | |- context [if ?c then set_GeoData _ _ else _] =>
             destruct c; cbn -[String.eqb Z.eqb Z.ltb]
         | |- context [if ?c then set_GeoDataAlt _ _ else _] =>
             destruct c; cbn -[String.eqb Z.eqb Z.ltb]
         end; reflexivity.
Qed.

Lemma merge_fills (p s : Metadata) :
  fillsFromSupplemental p s (mergeMetadata p s).
Proof.
  rewrite mergeMetadata_record. unfold fillsFromSupplemental.
  cbn [Title Description ImageViews CreationTime ModificationTime GeoData
       GeoDataAlt PhotoTakenTime Supplemental].
  repeat split.
  - intros H1 H2. apply nonEmpty_true in H2. now rewrite H1, H2.
  - intros H1 H2. apply nonEmpty_true in H2. now rewrite H1, H2.
  - intros H1 H2. apply Z.ltb_lt in H2. now rewrite H1, H2.
  - intros H1 H2. apply nonEmpty_true in H2. now rewrite H1, H2.
  - intros H1 H2. apply nonEmpty_true in H2. now rewrite H1, H2.
  - intros H1 H2. now rewrite H1, H2.
  - intros H1 H2. now rewrite H1, H2.
Qed.

Lemma guard_string (a b : string) :
  String.eqb a "" && nonEmpty b = true <-> a = "" /\ b <> "".
Proof.
  unfold nonEmpty. rewrite andb_true_iff, negb_true_iff.
  now rewrite String.eqb_eq, String.eqb_neq.
Qed.

Lemma guard_views (a b : Z) :
  (a =? 0) && (0 <? b) = true <-> a = 0 /\ 0 < b.
Proof. now rewrite andb_true_iff, Z.eqb_eq, Z.ltb_lt. Qed.

Lemma guard_fix (a b : bool) :
  negb a && b = true <-> a = false /\ b = true.
Proof. now rewrite andb_true_iff, negb_true_iff. Qed.

Lemma merge_changes_nothing_else (p s : Metadata) :
  changesNothingElse p s (mergeMetadata p s).
Proof.
  rewrite mergeMetadata_record. unfold changesNothingElse.
  cbn [Title Description ImageViews CreationTime ModificationTime GeoData
       GeoDataAlt PhotoTakenTime Supplemental].
  repeat split; intros H.
  - destruct (String.eqb (Title p) "" && nonEmpty (Title s)) eqn:E;
      [|reflexivity]. now apply guard_string in E.
  - destruct (String.eqb (Description p) "" && nonEmpty (Description s))
      eqn:E; [|reflexivity]. now apply guard_string in E.
  - destruct ((ImageViews p =? 0) && (0 <? ImageViews s)) eqn:E;
      [|reflexivity]. now apply guard_views in E.
  - destruct (String.eqb (creationTs p) "" && nonEmpty (creationTs s)) eqn:E;
      [|reflexivity]. now apply guard_string in E.
  - destruct (String.eqb (photoTakenTs p) "" && nonEmpty (photoTakenTs s))
      eqn:E; [|reflexivity]. now apply guard_string in E.
  - destruct (negb (hasFix p) && hasFix s) eqn:E; [|reflexivity].
    now apply guard_fix in E.
  - destruct (negb (hasFixAlt p) && hasFixAlt s) eqn:E; [|reflexivity].
    now apply guard_fix in E.
Qed.

(** The two rules, with the modification time and the nested record,
    leave one record only. *)
Lemma merge_determined (p s r1 r2 : Metadata) :
  fillsFromSupplemental p s r1 -> changesNothingElse p s r1 ->
  fillsFromSupplemental p s r2 -> changesNothingElse p s r2 ->
  ModificationTime r1 = ModificationTime p ->
  ModificationTime r2 = ModificationTime p ->
  Supplemental r1 = Supplemental p ->
  Supplemental r2 = Supplemental p ->
  r1 = r2.
Proof.
  intros (F1 & F2 & F3 & F4 & F5 & F6 & F7) (C1 & C2 & C3 & C4 & C5 & C6 & C7)
         (G1 & G2 & G3 & G4 & G5 & G6 & G7) (D1 & D2 & D3 & D4 & D5 & D6 & D7)
         M1 M2 S1 S2.
  assert (T : Title r1 = Title r2).
  { destruct (String.eqb (Title p) "" && nonEmpty (Title s)) eqn:E.
    - apply guard_string in E as [E1 E2]. now rewrite F1, G1.
    - assert (N : ~ (Title p = "" /\ Title s <> ""))
        by (intros N; apply guard_string in N; congruence).
      now rewrite C1, D1. }
  assert (D : Description r1 = Description r2).
  { destruct (String.eqb (Description p) "" && nonEmpty (Description s))
      eqn:E.
    - apply guard_string in E as [E1 E2]. now rewrite F2, G2.
    - assert (N : ~ (Description p = "" /\ Description s <> ""))
        by (intros N; apply guard_string in N; congruence).
      now rewrite C2, D2. }
  assert (V : ImageViews r1 = ImageViews r2).
  { destruct ((ImageViews p =? 0) && (0 <? ImageViews s)) eqn:E.
    - apply guard_views in E as [E1 E2]. now rewrite F3, G3.
    - assert (N : ~ (ImageViews p = 0 /\ 0 < ImageViews s))
        by (intros N; apply guard_views in N; congruence).
      now rewrite C3, D3. }
  assert (Cr : CreationTime r1 = CreationTime r2).
  { destruct (String.eqb (creationTs p) "" && nonEmpty (creationTs s)) eqn:E.
    - apply guard_string in E as [E1 E2]. now rewrite F4, G4.
    - assert (N : ~ (creationTs p = "" /\ creationTs s <> ""))
        by (intros N; apply guard_string in N; congruence).
      now rewrite C4, D4. }
  assert (Ph : PhotoTakenTime r1 = PhotoTakenTime r2).
  { destruct (String.eqb (photoTakenTs p) "" && nonEmpty (photoTakenTs s))
      eqn:E.
    - apply guard_string in E as [E1 E2]. now rewrite F5, G5.
    - assert (N : ~ (photoTakenTs p = "" /\ photoTakenTs s <> ""))
        by (intros N; apply guard_string in N; congruence).
      now rewrite C5, D5. }
  assert (Ge : GeoData r1 = GeoData r2).
  { destruct (negb (hasFix p) && hasFix s) eqn:E.
    - apply guard_fix in E as [E1 E2]. now rewrite F6, G6.
    - assert (N : ~ (hasFix p = false /\ hasFix s = true))
        by (intros N; apply guard_fix in N; congruence).
      now rewrite C6, D6. }
  assert (Ga : GeoDataAlt r1 = GeoDataAlt r2).
  { destruct (negb (hasFixAlt p) && hasFixAlt s) eqn:E.
    - apply guard_fix in E as [E1 E2]. now rewrite F7, G7.
    - assert (N : ~ (hasFixAlt p = false /\ hasFixAlt s = true))
        by (intros N; apply guard_fix in N; congruence).
      now rewrite C7, D7. }
  destruct r1, r2. cbn in *. congruence.
Qed.

(** C3, as the code has it.  [mergeMetadata] loses no field the primary
    has, and fills title, description, view count (from a positive
    supplemental count), creation time, photo-taken time and each GPS fix
    from the supplemental when the primary lacks them, each on its own; a
    GPS fix is taken over whole, and only when the primary's latitude and
    longitude are both zero.  The modification time is always the
    primary's.  Nothing else changes: a field is the supplemental's exactly
    when the primary lacks it and the supplemental has it, and is the
    primary's otherwise; the merged record is thereby determined. *)
Theorem C3_merge_keeps_primary_fills_gaps (p s : Metadata) :
  let r := mergeMetadata p s in
  keepsPrimary p r
  /\ fillsFromSupplemental p s r
  /\ ModificationTime r = ModificationTime p
  /\ changesNothingElse p s r
  /\ (forall r',
        fillsFromSupplemental p s r' -> changesNothingElse p s r' ->
        ModificationTime r' = ModificationTime p ->
        Supplemental r' = Supplemental p ->
        r' = r).
Proof.
  intros r. subst r. split; [|split; [|split; [|split]]].
  - rewrite mergeMetadata_record. unfold keepsPrimary.
    cbn [Title Description ImageViews CreationTime ModificationTime GeoData
         GeoDataAlt PhotoTakenTime Supplemental].
    repeat split.
    + intros H. apply String.eqb_neq in H. now rewrite H.
    + intros H. apply String.eqb_neq in H. now rewrite H.
    + intros H. apply Z.eqb_neq in H. now rewrite H.
    + intros H. apply String.eqb_neq in H. now rewrite H.
    + intros H. apply String.eqb_neq in H. now rewrite H.
    + intros H. now rewrite H.
    + intros H. now rewrite H.
  - apply merge_fills.
  - now rewrite mergeMetadata_record.
  - apply merge_changes_nothing_else.
  - intros r' Hf Hc Hm Hs.
    apply (merge_determined p s r' (mergeMetadata p s)); auto.
    + apply merge_fills.
    + apply merge_changes_nothing_else.
    + now rewrite mergeMetadata_record.
    + now rewrite mergeMetadata_record.
Qed.

(** C3 as stated fails for the modification time: a primary without one
    keeps none, whatever the supplemental has.  It also fails for a primary
    fix that has an altitude but neither latitude nor longitude: the fix is
    not entirely absent, and it is replaced all the same, altitude
    included. *)
Lemma C3_counterexample :
  let p := emptyMeta in
  let s := modifiedAt "1609459200" in
  (modificationTs p = ""
   /\ modificationTs s = "1609459200"
   /\ modificationTs (mergeMetadata p s) = ""
   /\ ~ fillsModificationTime p s (mergeMetadata p s))
  /\ (GeoData (mergeMetadata altitudeOnly fixOnly) = GeoData fixOnly
      /\ ~ replacesOnlyAbsentFix altitudeOnly
             (mergeMetadata altitudeOnly fixOnly)).
Proof.
  intros p s. split.
  - repeat split. intros H. specialize (H eq_refl).
    assert (E : modificationTs s <> "") by discriminate.
    specialize (H E). discriminate.
  - split; [reflexivity|]. intros H.
    assert (E : GeoData (mergeMetadata altitudeOnly fixOnly)
                <> GeoData altitudeOnly) by discriminate.
    specialize (H E). discriminate.
Qed.

(** ** Coordinates *)

(** C5, as the code has it.  Latitude, longitude and altitude are each
    chosen on their own: the primary fix's value when it is not zero, else
    the alternate fix's when that is not zero.  Coordinates are there when
    a latitude and a longitude are found; the altitude is optional. *)
Theorem C5_coordinates_chosen_per_component (m : Metadata) :
  ResolvedCoordinates m =
    match pick (GeoData_t.Latitude (GeoData m))
               (GeoDataAlt_t.Latitude (GeoDataAlt m)),
          pick (GeoData_t.Longitude (GeoData m))
               (GeoDataAlt_t.Longitude (GeoDataAlt m)) with
    | Some lat, Some lon =>
        Some (lat, lon,
              pick (GeoData_t.Altitude (GeoData m))
                   (GeoDataAlt_t.Altitude (GeoDataAlt m)))
    | _, _ => None
    end.
Proof.
  unfold ResolvedCoordinates, GetLatitude, GetLongitude, GetAltitude, pick.
  destruct (ne0 (GeoData_t.Latitude (GeoData m))),
    (ne0 (GeoDataAlt_t.Latitude (GeoDataAlt m))),
    (ne0 (GeoData_t.Longitude (GeoData m))),
    (ne0 (GeoDataAlt_t.Longitude (GeoDataAlt m))),
    (ne0 (GeoData_t.Altitude (GeoData m))),
    (ne0 (GeoDataAlt_t.Altitude (GeoDataAlt m))); reflexivity.
Qed.

(** C5 as stated fails: with a primary fix of latitude 1 and longitude 0
    and an alternate fix (2, 3, 4), the latitude comes from the primary and
    the longitude and the altitude from the alternate. *)
Lemma C5_counterexample :
  ResolvedCoordinates twoFixes = Some (fl 1, fl 3, Some (fl 4))
  /\ ResolvedCoordinates_asUnit twoFixes = Some (fl 1, zero, None)
  /\ ResolvedCoordinates twoFixes <> ResolvedCoordinates_asUnit twoFixes.
Proof. repeat split. discriminate. Qed.

(** ** Timestamps *)

Lemma digit_skips_no_space (c : ascii) (s : string) :
  isDigit c = true -> GoFmt.SkipSpace (String c s) = Some (String c s).
Proof.
  destruct c as [[] [] [] [] [] [] [] []]; try discriminate; intros _;
    destruct s as [|c2 [|c3 s3]]; reflexivity.
Qed.

Lemma digit_is_no_sign (c : ascii) :
  isDigit c = true -> (Ascii.eqb c "+" || Ascii.eqb c "-") = false.
Proof.
  destruct c as [[] [] [] [] [] [] [] []]; try discriminate; reflexivity.
Qed.

Lemma digit_is_number_byte (c : ascii) :
  isDigit c = true -> GoFmt.isNumberByte c = true.
Proof. intros H. exact H. Qed.

(** [scanNumber] reads the digits and stops before [rest]. *)
Lemma scanNumber_digits (ds rest : string) :
  forallb isDigit (list_ascii_of_string ds) = true ->
  endsNumber rest = true ->
  GoFmt.scanNumber (ds +:+ rest) = ds.
Proof.
  intros Hds Hrest. induction ds as [|c ds IH].
  - destruct rest as [|c rest]; [reflexivity|].
    change ("" +:+ String c rest) with (String c rest).
    cbn [GoFmt.scanNumber]. cbn [endsNumber] in Hrest.
    apply negb_true_iff in Hrest. unfold GoFmt.isNumberByte.
    now rewrite Hrest.
  - simpl in Hds. apply andb_prop in Hds as [Hc Hds].
    rewrite app_cons. cbn [GoFmt.scanNumber].
    rewrite (digit_is_number_byte _ Hc). now rewrite IH.
Qed.

Lemma parseDigits_value (ds : string) (acc : Z) :
  forallb isDigit (list_ascii_of_string ds) = true ->
  GoFmt.parseDigits ds acc =
    Some (fold_left (fun a c => 10 * a + Z.of_nat (nat_of_ascii c - 48))
            (list_ascii_of_string ds) acc).
Proof.
  revert acc. induction ds as [|c ds IH]; intros acc H; [reflexivity|].
  simpl in H. apply andb_prop in H as [Hc Hds]. simpl. rewrite Hc.
  now rewrite IH.
Qed.

Lemma fold_digits_nonneg (l : list ascii) (acc : Z) :
  0 <= acc ->
  0 <= fold_left (fun a c => 10 * a + Z.of_nat (nat_of_ascii c - 48)) l acc.
Proof.
  revert acc. induction l as [|c l IH]; intros acc H; [assumption|].
  simpl. apply IH. lia.
Qed.

(** A decimal string followed by bytes that cannot continue a number is
    read as its value when that fits 64 bits, and is an error otherwise;
    [rest] plays no part. *)
Lemma Sscanf_d_decimal (ds rest : string) :
  isDecimal ds = true -> endsNumber rest = true ->
  GoFmt.Sscanf_d (ds +:+ rest) =
    if decimalValue ds <=? GoFmt.maxInt64 then Ok (decimalValue ds)
    else Err (ErrOther "strconv.ParseInt: value out of range").
Proof.
  unfold isDecimal. intros H Hrest. apply andb_prop in H as [Hne Hds].
  destruct ds as [|c ds]; [discriminate|].
  assert (Hc : isDigit c = true) by (simpl in Hds; now apply andb_prop in Hds).
  unfold GoFmt.Sscanf_d. rewrite app_cons, (digit_skips_no_space _ _ Hc).
  rewrite (digit_is_no_sign _ Hc).
  assert (Hminus : Ascii.eqb c "-" = false).
  { pose proof (digit_is_no_sign _ Hc) as E.
    now apply orb_false_iff in E. }
  rewrite Hminus, <- app_cons, (scanNumber_digits _ _ Hds Hrest).
  rewrite (parseDigits_value _ _ Hds). fold (decimalValue (String c ds)).
  assert (0 <= decimalValue (String c ds))
    by (apply fold_digits_nonneg; lia).
  assert (Hmin : (GoFmt.minInt64 <=? decimalValue (String c ds)) = true)
    by (apply Z.leb_le; unfold GoFmt.minInt64; lia).
  rewrite Hmin. reflexivity.
Qed.

(** A string that is empty or starts with an ASCII byte that is no digit,
    no sign and no blank is refused. *)
Lemma Sscanf_d_unreadable (ts : string) :
  startsUnreadable ts = true -> is_Ok (GoFmt.Sscanf_d ts) = false.
Proof.
  destruct ts as [|c s]; [reflexivity|].
  destruct c as [[] [] [] [] [] [] [] []]; try discriminate; intros _;
    destruct s as [|c2 [|c3 s3]]; reflexivity.
Qed.

Lemma parseTimestamp_unreadable (ts : string) :
  startsUnreadable ts = true ->
  parseTimestamp ts = Err (Errorf ("invalid timestamp format: " +:+ ts)).
Proof.
  intros H. apply Sscanf_d_unreadable in H. unfold parseTimestamp.
  now destruct (GoFmt.Sscanf_d ts).
Qed.

Lemma SkipSpace_sign (c : ascii) (s : string) :
  (Ascii.eqb c "+" || Ascii.eqb c "-") = true ->
  GoFmt.SkipSpace (String c s) = Some (String c s).
Proof.
  destruct c as [[] [] [] [] [] [] [] []]; try discriminate; intros _;
    destruct s as [|c2 [|c3 s3]]; reflexivity.
Qed.

Lemma Sscanf_d_signed (c : ascii) (ds rest : string) :
  (Ascii.eqb c "+" || Ascii.eqb c "-") = true ->
  isDecimal ds = true -> endsNumber rest = true ->
  GoFmt.Sscanf_d (String c (ds +:+ rest)) =
    let v := if Ascii.eqb c "-" then - decimalValue ds else decimalValue ds in
    if (GoFmt.minInt64 <=? v) && (v <=? GoFmt.maxInt64) then Ok v
    else Err (ErrOther "strconv.ParseInt: value out of range").
Proof.
  unfold isDecimal. intros Hc H Hrest. apply andb_prop in H as [Hne Hds].
  unfold GoFmt.Sscanf_d. rewrite (SkipSpace_sign _ _ Hc), Hc.
  rewrite (scanNumber_digits _ _ Hds Hrest).
  destruct ds as [|d ds]; [discriminate|].
  rewrite (parseDigits_value _ _ Hds). reflexivity.
Qed.

Lemma SkipSpace_eq (c1 : ascii) (s1 : string) :
  GoFmt.SkipSpace (String c1 s1) =
    if GoFmt.byteIs c1 10 then None
    else if GoFmt.isSpace1 c1 then GoFmt.SkipSpace s1
    else match s1 with
         | String c2 s2 =>
             if GoFmt.isSpace2 c1 c2 then GoFmt.SkipSpace s2
             else match s2 with
                  | String c3 s3 =>
                      if GoFmt.isSpace3 c1 c2 c3 then GoFmt.SkipSpace s3
                      else Some (String c1 s1)
                  | EmptyString => Some (String c1 s1)
                  end
         | EmptyString => Some (String c1 s1)
         end.
Proof. reflexivity. Qed.

Lemma isSpace1_no_newline (c : ascii) :
  GoFmt.isSpace1 c = true -> GoFmt.byteIs c 10 = false.
Proof.
  unfold GoFmt.isSpace1, GoFmt.byteIs.
  destruct (Nat.eqb_spec (nat_of_ascii c) 10) as [->|]; [discriminate|].
  reflexivity.
Qed.

Lemma isSpace2_no_newline (c1 c2 : ascii) :
  GoFmt.isSpace2 c1 c2 = true -> GoFmt.byteIs c1 10 = false.
Proof.
  unfold GoFmt.isSpace2, GoFmt.byteIs.
  destruct (Nat.eqb_spec (nat_of_ascii c1) 10) as [->|]; [discriminate|].
  reflexivity.
Qed.

Lemma isSpace3_no_newline (c1 c2 c3 : ascii) :
  GoFmt.isSpace3 c1 c2 c3 = true -> GoFmt.byteIs c1 10 = false.
Proof.
  unfold GoFmt.isSpace3, GoFmt.byteIs.
  destruct (Nat.eqb_spec (nat_of_ascii c1) 10) as [->|]; [discriminate|].
  reflexivity.
Qed.

(** Blanks in front are skipped. *)
Lemma SkipSpace_blank_run (n : nat) :
  forall blanks t,
    (String.length blanks <= n)%nat ->
    isBlankRun blanks = true ->
    GoFmt.SkipSpace (blanks +:+ t) = GoFmt.SkipSpace t.
Proof.
  induction n as [|n IH]; intros blanks t Hlen Hb.
  - destruct blanks; [reflexivity|simpl in Hlen; lia].
  - destruct blanks as [|c1 s1]; [reflexivity|].
    rewrite app_cons, SkipSpace_eq. cbn [isBlankRun] in Hb.
    simpl in Hlen.
    destruct (GoFmt.isSpace1 c1) eqn:E1.
    + rewrite (isSpace1_no_newline _ E1). apply IH; [lia|exact Hb].
    + destruct s1 as [|c2 s2]; [discriminate|]. rewrite app_cons.
      simpl in Hlen.
      destruct (GoFmt.isSpace2 c1 c2) eqn:E2.
      * rewrite (isSpace2_no_newline _ _ E2). apply IH; [lia|exact Hb].
      * destruct s2 as [|c3 s3]; [discriminate|]. rewrite app_cons.
        simpl in Hlen. apply andb_prop in Hb as [E3 Hb].
        rewrite (isSpace3_no_newline _ _ _ E3), E3.
        apply IH; [lia|exact Hb].
Qed.

(** What is skipped is a run of blanks. *)
Lemma SkipSpace_split (n : nat) :
  forall ts t,
    (String.length ts <= n)%nat ->
    GoFmt.SkipSpace ts = Some t ->
    exists blanks, ts = blanks +:+ t /\ isBlankRun blanks = true.
Proof.
  induction n as [|n IH]; intros ts t Hlen H.
  - destruct ts; [|simpl in Hlen; lia]. injection H as <-. now exists "".
  - destruct ts as [|c1 s1]; [injection H as <-; now exists ""|].
    rewrite SkipSpace_eq in H. simpl in Hlen.
    destruct (GoFmt.byteIs c1 10); [discriminate|].
    destruct (GoFmt.isSpace1 c1) eqn:E1.
    { destruct (IH s1 t ltac:(lia) H) as (b & -> & Hb).
      exists (String c1 b). split; [now rewrite app_cons|].
      cbn [isBlankRun]. now rewrite E1. }
    destruct s1 as [|c2 s2]; [injection H as <-; now exists ""|].
    simpl in Hlen.
    destruct (GoFmt.isSpace2 c1 c2) eqn:E2.
    { destruct (IH s2 t ltac:(lia) H) as (b & -> & Hb).
      exists (String c1 (String c2 b)). split; [now rewrite !app_cons|].
      cbn [isBlankRun]. now rewrite E1, E2. }
    destruct s2 as [|c3 s3]; [injection H as <-; now exists ""|].
    simpl in Hlen.
    destruct (GoFmt.isSpace3 c1 c2 c3) eqn:E3.
    { destruct (IH s3 t ltac:(lia) H) as (b & -> & Hb).
      exists (String c1 (String c2 (String c3 b))).
      split; [now rewrite !app_cons|].
      cbn [isBlankRun]. now rewrite E1, E2, E3. }
    injection H as <-. now exists "".
Qed.

(** The token of [scanNumber] is the run of digits at the head. *)
Lemma scanNumber_split (s : string) :
  exists rest,
    s = GoFmt.scanNumber s +:+ rest
    /\ forallb isDigit (list_ascii_of_string (GoFmt.scanNumber s)) = true
    /\ endsNumber rest = true.
Proof.
  induction s as [|c s IH].
  - now exists "".
  - cbn [GoFmt.scanNumber]. unfold GoFmt.isNumberByte.
    destruct (isDigit c) eqn:E.
    + destruct IH as (rest & H1 & H2 & H3). exists rest.
      split; [now rewrite app_cons, <- H1|].
      split; [|exact H3]. cbn [list_ascii_of_string forallb].
      now rewrite E, H2.
    + exists (String c s). split; [reflexivity|]. split; [reflexivity|].
      cbn [endsNumber]. now rewrite E.
Qed.

(** [Sscanf] on a string of the form that is read. *)
Lemma Sscanf_d_readable (blanks sgn ds rest : string) :
  isBlankRun blanks = true -> isSignString sgn = true ->
  isDecimal ds = true -> endsNumber rest = true ->
  GoFmt.Sscanf_d (blanks +:+ sgn +:+ ds +:+ rest) =
    if fits64 (signedValue sgn ds) then Ok (signedValue sgn ds)
    else Err (ErrOther "strconv.ParseInt: value out of range").
Proof.
  intros Hb Hs Hd Hr.
  assert (E : GoFmt.Sscanf_d (blanks +:+ sgn +:+ ds +:+ rest) =
              GoFmt.Sscanf_d (sgn +:+ ds +:+ rest)).
  { unfold GoFmt.Sscanf_d.
    now rewrite (SkipSpace_blank_run _ blanks _ (Nat.le_refl _) Hb). }
  rewrite E. unfold isSignString in Hs.
  assert (H0 : 0 <= decimalValue ds) by (apply fold_digits_nonneg; lia).
  destruct (String.eqb_spec sgn "") as [->|_].
  - change ("" +:+ ds +:+ rest) with (ds +:+ rest).
    rewrite (Sscanf_d_decimal _ _ Hd Hr). unfold signedValue, fits64.
    cbn [String.eqb]. change (2 ^ 63 - 1) with GoFmt.maxInt64.
    assert (E1 : (- 2 ^ 63 <=? decimalValue ds) = true)
      by (apply Z.leb_le; lia).
    now rewrite E1.
  - destruct (String.eqb_spec sgn "+") as [->|_];
      [|destruct (String.eqb_spec sgn "-") as [->|_]; [|discriminate]].
    + change ("+" +:+ ds +:+ rest) with (String "+" (ds +:+ rest)).
      rewrite (Sscanf_d_signed "+" _ _ eq_refl Hd Hr). reflexivity.
    + change ("-" +:+ ds +:+ rest) with (String "-" (ds +:+ rest)).
      rewrite (Sscanf_d_signed "-" _ _ eq_refl Hd Hr). reflexivity.
Qed.

(** A string that [Sscanf] reads has that form. *)
Lemma Sscanf_d_Ok_readable (ts : string) (v : Z) :
  GoFmt.Sscanf_d ts = Ok v ->
  exists blanks sgn ds rest,
    readable ts blanks sgn ds rest
    /\ v = signedValue sgn ds
    /\ fits64 v = true.
Proof.
  unfold GoFmt.Sscanf_d. intros H.
  destruct (GoFmt.SkipSpace ts) as [[|c r]|] eqn:Es; try discriminate.
  destruct (SkipSpace_split _ ts _ (Nat.le_refl _) Es) as (blanks & -> & Hb).
  set (body := if Ascii.eqb c "+" || Ascii.eqb c "-" then r else String c r)
    in *.
  destruct (scanNumber_split body) as (rest & Hbody & Hds & Hr).
  destruct (GoFmt.scanNumber body) as [|d tok] eqn:Et; [discriminate|].
  rewrite (parseDigits_value _ _ Hds) in H.
  fold (decimalValue (String d tok)) in H.
  assert (Hd : isDecimal (String d tok) = true)
    by (unfold isDecimal; now rewrite Hds).
  set (n := decimalValue (String d tok)) in *.
  destruct ((GoFmt.minInt64 <=? (if Ascii.eqb c "-" then - n else n))
            && ((if Ascii.eqb c "-" then - n else n) <=? GoFmt.maxInt64))
    eqn:Hfit; [|discriminate].
  injection H as <-.
  destruct (Ascii.eqb c "+") eqn:Ep; [|destruct (Ascii.eqb c "-") eqn:Em].
  - apply Ascii.eqb_eq in Ep. subst c. cbn [orb] in body. subst body.
    exists blanks, "+", (String d tok), rest.
    split; [|split; [reflexivity|exact Hfit]].
    split; [now rewrite Hbody|]. now repeat split.
  - apply Ascii.eqb_eq in Em. subst c. cbn [orb] in body. subst body.
    exists blanks, "-", (String d tok), rest.
    split; [|split; [reflexivity|exact Hfit]].
    split; [now rewrite Hbody|]. now repeat split.
  - cbn [orb] in body. subst body.
    exists blanks, "", (String d tok), rest.
    split; [|split; [reflexivity|exact Hfit]].
    split; [now rewrite Hbody|]. now repeat split.
Qed.

(** C6, as the code has it.  [GetPhotoTime] reads the photo-taken time
    when that string is not empty, else the creation time when that is not
    empty, else fails; the modification time plays no part.  The selected
    string is read by [Sscanf] with [%d]: a decimal number that fits 64 bits
    is accepted, whatever follows it, and its value names the instant; a
    string that is empty or starts with an ASCII byte that is no digit, no
    sign and no blank is refused, and the failure is that of
    [GetPhotoTime], without falling back to the other field.  In full: a
    string made of blanks, a sign or none, decimal digits and then anything
    that does not go on with a digit is read as the signed number when that
    fits 64 bits and is refused when it does not; every string that is not
    of this form is refused. *)
Theorem C6_photo_time_selection (m : Metadata) :
  (nonEmpty (photoTakenTs m) = true ->
   GetPhotoTime m = parseTimestamp (photoTakenTs m))
  /\ (photoTakenTs m = "" -> nonEmpty (creationTs m) = true ->
      GetPhotoTime m = parseTimestamp (creationTs m))
  /\ (photoTakenTs m = "" -> creationTs m = "" ->
      GetPhotoTime m = Err (Errorf "no valid timestamp found in metadata"))
  /\ (forall v, GetPhotoTime (set_ModificationTime v m) = GetPhotoTime m)
  /\ (forall ds rest,
        isDecimal ds = true -> endsNumber rest = true ->
        decimalValue ds <= GoFmt.maxInt64 ->
        parseTimestamp (ds +:+ rest) = Ok (GoTime.Unix (decimalValue ds)))
  /\ (forall ts,
        startsUnreadable ts = true ->
        parseTimestamp ts =
          Err (Errorf ("invalid timestamp format: " +:+ ts)))
  /\ (forall blanks sgn ds rest,
        isBlankRun blanks = true -> isSignString sgn = true ->
        isDecimal ds = true -> endsNumber rest = true ->
        parseTimestamp (blanks +:+ sgn +:+ ds +:+ rest) =
          if fits64 (signedValue sgn ds)
          then Ok (GoTime.Unix (signedValue sgn ds))
          else Err (Errorf ("invalid timestamp format: "
                              +:+ blanks +:+ sgn +:+ ds +:+ rest)))
  /\ (forall ts,
        parseTimestamp ts = Err (Errorf ("invalid timestamp format: " +:+ ts))
        \/ exists blanks sgn ds rest,
             readable ts blanks sgn ds rest
             /\ fits64 (signedValue sgn ds) = true
             /\ parseTimestamp ts = Ok (GoTime.Unix (signedValue sgn ds))).
Proof.
  unfold GetPhotoTime, photoTakenTs, creationTs. repeat split.
  - now intros ->.
  - intros H1 H2. now rewrite H1, H2.
  - intros H1 H2. now rewrite H1, H2.
  - intros ds rest Hd Hr Hle. unfold parseTimestamp.
    rewrite (Sscanf_d_decimal _ _ Hd Hr).
    apply Z.leb_le in Hle. now rewrite Hle.
  - apply parseTimestamp_unreadable.
  - intros blanks sgn ds rest Hb Hs Hd Hr. unfold parseTimestamp.
    rewrite (Sscanf_d_readable _ _ _ _ Hb Hs Hd Hr).
    now destruct (fits64 (signedValue sgn ds)).
  - intros ts. unfold parseTimestamp.
    destruct (GoFmt.Sscanf_d ts) as [v|e] eqn:E; [right|now left].
    destruct (Sscanf_d_Ok_readable _ _ E)
      as (blanks & sgn & ds & rest & Hform & -> & Hfit).
    now exists blanks, sgn, ds, rest.
Qed.

(** C6 as stated fails for a string that starts with a number: the
    photo-taken time [12abc] is no decimal string, and [GetPhotoTime]
    answers the instant 12 seconds after the epoch. *)
Lemma C6_counterexample :
  let m := takenAt "12abc" in
  nonEmpty (photoTakenTs m) = true
  /\ isDecimal (photoTakenTs m) = false
  /\ GetPhotoTime m = Ok (GoTime.Unix 12)
  /\ ~ nonDecimalIsFatal.
Proof.
  intros m. repeat split. intros H. destruct (H m) as [H1 _].
  specialize (H1 eq_refl eq_refl). discriminate.
Qed.

(** Strings that are read and strings that are refused: digits followed by
    an underscore are read up to it; a sign without digits, a sign followed
    by letters and a blank followed by a letter are refused, and so is a
    number after a newline. *)
Example timestamps_read_and_refused :
  parseTimestamp "12_" = Ok (GoTime.Unix 12)
  /\ parseTimestamp "1_000" = Ok (GoTime.Unix 1)
  /\ parseTimestamp " -5 BC" = Ok (GoTime.Unix (- 5))
  /\ parseTimestamp "-abc" = Err (Errorf "invalid timestamp format: -abc")
  /\ parseTimestamp "+" = Err (Errorf "invalid timestamp format: +")
  /\ parseTimestamp " x" = Err (Errorf "invalid timestamp format:  x")
  /\ is_Ok (parseTimestamp (nl_then_number)) = false.
Proof. repeat split. Qed.

(** ** One unit of work *)

(** The resolver only probes: it leaves the processor and the output as
    they are. *)
Lemma checkSupplementalData_probes (w : World) (mediaPath : string)
    (s : State) :
  exists ps, snd (checkSupplementalData w mediaPath s) = probed s ps.
Proof.
  destruct (Stat w (extSwap (goos w) mediaPath)) as [info|e] eqn:E.
  - rewrite (checkSupplementalData_step1 _ _ _ _ E). now eexists.
  - rewrite (checkSupplementalData_after_step1 _ _ _ _ E).
    destruct (normalize mediaPath) as [mtch newMediaPath].
    rewrite statLoop_spec.
    match goal with
    | |- context [match snd ?r with _ => _ end] => destruct (snd r)
    end.
    + rewrite probed_probed. now eexists.
    + rewrite statLoop_spec, !probed_probed. now eexists.
Qed.

Lemma checkSupplementalData_Proc (w : World) (mediaPath : string)
    (s s1 : State) r :
  checkSupplementalData w mediaPath s = (r, s1) ->
  Proc s1 = Proc s /\ Stdout s1 = Stdout s.
Proof.
  intros H. destruct (checkSupplementalData_probes w mediaPath s) as [ps E].
  rewrite H in E. simpl in E. subst s1. now split.
Qed.

(** A unit whose resolution ends in not-found: nothing is counted. *)
Lemma processMediaFile_not_found (w : World) (mediaPath : string)
    (s s1 : State) (jsonPath : string) (e : error) :
  checkSupplementalData w mediaPath s = ((jsonPath, Err e), s1) ->
  IsNotExist e = true ->
  fst (processMediaFile w mediaPath s) = false
  /\ stats (Proc (snd (processMediaFile w mediaPath s))) = stats (Proc s)
  /\ deletedFiles (Proc (snd (processMediaFile w mediaPath s))) =
       deletedFiles (Proc s).
Proof.
  intros H He. destruct (checkSupplementalData_Proc _ _ _ _ _ H) as [HP _].
  unfold processMediaFile, processor.bind. rewrite H.
  cbn [fst snd getProc]. rewrite He. rewrite <- HP.
  destruct (verbose (Proc s1)); cbn; repeat split.
Qed.

(** C7, what the code does.  When resolution ends in not-found the unit
    returns [false] and every counter keeps its value: the error counter is
    not incremented, and neither is [SkippedFiles]. *)
Theorem C7_not_found_changes_no_counter (w : World) (mediaPath : string)
    (s s1 : State) (jsonPath : string) (e : error) :
  checkSupplementalData w mediaPath s = ((jsonPath, Err e), s1) ->
  IsNotExist e = true ->
  let s' := snd (processMediaFile w mediaPath s) in
  fst (processMediaFile w mediaPath s) = false
  /\ ErrorCount (stats (Proc s')) = ErrorCount (stats (Proc s))
  /\ SkippedFiles (stats (Proc s')) = SkippedFiles (stats (Proc s)).
Proof.
  intros H He s'. subst s'.
  destruct (processMediaFile_not_found _ _ _ _ _ _ H He) as (Hr & Hst & _).
  now rewrite Hr, Hst.
Qed.

(** A photo without any sidecar, on a fresh run: the resolver tries its
    45 paths, the unit is given up, and [SkippedFiles] is still 0. *)
Lemma C7_witness :
  let w := exampleWorld Windows [] [] in
  let s := freshState "C:\Takeout" in
  let s' := snd (processMediaFile w "C:\Takeout\a.jpg" s) in
  fst (processMediaFile w "C:\Takeout\a.jpg" s) = false
  /\ ErrorCount (stats (Proc s')) = ErrorCount (stats (Proc s))
  /\ SkippedFiles (stats (Proc s')) = SkippedFiles (stats (Proc s)).
Proof.
  apply (C7_not_found_changes_no_counter
           (exampleWorld Windows [] []) "C:\Takeout\a.jpg"
           (freshState "C:\Takeout")
           (snd (checkSupplementalData (exampleWorld Windows [] [])
                   "C:\Takeout\a.jpg" (freshState "C:\Takeout")))
           "C:\Takeout\a.jpg.s.json"
           (ErrNotExist "C:\Takeout\a.jpg.s.json"));
    vm_compute; reflexivity.
Defined.

(** The same unit, evaluated: [SkippedFiles] is 0 after it. *)
Example not_found_unit_skipped_is_zero :
  let run := processMediaFile (exampleWorld Windows [] [])
               "C:\Takeout\a.jpg" (freshState "C:\Takeout") in
  fst run = false
  /\ stats (Proc (snd run)) = zeroStats
  /\ length (Probes (snd run)) = 45%nat.
Proof. vm_compute. repeat split. Qed.

(** The unit once the sidecar is found, is a file and decodes. *)
Lemma processMediaFile_decoded (w : World) (mediaPath : string)
    (s s1 : State) (jsonPath : string) (info : FileInfo) (meta : Metadata) :
  checkSupplementalData w mediaPath s = ((jsonPath, Ok info), s1) ->
  IsDir info = false ->
  ParseJSON w jsonPath = Ok meta ->
  processMediaFile w mediaPath s =
    (modifyStats incJSONFiles ;;
     if dryRun (Proc s) then
       printf "[DRY-RUN] Would apply metadata to: %s\n" [AString mediaPath] ;;
       when (verbose (Proc s))
         (printf "          Metadata: %+v\n" [AMetadata meta] ;;
          printf "          Would delete: %s\n" [AString jsonPath]) ;;
       modifyStats incProcessedFiles ;;
       modifyStats
         (addModified ("  " +:+ Base w mediaPath +:+ " (would be modified)")) ;;
       ret true
     else
       match ApplyToFile w mediaPath meta with
       | Err err =>
           modifyStats incErrorCount ;;
           printf "[ERROR] Failed to apply metadata to %s: %v\n"
             [AString mediaPath; AError err] ;;
           ret false
       | Ok result =>
           modifyStats incProcessedFiles ;;
           (if Modified result then
              let detail := "  " +:+ Details result in
              let detail :=
                if nonEmpty (NewData result)
                then detail +:+ nl +:+ "    Modified: " +:+ NewData result
                else detail in
              modifyStats (addModified detail) ;;
              printf "[OK] Metadata modified: %s\n" [AString mediaPath] ;;
              when (verbose (Proc s) && nonEmpty (ExistingData result))
                (printf "    Previous: %s\n" [AString (ExistingData result)] ;;
                 printf "    Updated:  %s\n" [AString (NewData result)])
            else
              let detail := "  " +:+ Details result in
              let detail :=
                if nonEmpty (ExistingData result)
                then detail +:+ nl +:+ "    Verified: "
                       +:+ ExistingData result
                else detail in
              modifyStats (addUnmodified detail) ;;
              printf "[SKIP] Already up-to-date: %s\n" [AString mediaPath] ;;
              when (verbose (Proc s) && nonEmpty (ExistingData result))
                (printf "    Verified: %s\n"
                   [AString (ExistingData result)])) ;;
           match Remove w jsonPath with
           | Some err =>
               printf
                 "[WARN] Failed to delete supplemental metadata file %s: %v\n"
                 [AString jsonPath; AError err]
           | None =>
               modifyDeleted (fun d => <[jsonPath := true]> d) ;;
               when (verbose (Proc s))
                 (printf "    Deleted: %s\n" [AString jsonPath])
           end ;;
           ret true
       end)%go s1.
Proof.
  intros H Hdir Hparse.
  destruct (checkSupplementalData_Proc _ _ _ _ _ H) as [HP _].
  unfold processMediaFile. unfold processor.bind at 1. rewrite H.
  unfold processor.bind at 1. cbn [getProc fst snd].
  rewrite Hdir, Hparse, HP. reflexivity.
Qed.

(** C8.  Once the metadata has been applied (not a dry run, the applier
    returned without error), the unit returns [true], the error counter
    keeps its value, [ProcessedFiles] and one of [ModifiedFiles] and
    [UnmodifiedFiles] are incremented; then, if deleting the sidecar fails,
    the warning is the last line written and the set of deleted files is
    unchanged; if it succeeds, the sidecar path is added to that set. *)
Theorem C8_failed_cleanup_is_only_a_warning (w : World) (mediaPath : string)
    (s s1 : State) (jsonPath : string) (info : FileInfo) (meta : Metadata)
    (res : ApplyResult) :
  checkSupplementalData w mediaPath s = ((jsonPath, Ok info), s1) ->
  IsDir info = false ->
  ParseJSON w jsonPath = Ok meta ->
  dryRun (Proc s) = false ->
  ApplyToFile w mediaPath meta = Ok res ->
  let run := processMediaFile w mediaPath s in
  let st := stats (Proc s) in
  let st' := stats (Proc (snd run)) in
  fst run = true
  /\ ErrorCount st' = ErrorCount st
  /\ ProcessedFiles st' = incr (ProcessedFiles st)
  /\ (if Modified res
      then ModifiedFiles st' = incr (ModifiedFiles st)
           /\ UnmodifiedFiles st' = UnmodifiedFiles st
      else UnmodifiedFiles st' = incr (UnmodifiedFiles st)
           /\ ModifiedFiles st' = ModifiedFiles st)
  /\ match Remove w jsonPath with
     | Some err =>
         List.last (Stdout (snd run)) (Printf "" []) = warnLine jsonPath err
         /\ deletedFiles (Proc (snd run)) = deletedFiles (Proc s)
     | None =>
         deletedFiles (Proc (snd run)) =
           <[jsonPath := true]> (deletedFiles (Proc s))
     end.
Proof.
  intros H Hdir Hparse Hdry Happly run st st'. subst run st st'.
  destruct (checkSupplementalData_Proc _ _ _ _ _ H) as [HP _].
  rewrite (processMediaFile_decoded _ _ _ _ _ _ _ H Hdir Hparse).
  rewrite Hdry, Happly, <- HP.
  unit_cases w s1 jsonPath res; rewrite ?List.last_last; repeat split.
Qed.

Lemma C8_witness :
  let w := exampleWorld Windows [("C:\Takeout\photo.json", "1609459200")]
             ["C:\Takeout\photo.json"] in
  let s := freshState "C:\Takeout" in
  let run := processMediaFile w "C:\Takeout\photo.jpg" s in
  Remove w "C:\Takeout\photo.json" = Some (ErrOther "access is denied")
  /\ fst run = true
  /\ ErrorCount (stats (Proc (snd run))) = 0
  /\ ProcessedFiles (stats (Proc (snd run))) = 1
  /\ ModifiedFiles (stats (Proc (snd run))) = 1
  /\ List.last (Stdout (snd run)) (Printf "" []) =
       warnLine "C:\Takeout\photo.json" (ErrOther "access is denied")
  /\ deletedFiles (Proc (snd run)) = ∅.
Proof.
  pose proof (C8_failed_cleanup_is_only_a_warning
                (exampleWorld Windows
                   [("C:\Takeout\photo.json", "1609459200")]
                   ["C:\Takeout\photo.json"])
                "C:\Takeout\photo.jpg" (freshState "C:\Takeout")
                (probed (freshState "C:\Takeout") ["C:\Takeout\photo.json"])
                "C:\Takeout\photo.json" {| IsDir := false |}
                (takenAt "1609459200")
                {| Modified := true; Details := "photo.jpg";
                   ExistingData := ""; NewData := "DateTime" |}
                eq_refl eq_refl eq_refl eq_refl eq_refl)
    as (H1 & H2 & H3 & (H4 & _) & H5 & H6).
  repeat split; assumption.
Defined.

(** ** Supplemental layers *)

Lemma mergeLayer_layer (w : World) (meta : Metadata) (path : string) :
  mergeLayer w meta path = mergeLayers meta [layer w path].
Proof.
  unfold mergeLayer, layer, mergeLayers, parseSupplementalJSON. simpl.
  destruct (Stat w path); [|reflexivity].
  destruct (ReadFile w path) as [data|]; [|reflexivity].
  destruct (Unmarshal w (stripBOM data)); reflexivity.
Qed.

Lemma ParseJSON_layers (w : World) (jsonPath data : string)
    (meta : Metadata) :
  ReadFile w jsonPath = Ok data ->
  Unmarshal w (stripBOM data) = Ok meta ->
  ParseJSON w jsonPath =
    Ok (mergeLayers meta
          [layer w (globalPath w jsonPath); layer w (perFilePath w jsonPath)]).
Proof.
  intros Hr Hu. unfold ParseJSON. rewrite Hr, Hu.
  fold (globalPath w jsonPath). fold (perFilePath w jsonPath).
  now rewrite !mergeLayer_layer.
Qed.

(** The error counter after a unit whose sidecar decodes, when the run is
    a dry run or the applier returns without error. *)
Lemma processMediaFile_no_error (w : World) (mediaPath : string)
    (s s1 : State) (jsonPath : string) (info : FileInfo) (meta : Metadata) :
  checkSupplementalData w mediaPath s = ((jsonPath, Ok info), s1) ->
  IsDir info = false ->
  ParseJSON w jsonPath = Ok meta ->
  dryRun (Proc s) = true \/ is_Ok (ApplyToFile w mediaPath meta) = true ->
  fst (processMediaFile w mediaPath s) = true
  /\ ErrorCount (stats (Proc (snd (processMediaFile w mediaPath s)))) =
       ErrorCount (stats (Proc s)).
Proof.
  intros H Hdir Hparse Hor.
  destruct (checkSupplementalData_Proc _ _ _ _ _ H) as [HP _].
  rewrite (processMediaFile_decoded _ _ _ _ _ _ _ H Hdir Hparse).
  rewrite <- HP.
  destruct (dryRun (Proc s1)) eqn:Hdry.
  - destruct (verbose (Proc s1)); cbn; now split.
  - destruct Hor as [Hc|Hok]; [rewrite HP, Hc in Hdry; discriminate|].
    destruct (ApplyToFile w mediaPath meta) as [res|]; [|discriminate].
    unit_cases w s1 jsonPath res; now split.
Qed.

(** C10.  When the primary sidecar decodes, [ParseJSON] succeeds whatever
    the supplemental sidecars hold: its record is the primary merged with
    the global layer and then the per-file layer, where a supplemental file
    that is there but cannot be read or does not decode contributes
    nothing.  No error comes out of it: the unit goes on and, in a dry run
    or when the applier succeeds, the error counter keeps its value. *)
Theorem C10_malformed_supplemental_is_skipped (w : World)
    (jsonPath data : string) (meta : Metadata) :
  ReadFile w jsonPath = Ok data ->
  Unmarshal w (stripBOM data) = Ok meta ->
  let merged :=
    mergeLayers meta
      [layer w (globalPath w jsonPath); layer w (perFilePath w jsonPath)] in
  ParseJSON w jsonPath = Ok merged
  /\ (forall path d e,
        ReadFile w path = Ok d -> Unmarshal w (stripBOM d) = Err e ->
        layer w path = None)
  /\ (layer w (globalPath w jsonPath) = None ->
      layer w (perFilePath w jsonPath) = None -> merged = meta)
  /\ (forall mediaPath s s1 info,
        checkSupplementalData w mediaPath s = ((jsonPath, Ok info), s1) ->
        IsDir info = false ->
        dryRun (Proc s) = true
        \/ is_Ok (ApplyToFile w mediaPath merged) = true ->
        ErrorCount (stats (Proc (snd (processMediaFile w mediaPath s)))) =
          ErrorCount (stats (Proc s))).
Proof.
  intros Hr Hu merged. subst merged.
  pose proof (ParseJSON_layers _ _ _ _ Hr Hu) as HP.
  split; [exact HP|]. split; [|split].
  - intros path d e Hd He. unfold layer. rewrite Hd, He.
    now destruct (Stat w path).
  - intros -> ->. reflexivity.
  - intros mediaPath s s1 info Hc Hdir Hor.
    now destruct (processMediaFile_no_error _ _ _ _ _ _ _ Hc Hdir HP Hor).
Qed.

(** A photo whose folder holds a malformed global supplemental sidecar:
    the record is the primary's. *)
Lemma C10_witness :
  let w := exampleWorld Windows
             [("C:\Takeout\photo.json", "1609459200");
              ("C:\Takeout\supplemental-metadata.json", "{oops")] [] in
  is_Ok (Stat w (globalPath w "C:\Takeout\photo.json")) = true
  /\ is_Ok (parseSupplementalJSON w (globalPath w "C:\Takeout\photo.json"))
     = false
  /\ ParseJSON w "C:\Takeout\photo.json" = Ok (takenAt "1609459200").
Proof.
  split; [reflexivity|]. split; [reflexivity|].
  exact (proj1 (C10_malformed_supplemental_is_skipped
                  (exampleWorld Windows
                     [("C:\Takeout\photo.json", "1609459200");
                      ("C:\Takeout\supplemental-metadata.json", "{oops")] [])
                  "C:\Takeout\photo.json" "1609459200"
                  (takenAt "1609459200") eq_refl eq_refl)).
Defined.

(** ** Supported extensions and the dispatch of [ApplyToFile] *)

Lemma mapIndex_true (l : list (string * bool)) (k : string) :
  mapIndex (list_to_map l) k = true -> (k, true) ∈ l.
Proof.
  unfold mapIndex. intros H.
  destruct (list_to_map l !! k) as [b|] eqn:E; [|discriminate].
  simpl in H. subst b. now apply elem_of_list_to_map_2 in E.
Qed.

(** Every extension the scanner accepts, other than [.dng], is one the
    applier dispatches to the image or the video branch. *)
Lemma supported_dispatch (os : GOOS) (path : string) :
  isSupportedMediaFile os path = true ->
  ToLower (Ext os path) <> ".dng" ->
  dispatch os path <> Unsupported.
Proof.
  unfold isSupportedMediaFile, dispatch, isImageFile, isVideoFile.
  set (ext := ToLower (Ext os path)). intros H Hdng.
  destruct (mapIndex supportedImageExts ext) eqn:Ei.
  - apply mapIndex_true in Ei.
    repeat (apply elem_of_cons in Ei as [[= Ei]|Ei];
            [rewrite Ei in *; try discriminate; try contradiction|]).
    now apply elem_of_nil in Ei.
  - destruct (mapIndex supportedVideoExts ext) eqn:Ev; [|discriminate].
    apply mapIndex_true in Ev.
    repeat (apply elem_of_cons in Ev as [[= Ev]|Ev];
            [rewrite Ev in *; try discriminate; try contradiction|]).
    now apply elem_of_nil in Ev.
Qed.

(** C9, where the code departs from it.  A [.dng] file is accepted by
    [isSupportedMediaFile], and [ApplyToFile] takes neither the image nor
    the video branch for it: it returns the unsupported-type error. *)
Theorem C9_dng_reaches_unsupported_branch (w : World) (meta : Metadata) :
  isSupportedMediaFile (goos w) "C:\Takeout\IMG_0001.dng" = true
  /\ dispatch (goos w) "C:\Takeout\IMG_0001.dng" = Unsupported
  /\ ApplyToFile w "C:\Takeout\IMG_0001.dng" meta =
       Err (Errorf "unsupported media file type: .dng").
Proof.
  unfold ApplyToFile. destruct (goos w); repeat split.
Qed.

(** The unit of a [.dng] photo with a sidecar: an error is counted. *)
Example dng_unit_counts_an_error :
  let w := exampleWorld Windows
             [("C:\Takeout\IMG_0001.json", "1609459200")] [] in
  let run := processMediaFile w "C:\Takeout\IMG_0001.dng"
               (freshState "C:\Takeout") in
  fst run = false /\ ErrorCount (stats (Proc (snd run))) = 1.
Proof. split; reflexivity. Qed.

(** ** The duplicate marker *)

Lemma app_empty_l (s : string) : "" +:+ s = s.
Proof. reflexivity. Qed.

Lemma digitsThenClose_run (ds post : string) (seen : bool) :
  forallb isDigit (list_ascii_of_string ds) = true ->
  seen = true \/ ds <> "" ->
  digitsThenClose (ds +:+ ")" +:+ post) seen = Some (S (String.length ds)).
Proof.
  revert seen. induction ds as [|c ds IH]; intros seen Hd Hs.
  - destruct Hs as [->|Hs]; [reflexivity|congruence].
  - simpl in Hd. apply andb_prop in Hd as [Hc Hd].
    rewrite app_cons. simpl. rewrite Hc, IH by auto. reflexivity.
Qed.

Lemma digitsThenClose_inv (s : string) (seen : bool) (n : nat) :
  digitsThenClose s seen = Some n ->
  exists ds post,
    s = ds +:+ ")" +:+ post
    /\ forallb isDigit (list_ascii_of_string ds) = true
    /\ n = S (String.length ds)
    /\ (seen = true \/ ds <> "").
Proof.
  revert seen n. induction s as [|c s IH]; intros seen n H; [discriminate|].
  simpl in H. destruct (isDigit c) eqn:Hc.
  - destruct (digitsThenClose s true) as [k|] eqn:E; [|discriminate].
    injection H as <-. destruct (IH _ _ E) as (ds & post & -> & Hd & -> & _).
    exists (String c ds), post. repeat split.
    + simpl. now rewrite Hc, Hd.
    + right. discriminate.
  - destruct (Ascii.eqb_spec c ")") as [->|]; [|discriminate].
    destruct seen; [|discriminate]. injection H as <-.
    exists "", s. repeat split. now left.
Qed.

Lemma open_app (s : string) : "(" +:+ s = String "(" s.
Proof. reflexivity. Qed.

Lemma slice_to_run (ds post : string) :
  slice_to (ds +:+ ")" +:+ post) (S (String.length ds)) = ds +:+ ")".
Proof.
  induction ds as [|c ds IH]; [now destruct post|].
  rewrite !(app_cons c ds). cbn [slice_to String.length]. now rewrite IH.
Qed.

Lemma matchAt_run (m post : string) :
  isRun m -> matchAt (m +:+ post) = Some m.
Proof.
  intros (ds & Hd & ->). unfold isDecimal in Hd.
  apply andb_prop in Hd as [Hne Hd]. apply nonEmpty_true in Hne.
  rewrite open_app, app_cons, app_assoc'. unfold matchAt.
  rewrite Ascii.eqb_refl, (digitsThenClose_run _ _ _ Hd) by auto.
  cbn [slice_to]. now rewrite slice_to_run.
Qed.

Lemma matchAt_inv (s m : string) :
  matchAt s = Some m -> isRun m /\ exists post, s = m +:+ post.
Proof.
  unfold matchAt. destruct s as [|c s]; [discriminate|].
  destruct (Ascii.eqb_spec c "(") as [->|]; [|discriminate].
  destruct (digitsThenClose s false) as [n|] eqn:E; [|discriminate].
  intros [= <-].
  destruct (digitsThenClose_inv _ _ _ E) as (ds & post & -> & Hd & -> & Hs).
  cbn [slice_to]. rewrite slice_to_run, <- open_app. split.
  - exists ds. split; [|reflexivity]. unfold isDecimal. rewrite Hd.
    destruct Hs as [|Hs]; [discriminate|].
    apply nonEmpty_true in Hs. now rewrite Hs.
  - exists post.
    now rewrite open_app, (app_cons "(" (ds +:+ ")") post), app_assoc'.
Qed.

(** Bytes that open no parenthesis are passed over alike by a scan that
    skips them and by one that looks at them. *)
Lemma scan_skip (t u : string) :
  forallb notOpen (list_ascii_of_string t) = true ->
  scan (String.length t) (t +:+ u) = scan 0 u
  /\ scan 0 (t +:+ u) = scan 0 u.
Proof.
  induction t as [|c t IH]; intros H; [now split|].
  simpl in H. apply andb_prop in H as [Hc Ht].
  destruct (IH Ht) as [IH1 IH2]. rewrite app_cons. split.
  - exact IH1.
  - unfold notOpen in Hc. apply negb_true_iff in Hc.
    cbn [scan]. unfold matchAt. now rewrite Hc.
Qed.

Lemma digit_notOpen (ds : string) :
  forallb isDigit (list_ascii_of_string ds) = true ->
  forallb notOpen (list_ascii_of_string (ds +:+ ")")) = true.
Proof.
  induction ds as [|c ds IH]; intros H; [reflexivity|].
  simpl in H. apply andb_prop in H as [Hc Hd]. rewrite app_cons. simpl.
  rewrite (IH Hd), andb_true_r. unfold notOpen.
  destruct (Ascii.eqb_spec c "(") as [->|]; [discriminate|reflexivity].
Qed.

(** The matches of [s] are the match at its head, if any, followed by the
    matches of its tail: two runs never overlap. *)
Lemma scan_cons (c : ascii) (s : string) :
  scan 0 (String c s) =
    match matchAt (String c s) with
    | Some m => m :: scan 0 s
    | None => scan 0 s
    end.
Proof.
  cbn [scan]. destruct (matchAt (String c s)) as [m|] eqn:E; [|reflexivity].
  f_equal. destruct (matchAt_inv _ _ E) as [(ds & Hd & ->) [post Hs]].
  rewrite open_app, app_cons in Hs. injection Hs as -> ->.
  unfold isDecimal in Hd. apply andb_prop in Hd as [_ Hd].
  destruct (scan_skip (ds +:+ ")") post (digit_notOpen _ Hd)) as [H1 H2].
  replace (String.length ("(" +:+ ds +:+ ")") - 1)%nat
    with (String.length (ds +:+ ")"))
    by (rewrite open_app; cbn [String.length]; lia).
  now rewrite H1, H2.
Qed.

Lemma occurs_head (s m post : string) :
  occurs s "" m post -> matchAt s = Some m.
Proof. intros [-> Hm]. rewrite app_empty_l. now apply matchAt_run. Qed.

Lemma occurs_tail (c : ascii) (s pre m post : string) :
  occurs (String c s) (String c pre) m post <-> occurs s pre m post.
Proof.
  unfold occurs. rewrite app_cons. split.
  - intros [[= ->] Hm]. now split.
  - intros [-> Hm]. now split.
Qed.

Lemma occurs_cons_inv (c : ascii) (s pre m post : string) :
  occurs (String c s) pre m post ->
  pre = "" \/ exists pre0, pre = String c pre0 /\ occurs s pre0 m post.
Proof.
  destruct pre as [|c0 pre0]; [now left|]. intros H. right.
  destruct H as [E Hm]. rewrite app_cons in E. injection E as -> ->.
  exists pre0. repeat split. assumption.
Qed.

(** A string with a match has an occurrence of a run, and conversely. *)
Lemma scan_nonempty_occurs (s : string) :
  scan 0 s <> [] -> exists pre m post, occurs s pre m post.
Proof.
  induction s as [|c s IH]; [now intros []|]. rewrite scan_cons.
  destruct (matchAt (String c s)) as [m|] eqn:E.
  - intros _. destruct (matchAt_inv _ _ E) as [Hm [post Hs]].
    exists "", m, post. split; [now rewrite app_empty_l|assumption].
  - intros H. destruct (IH H) as (pre & m & post & Ho).
    exists (String c pre), m, post.
    exact (proj2 (occurs_tail _ _ _ _ _) Ho).
Qed.

Lemma occurs_scan_nonempty (s pre m post : string) :
  occurs s pre m post -> scan 0 s <> [].
Proof.
  revert s. induction pre as [|c pre IH]; intros s Ho.
  - pose proof (occurs_head _ _ _ Ho) as Hm.
    destruct s as [|c s]; [discriminate|].
    rewrite scan_cons, Hm. discriminate.
  - destruct s as [|c0 s]; [destruct Ho as [E _]; discriminate|].
    assert (c0 = c) as -> by (destruct Ho as [E _]; now injection E).
    pose proof (IH _ (proj1 (occurs_tail _ _ _ _ _) Ho)) as Hs.
    rewrite scan_cons.
    destruct (matchAt (String c s)); [discriminate|assumption].
Qed.

(** One occurrence and no other: the scan finds it alone, and replacing
    the first occurrence of its text removes it. *)
Lemma scan_unique (s pre m post : string) :
  occurs s pre m post ->
  (forall pre' m' post', occurs s pre' m' post' -> pre' = pre) ->
  scan 0 s = [m] /\ Replace1 s m "" = pre +:+ post.
Proof.
  revert pre. induction s as [|c s IH]; intros pre Ho Huniq.
  - destruct Ho as [E [ds [_ ->]]]. destruct pre; discriminate.
  - destruct (occurs_cons_inv _ _ _ _ _ Ho) as [->|(pre0 & -> & Ho')].
    + pose proof (occurs_head _ _ _ Ho) as Hm. rewrite scan_cons, Hm.
      destruct Ho as [E Hrun]. rewrite app_empty_l in E. split.
      * f_equal. destruct (scan 0 s) as [|m2 l] eqn:Es; [reflexivity|].
        assert (Hne : scan 0 s <> []) by (rewrite Es; discriminate).
        destruct (scan_nonempty_occurs _ Hne) as (p2 & m' & q2 & Ho2).
        pose proof (Huniq _ _ _ (proj2 (occurs_tail c _ _ _ _) Ho2)).
        discriminate.
      * unfold Replace1; fold Replace1. rewrite E, prefix_app.
        now rewrite slice_from_app.
    + assert (Hnone : matchAt (String c s) = None).
      { destruct (matchAt (String c s)) as [m0|] eqn:E; [|reflexivity].
        destruct (matchAt_inv _ _ E) as [Hm0 [post0 Hs]].
        assert (Ho0 : occurs (String c s) "" m0 post0)
          by (split; [now rewrite app_empty_l|assumption]).
        pose proof (Huniq _ _ _ Ho0). discriminate. }
      rewrite scan_cons, Hnone.
      destruct (IH pre0 Ho') as [IH1 IH2].
      { intros pre' m' post' Ho2.
        pose proof (Huniq _ _ _ (proj2 (occurs_tail c _ _ _ _) Ho2)) as E.
        now injection E. }
      split; [assumption|].
      unfold Replace1; fold Replace1.
      destruct (String.prefix m (String c s)) eqn:Ep.
      * apply prefix_split in Ep. destruct Ho as [_ Hrun].
        rewrite Ep, (matchAt_run _ _ Hrun) in Hnone. discriminate.
      * now rewrite IH2, app_cons.
Qed.

(** Two occurrences at different places: the scan finds at least two
    matches. *)
Lemma scan_two (s pre1 m1 post1 pre2 m2 post2 : string) :
  occurs s pre1 m1 post1 -> occurs s pre2 m2 post2 -> pre1 <> pre2 ->
  exists a b l, scan 0 s = a :: b :: l.
Proof.
  revert pre1 pre2. induction s as [|c s IH]; intros pre1 pre2 H1 H2 Hne.
  - destruct H1 as [E [ds [_ ->]]]. destruct pre1; discriminate.
  - rewrite scan_cons.
    destruct (occurs_cons_inv _ _ _ _ _ H1) as [->|(p1 & -> & H1')];
      destruct (occurs_cons_inv _ _ _ _ _ H2) as [->|(p2 & -> & H2')].
    + contradiction.
    + rewrite (occurs_head _ _ _ H1).
      pose proof (occurs_scan_nonempty _ _ _ _ H2') as Hs.
      destruct (scan 0 s) as [|b l]; [contradiction|]. now eexists _, _, _.
    + rewrite (occurs_head _ _ _ H2).
      pose proof (occurs_scan_nonempty _ _ _ _ H1') as Hs.
      destruct (scan 0 s) as [|b l]; [contradiction|]. now eexists _, _, _.
    + assert (Hp : p1 <> p2) by congruence.
      destruct (IH _ _ H1' H2' Hp) as (a & b & l & ->).
      destruct (matchAt (String c s)); now eexists _, _, _.
Qed.

(** The position of the last backslash. *)
Lemma prefix_single (a c : ascii) (s : string) :
  String.prefix (String a "") (String c s) = Ascii.eqb a c.
Proof.
  cbn [String.prefix]. destruct (ascii_dec a c) as [->|Hne].
  - rewrite Ascii.eqb_refl. now destruct s.
  - symmetry. now apply Ascii.eqb_neq.
Qed.

Lemma LastIndex_none (name : string) :
  noBackslash name -> LastIndex name "\" = -1.
Proof.
  unfold noBackslash. induction name as [|c name IH]; intros H; [reflexivity|].
  cbn [list_ascii_of_string forallb] in H. apply andb_prop in H as [Hc Hn].
  cbn [LastIndex]. rewrite (IH Hn), prefix_single.
  apply negb_true_iff in Hc. rewrite Ascii.eqb_sym, Hc. reflexivity.
Qed.

Lemma LastIndex_backslash (dir name : string) :
  noBackslash name ->
  LastIndex (dir +:+ "\" +:+ name) "\" = Z.of_nat (String.length dir).
Proof.
  intros H. induction dir as [|c dir IH].
  - rewrite app_empty_l, app_cons, app_empty_l. cbn [LastIndex].
    rewrite (LastIndex_none _ H), prefix_single. reflexivity.
  - rewrite app_cons. cbn [LastIndex]. rewrite IH.
    destruct (0 <=? Z.of_nat (String.length dir)) eqn:E.
    + cbn [String.length]. lia.
    + apply Z.leb_gt in E. lia.
Qed.

(** Without a backslash in the path the duplicate-suffix step does
    nothing. *)
Lemma normalize_no_backslash (mediaPath : string) :
  LastIndex mediaPath "\" = -1 -> normalize mediaPath = ("", mediaPath).
Proof. intros H. unfold normalize. now rewrite H. Qed.

(** On a path [dir\name] the step works on [name]. *)
Lemma normalize_split (dir name : string) :
  noBackslash name ->
  normalize (dir +:+ "\" +:+ name) =
    match FindAllString name with
    | [m] => (m, (dir +:+ "\") +:+ Replace1 name m "")
    | _ => ("", dir +:+ "\" +:+ name)
    end.
Proof.
  intros H. unfold normalize. rewrite (LastIndex_backslash _ _ H).
  assert (Hidx : Z.to_nat (Z.of_nat (String.length dir) + 1)
                 = String.length (dir +:+ "\"))
    by (rewrite length_app; simpl; lia).
  rewrite Hidx, <- !app_assoc', slice_from_app, slice_to_app.
  assert (Hneq : (Z.of_nat (String.length dir) =? -1) = false)
    by (apply Z.eqb_neq; lia).
  rewrite Hneq. cbn [negb]. rewrite !app_assoc'. reflexivity.
Qed.

(** The duplicate-suffix step on a path [dir\name] whose last segment
    [name] holds no backslash: with exactly one run in [name] the run is
    the marker and is removed; with none, or with more than one, the path is
    unchanged and there is no marker. *)
Lemma normalize_backslash_path (dir name : string) :
  noBackslash name ->
  (forall pre m post,
     occurs name pre m post ->
     (forall pre' m' post', occurs name pre' m' post' -> pre' = pre) ->
     normalize (dir +:+ "\" +:+ name) = (m, dir +:+ "\" +:+ pre +:+ post))
  /\ ((forall pre m post, ~ occurs name pre m post) ->
      normalize (dir +:+ "\" +:+ name) = ("", dir +:+ "\" +:+ name))
  /\ (forall pre1 m1 post1 pre2 m2 post2,
        occurs name pre1 m1 post1 -> occurs name pre2 m2 post2 ->
        pre1 <> pre2 ->
        normalize (dir +:+ "\" +:+ name) = ("", dir +:+ "\" +:+ name)).
Proof.
  intros H. rewrite (normalize_split _ _ H). unfold FindAllString.
  split; [|split].
  - intros pre m post Ho Hu.
    destruct (scan_unique _ _ _ _ Ho Hu) as [-> ->].
    now rewrite !app_assoc'.
  - intros Hnone. destruct (scan 0 name) as [|m l] eqn:E; [reflexivity|].
    assert (Hne : scan 0 name <> []) by (rewrite E; discriminate).
    destruct (scan_nonempty_occurs _ Hne) as (pre & m' & post & Ho).
    now apply Hnone in Ho.
  - intros pre1 m1 post1 pre2 m2 post2 H1 H2 Hne.
    now destruct (scan_two _ _ _ _ _ _ _ H1 H2 Hne) as (a & b & l & ->).
Qed.

(** C1, where the code departs from it.  The resolver takes the last path
    segment to start after the last backslash.  On a path whose separator
    is the slash the step finds no segment and does nothing: the last
    segment [IMG(2).jpg] of [/home/u/Takeout/IMG(2).jpg] holds exactly one
    run, [(2)], and the normalized path is the original one, with no
    marker; the sidecar [IMG.jpg.supplemental-metadata(2).json] is then not
    found.  The same file under [C:\Takeout] is normalized to [IMG.jpg] with
    the marker [(2)], and its sidecar is found. *)
Theorem C1_slash_path_is_not_normalized :
  let name := "IMG(2).jpg" in
  let sidecar := "IMG.jpg.supplemental-metadata(2).json" in
  let unixPath := "/home/u/Takeout/" +:+ name in
  let winPath := "C:\Takeout\" +:+ name in
  let unixWorld := exampleWorld Unix [("/home/u/Takeout/" +:+ sidecar, "{}")] [] in
  let winWorld := exampleWorld Windows [("C:\Takeout\" +:+ sidecar, "{}")] [] in
  (occurs name "IMG" "(2)" ".jpg"
   /\ forall pre m post, occurs name pre m post -> pre = "IMG")
  /\ normalize unixPath = ("", unixPath)
  /\ is_Ok (snd (fst (checkSupplementalData unixWorld unixPath
                        (freshState "/home/u/Takeout")))) = false
  /\ normalize winPath = ("(2)", "C:\Takeout\IMG.jpg")
  /\ fst (checkSupplementalData winWorld winPath (freshState "C:\Takeout")) =
       ("C:\Takeout\" +:+ sidecar, Ok {| IsDir := false |}).
Proof.
  intros name sidecar unixPath winPath unixWorld winWorld.
  assert (Ho : occurs name "IMG" "(2)" ".jpg").
  { split; [reflexivity|]. exists "2". now split. }
  split; [split; [exact Ho|]|].
  - intros pre m post Ho'.
    destruct (string_dec pre "IMG") as [E|Hne]; [exact E|].
    destruct (scan_two _ _ _ _ _ _ _ Ho' Ho Hne) as (a & b & l & Hs).
    vm_compute in Hs. discriminate.
  - repeat split; vm_compute; reflexivity.
Qed.

(** * Further properties of the code *)

(** ** The resolver as a whole *)

Lemma uptoFirst_take {A} (f : A -> bool) (l : list A) :
  exists n,
    (n <= length l)%nat
    /\ (l <> [] -> (1 <= n)%nat)
    /\ uptoFirst f l = take n l
    /\ (find f l = None -> n = length l).
Proof.
  induction l as [|x l (n & Hn & Hpos & Ht & Hnone)].
  - exists 0%nat. repeat split; simpl; auto. congruence.
  - simpl. destruct (f x).
    + exists 1%nat. repeat split; simpl; try lia. discriminate.
    + exists (S n). repeat split; simpl; try lia.
      * now rewrite Ht.
      * intros H. now rewrite Hnone.
Qed.

Lemma truncationPlan_length (mediaPath : string) :
  length (truncationPlan mediaPath suffixOrder) = 44%nat.
Proof.
  unfold truncationPlan. destruct (normalize mediaPath).
  now rewrite List.length_app, !List.length_map.
Qed.

Lemma probePlan_last (os : GOOS) (mediaPath : string) :
  List.last (probePlan os mediaPath) "" = mediaPath +:+ ".s" +:+ ".json".
Proof.
  unfold probePlan, truncationPlan. destruct (normalize mediaPath) as [m p].
  change suffixOrder with (removelast suffixOrder ++ [".s"]).
  rewrite !map_app. cbn [map]. rewrite List.app_assoc, List.app_comm_cons.
  apply List.last_last.
Qed.

Lemma lastOutcome_last (w : World) (ps : list string) cur :
  ps <> [] ->
  lastOutcome w ps cur = (List.last ps "", Stat w (List.last ps "")).
Proof.
  intros H. unfold lastOutcome.
  destruct (exists_last H) as (l & a & ->).
  now rewrite List.rev_app_distr, List.last_last.
Qed.

(** The resolver in one equation: the first path of the plan that exists
    is returned with its [os.Stat] outcome, otherwise the last path of the
    plan with its outcome; the paths probed are those of the plan up to the
    one returned. *)
Lemma checkSupplementalData_plan (w : World) (mediaPath : string)
    (s : State) :
  let plan := probePlan (goos w) mediaPath in
  checkSupplementalData w mediaPath s =
    (match find (present w) plan with
     | Some p => (p, Stat w p)
     | None => (List.last plan "", Stat w (List.last plan ""))
     end,
     probed s (uptoFirst (present w) plan)).
Proof.
  intros plan. subst plan. unfold probePlan.
  set (p1 := extSwap (goos w) mediaPath).
  destruct (Stat w p1) as [info|e] eqn:E.
  - unfold p1 in *. rewrite (checkSupplementalData_step1 _ _ _ _ E).
    assert (Hp : present w (extSwap (goos w) mediaPath) = true)
      by (unfold present; now rewrite E).
    cbn [find uptoFirst]. rewrite Hp, E. reflexivity.
  - unfold p1 in *. rewrite (checkSupplementalData_after_step1 _ _ _ _ E).
    fold p1. rewrite truncationPlan_code.
    destruct (normalize mediaPath) as [mtch newMediaPath]. cbn [fst snd].
    set (c3 := candidatesWithMarker newMediaPath mtch).
    set (c4 := candidatesPlain mediaPath).
    assert (Hc4 : c4 <> []) by discriminate.
    assert (Hp1 : present w p1 = false)
      by (unfold present, p1; now rewrite E).
    cbn [find uptoFirst]. rewrite Hp1.
    rewrite statLoop_spec, find_app, uptoFirst_app.
    destruct (find (present w) c3) as [p|] eqn:F3.
    + pose proof (find_present_Ok _ _ _ F3) as Hp. unfold present in Hp.
      cbn [fst snd]. destruct (Stat w p) as [i|e'] eqn:Ep; [|discriminate].
      now rewrite probed_probed.
    + assert (Hlast : is_Ok (snd (lastOutcome w c3 (p1, Err e))) = false)
        by (now apply lastOutcome_missing).
      destruct (snd (lastOutcome w c3 (p1, Err e))) as [i|e'] eqn:El;
        [discriminate|].
      rewrite statLoop_spec, !probed_probed, (uptoFirst_none _ _ F3).
      assert (Hl : List.last (p1 :: c3 ++ c4) "" = List.last c4 "").
      { change (p1 :: c3 ++ c4) with ((p1 :: c3) ++ c4).
        destruct (exists_last Hc4) as (l & a & ->).
        now rewrite List.app_assoc, !List.last_last. }
      rewrite Hl. f_equal.
Qed.

Lemma find_some_In {A} (f : A -> bool) (l : list A) :
  (exists x, find f l = Some x) <-> (exists x, In x l /\ f x = true).
Proof.
  split.
  - intros [x H]. exists x. now apply find_some in H.
  - intros (x & Hin & Hf). destruct (find f l) as [y|] eqn:E; [now exists y|].
    pose proof (find_none _ _ E x Hin). congruence.
Qed.

Lemma In_last {A} (l : list A) (d : A) : l <> [] -> In (List.last l d) l.
Proof.
  intros H. destruct (exists_last H) as (l' & a & ->).
  rewrite List.last_last. apply in_or_app. right. now left.
Qed.

(** X1.  A resolution makes between 1 and 45 calls of [os.Stat], on an
    initial stretch of the fixed plan of candidate paths; it makes all 45
    when it fails.  It changes nothing else: the processor (counters, set
    of deleted files) and the output are as before. *)
Theorem resolver_probes_at_most_45_paths (w : World) (mediaPath : string)
    (s : State) :
  let run := checkSupplementalData w mediaPath s in
  Proc (snd run) = Proc s
  /\ Stdout (snd run) = Stdout s
  /\ exists n,
       (1 <= n <= 45)%nat
       /\ Probes (snd run) = Probes s ++ take n (probePlan (goos w) mediaPath)
       /\ (is_Ok (snd (fst run)) = false -> n = 45%nat).
Proof.
  intros run. subst run. rewrite checkSupplementalData_plan.
  cbn [fst snd probed Proc Stdout Probes].
  split; [reflexivity|]. split; [reflexivity|].
  set (plan := probePlan (goos w) mediaPath).
  assert (Hlen : length plan = 45%nat)
    by (unfold plan, probePlan; cbn [length];
        now rewrite truncationPlan_length).
  assert (Hne : plan <> []) by discriminate.
  destruct (uptoFirst_take (present w) plan) as (n & Hn & Hpos & Ht & Hnone).
  exists n. rewrite Ht. split; [specialize (Hpos Hne); lia|].
  split; [reflexivity|].
  destruct (find (present w) plan) as [p|] eqn:F.
  - apply find_present_Ok in F. cbn [fst snd]. unfold present in F.
    intros H. congruence.
  - intros _. rewrite Hnone by reflexivity. exact Hlen.
Qed.

(** X2.  Resolution succeeds exactly when one of the candidate paths
    exists.  The path it returns is always one of the plan, and the outcome
    it returns is that of [os.Stat] on that very path: a path that does not
    exist is never returned as found. *)
Theorem resolver_succeeds_iff_a_candidate_exists (w : World)
    (mediaPath : string) (s : State) :
  let run := checkSupplementalData w mediaPath s in
  let plan := probePlan (goos w) mediaPath in
  (is_Ok (snd (fst run)) = true <->
   exists p, In p plan /\ present w p = true)
  /\ In (fst (fst run)) plan
  /\ snd (fst run) = Stat w (fst (fst run)).
Proof.
  intros run plan. subst run. rewrite checkSupplementalData_plan.
  fold plan. cbn [fst snd].
  assert (Hne : plan <> []) by discriminate.
  destruct (find (present w) plan) as [p|] eqn:F.
  - pose proof (find_some _ _ F) as [Hin Hp]. cbn [fst snd].
    repeat split; auto. intros _. now exists p.
  - cbn [fst snd]. repeat split.
    + intros H. exfalso.
      pose proof (find_none _ _ F _ (In_last plan "" Hne)) as Hl.
      unfold present in Hl. congruence.
    + intros (p & Hin & Hp). pose proof (find_none _ _ F p Hin). congruence.
    + now apply In_last.
Qed.

(** X3.  When resolution fails, the path reported is the last candidate,
    [mediaPath.s.json], and the error reported is that of [os.Stat] on it;
    every candidate is missing.  The errors of the 44 earlier probes are not
    reported. *)
Theorem resolver_failure_reports_the_last_probe (w : World)
    (mediaPath : string) (s : State) :
  is_Ok (snd (fst (checkSupplementalData w mediaPath s))) = false ->
  fst (checkSupplementalData w mediaPath s) =
    (mediaPath +:+ ".s.json", Stat w (mediaPath +:+ ".s.json"))
  /\ Forall (fun p => present w p = false) (probePlan (goos w) mediaPath).
Proof.
  rewrite checkSupplementalData_plan. cbn [fst snd].
  destruct (find (present w) (probePlan (goos w) mediaPath)) as [p|] eqn:F.
  - apply find_present_Ok in F. cbn [fst snd]. unfold present in F.
    intros H. congruence.
  - intros _. rewrite probePlan_last. split; [reflexivity|].
    apply Forall_forall. intros p Hin. apply (find_none _ _ F p).
    now apply list_elem_of_In.
Qed.

(** A photo whose first candidate cannot be examined (access denied) and
    whose other candidates do not exist: the resolver reports does-not-exist
    on the last candidate, and the unit counts no error. *)
Lemma resolver_failure_reports_the_last_probe_witness :
  let w := deniedWorld Windows ["C:\Takeout\a.json"] in
  let s := freshState "C:\Takeout" in
  Stat w "C:\Takeout\a.json" = Err (ErrOther "access is denied")
  /\ fst (checkSupplementalData w "C:\Takeout\a.jpg" s) =
       ("C:\Takeout\a.jpg.s.json", Err (ErrNotExist "C:\Takeout\a.jpg.s.json"))
  /\ ErrorCount (stats (Proc (snd (processMediaFile w "C:\Takeout\a.jpg" s))))
     = 0.
Proof.
  split; [reflexivity|]. split; [|vm_compute; reflexivity].
  apply (resolver_failure_reports_the_last_probe
           (deniedWorld Windows ["C:\Takeout\a.json"]) "C:\Takeout\a.jpg"
           (freshState "C:\Takeout")).
  vm_compute. reflexivity.
Defined.

(** ** The duplicate-suffix step on every path *)

(** A path with a backslash splits at its last one. *)
Lemma LastIndex_split (p : string) :
  LastIndex p "\" <> -1 ->
  exists dir name,
    p = dir +:+ "\" +:+ name
    /\ noBackslash name
    /\ LastIndex p "\" = Z.of_nat (String.length dir).
Proof.
  induction p as [|c p IH]; [now intros []|]. cbn [LastIndex].
  destruct (0 <=? LastIndex p "\") eqn:E.
  - intros _. apply Z.leb_le in E.
    destruct IH as (dir & name & -> & Hn & Hl); [lia|].
    exists (String c dir), name. rewrite (app_cons c dir).
    split; [reflexivity|]. split; [exact Hn|].
    rewrite Hl. cbn [String.length]. lia.
  - rewrite prefix_single. destruct (Ascii.eqb_spec "\" c) as [<-|];
      [|now intros []].
    intros _. exists "", p. repeat split.
    apply Z.leb_gt in E. unfold noBackslash.
    clear IH. induction p as [|d p IHp]; [reflexivity|].
    cbn [LastIndex] in E.
    destruct (0 <=? LastIndex p "\") eqn:E2.
    + apply Z.leb_le in E2. lia.
    + rewrite prefix_single in E.
      destruct (Ascii.eqb_spec "\" d) as [<-|Hne]; [lia|].
      cbn [list_ascii_of_string forallb]. rewrite IHp.
      * apply Ascii.eqb_neq in Hne. rewrite Ascii.eqb_sym, Hne. reflexivity.
      * apply Z.leb_gt in E2. lia.
Qed.

(** A scan that finds one match: its text is a run of the string, and
    replacing the first occurrence of the text removes that run. *)
Lemma scan_single (s m : string) :
  scan 0 s = [m] ->
  exists pre post,
    occurs s pre m post /\ Replace1 s m "" = pre +:+ post.
Proof.
  induction s as [|c s IH]; [discriminate|]. rewrite scan_cons.
  destruct (matchAt (String c s)) as [m0|] eqn:E.
  - intros [= -> Hs]. destruct (matchAt_inv _ _ E) as [Hm [post Hp]].
    exists "", post. split; [split; [exact Hp|exact Hm]|].
    unfold Replace1; fold Replace1. rewrite Hp, prefix_app.
    now rewrite slice_from_app.
  - intros H. destruct (IH H) as (pre & post & Ho & Hr).
    exists (String c pre), post.
    split; [exact (proj2 (occurs_tail _ _ _ _ _) Ho)|].
    unfold Replace1; fold Replace1.
    destruct (String.prefix m (String c s)) eqn:Ep.
    + apply prefix_split in Ep. destruct Ho as [_ Hrun].
      rewrite Ep, (matchAt_run _ _ Hrun) in E. discriminate.
    + now rewrite Hr, app_cons.
Qed.

(** X4.  Whatever the media path, the duplicate-suffix step either does
    nothing (no marker, the path unchanged) or removes exactly one
    parenthesized-integer run, the marker, from the part after the last
    backslash; the part up to and including that backslash is never
    touched. *)
Theorem normalize_removes_one_run_or_nothing (mediaPath : string) :
  (fst (normalize mediaPath) = "" /\ snd (normalize mediaPath) = mediaPath)
  \/ exists dir pre post,
       mediaPath = dir +:+ "\" +:+ pre +:+ fst (normalize mediaPath) +:+ post
       /\ noBackslash (pre +:+ fst (normalize mediaPath) +:+ post)
       /\ isRun (fst (normalize mediaPath))
       /\ snd (normalize mediaPath) = dir +:+ "\" +:+ pre +:+ post.
Proof.
  destruct (Z.eq_dec (LastIndex mediaPath "\") (-1)) as [E|E].
  - left. now rewrite (normalize_no_backslash _ E).
  - destruct (LastIndex_split _ E) as (dir & name & -> & Hn & _).
    rewrite (normalize_split _ _ Hn). unfold FindAllString.
    destruct (scan 0 name) as [|m [|m2 l]] eqn:Es; [now left| |now left].
    right. destruct (scan_single _ _ Es) as (pre & post & [-> Hm] & Hr).
    exists dir, pre, post. cbn [fst snd]. rewrite Hr, !app_assoc'.
    repeat split; assumption.
Qed.

(** X5.  The sidecar of a duplicate.  For a media file [dir\name] whose
    name holds exactly one run [m], as [pre m post]: when neither the
    extension swap nor [dir\pre post m.json] exists and
    [dir\pre post.supplemental-metadata m.json] does, the resolver returns
    that sidecar, after three probes. *)
Theorem duplicate_marker_sidecar_is_found (w : World)
    (dir pre m post : string) (s : State) (info : FileInfo) :
  let name := pre +:+ m +:+ post in
  let mediaPath := dir +:+ "\" +:+ name in
  let base := dir +:+ "\" +:+ pre +:+ post in
  noBackslash name ->
  isRun m ->
  (forall pre' m' post', occurs name pre' m' post' -> pre' = pre) ->
  present w (extSwap (goos w) mediaPath) = false ->
  present w (base +:+ m +:+ ".json") = false ->
  Stat w (base +:+ ".supplemental-metadata" +:+ m +:+ ".json") = Ok info ->
  checkSupplementalData w mediaPath s =
    ((base +:+ ".supplemental-metadata" +:+ m +:+ ".json", Ok info),
     probed s [extSwap (goos w) mediaPath;
               base +:+ m +:+ ".json";
               base +:+ ".supplemental-metadata" +:+ m +:+ ".json"]).
Proof.
  intros name mediaPath base Hn Hm Hu H1 H2 H3.
  assert (Ho : occurs name pre m post) by (split; [reflexivity|exact Hm]).
  assert (Hnorm : normalize mediaPath = (m, base)).
  { unfold mediaPath. rewrite (normalize_split _ _ Hn). unfold FindAllString.
    destruct (scan_unique _ _ _ _ Ho Hu) as [-> ->].
    unfold base. now rewrite !app_assoc'. }
  assert (H3' : present w (base +:+ ".supplemental-metadata" +:+ m +:+ ".json")
                = true) by (unfold present; now rewrite H3).
  rewrite checkSupplementalData_plan. unfold probePlan, truncationPlan.
  rewrite Hnorm. cbn [suffixOrder map List.app find uptoFirst].
  unfold suffixOrder, truncations.
  cbn [String.length Nat.sub seq List.rev List.app map find uptoFirst].
  rewrite H1. rewrite !app_empty_l, H2.
  change (slice_to ".supplemental-metadata" 22) with ".supplemental-metadata".
  rewrite H3', H3. reflexivity.
Qed.

Lemma duplicate_marker_sidecar_is_found_witness :
  let w := exampleWorld Windows
             [("C:\Takeout\IMG.jpg.supplemental-metadata(2).json", "{}")] [] in
  checkSupplementalData w "C:\Takeout\IMG(2).jpg" (freshState "C:\Takeout") =
    (("C:\Takeout\IMG.jpg.supplemental-metadata(2).json",
      Ok {| IsDir := false |}),
     probed (freshState "C:\Takeout")
       ["C:\Takeout\IMG(2).json"; "C:\Takeout\IMG.jpg(2).json";
        "C:\Takeout\IMG.jpg.supplemental-metadata(2).json"]).
Proof.
  apply (duplicate_marker_sidecar_is_found
           (exampleWorld Windows
              [("C:\Takeout\IMG.jpg.supplemental-metadata(2).json", "{}")] [])
           "C:\Takeout" "IMG" "(2)" ".jpg" (freshState "C:\Takeout")
           {| IsDir := false |});
    try (vm_compute; reflexivity).
  - exists "2". now split.
  - intros pre' m' post' Ho'.
    destruct (string_dec pre' "IMG") as [E|Hne]; [exact E|].
    assert (Ho : occurs ("IMG" +:+ "(2)" +:+ ".jpg") "IMG" "(2)" ".jpg")
      by (split; [reflexivity|exists "2"; now split]).
    destruct (scan_two _ _ _ _ _ _ _ Ho' Ho Hne) as (a & b & l & Hs).
    vm_compute in Hs. discriminate.
Defined.

(** ** Which files are media files *)

Lemma ToLower_dot (e : string) : ToLower ("." +:+ e) = "." +:+ ToLower e.
Proof. reflexivity. Qed.

Lemma dispatch_supported (os : GOOS) (path : string) :
  dispatch os path <> Unsupported -> isSupportedMediaFile os path = true.
Proof.
  unfold isSupportedMediaFile, dispatch, isImageFile, isVideoFile.
  set (ext := ToLower (Ext os path)).
  destruct (mapIndex imageExts ext) eqn:Ei.
  - intros _. apply mapIndex_true in Ei.
    repeat (apply elem_of_cons in Ei as [[= Ei]|Ei];
            [now rewrite Ei|]).
    now apply elem_of_nil in Ei.
  - destruct (mapIndex videoExts ext) eqn:Ev; [|now intros []].
    intros _. apply mapIndex_true in Ev.
    repeat (apply elem_of_cons in Ev as [[= Ev]|Ev];
            [now rewrite Ev|]).
    now apply elem_of_nil in Ev.
Qed.

(** X6.  The scanner and the applier agree on every file but the [.dng]
    ones: a file is accepted by [isSupportedMediaFile] exactly when
    [ApplyToFile] has an image or video branch for it, or its lower-cased
    extension is [.dng].  In particular the applier never handles a file
    the scanner would refuse. *)
Theorem scanner_and_applier_agree_except_dng (os : GOOS) (path : string) :
  isSupportedMediaFile os path = true <->
  (dispatch os path <> Unsupported \/ ToLower (Ext os path) = ".dng").
Proof.
  split.
  - intros H. destruct (string_dec (ToLower (Ext os path)) ".dng") as [E|E];
      [now right|left]. now apply supported_dispatch.
  - intros [H|E]; [now apply dispatch_supported|].
    unfold isSupportedMediaFile. now rewrite E.
Qed.

(** X7.  A file is classified by its extension alone, whatever the letter
    case: two paths whose extensions have the same lower case are both
    media files or both not, and they take the same branch of
    [ApplyToFile], whatever their directories and names. *)
Theorem classification_depends_on_lowercase_extension (os : GOOS)
    (stem stem' e e' : string) :
  plain os e -> plain os e' -> ToLower e = ToLower e' ->
  isSupportedMediaFile os (stem +:+ "." +:+ e) =
    isSupportedMediaFile os (stem' +:+ "." +:+ e')
  /\ dispatch os (stem +:+ "." +:+ e) = dispatch os (stem' +:+ "." +:+ e').
Proof.
  intros He He' Hl.
  unfold isSupportedMediaFile, dispatch, isImageFile, isVideoFile.
  rewrite (Ext_stem _ _ _ He), (Ext_stem _ _ _ He'), !ToLower_dot, Hl.
  now split.
Qed.

Lemma classification_depends_on_lowercase_extension_witness :
  isSupportedMediaFile Windows ("C:\Takeout\2019\IMG_0001" +:+ "." +:+ "JPG") =
    isSupportedMediaFile Windows ("C:\a" +:+ "." +:+ "jpg")
  /\ dispatch Windows ("C:\Takeout\2019\IMG_0001" +:+ "." +:+ "JPG") =
       dispatch Windows ("C:\a" +:+ "." +:+ "jpg").
Proof.
  apply (classification_depends_on_lowercase_extension Windows
           "C:\Takeout\2019\IMG_0001" "C:\a" "JPG" "jpg"); reflexivity.
Defined.

(** X8.  A JSON file is never a media file: a path that ends in [.json]
    is refused by the scanner and has no branch in [ApplyToFile], on either
    platform.  Sidecars are therefore never queued as units of their own. *)
Theorem json_files_are_never_media (os : GOOS) (stem : string) :
  isSupportedMediaFile os (stem +:+ ".json") = false
  /\ dispatch os (stem +:+ ".json") = Unsupported.
Proof.
  assert (He : plain os "json") by (destruct os; reflexivity).
  unfold isSupportedMediaFile, dispatch, isImageFile, isVideoFile.
  change (stem +:+ ".json") with (stem +:+ "." +:+ "json").
  rewrite (Ext_stem _ _ _ He). now split.
Qed.

(** ** The merge as an operation *)

Lemma views_twice (v1 v2 : Z) :
  (if ((if (v1 =? 0) && (0 <? v2) then v2 else v1) =? 0) && (0 <? v2)
   then v2
   else if (v1 =? 0) && (0 <? v2) then v2 else v1) =
  (if (v1 =? 0) && (0 <? v2) then v2 else v1).
Proof.
  destruct (Z.eqb_spec v1 0), (Z.ltb_spec 0 v2); cbn -[Z.eqb Z.ltb];
    try reflexivity.
  - destruct (Z.eqb_spec v2 0); [lia|reflexivity].
  - destruct (Z.eqb_spec v1 0); [|reflexivity].
    destruct (Z.ltb_spec 0 v2); [lia|reflexivity].
  - destruct (Z.eqb_spec v1 0); [contradiction|reflexivity].
  - destruct (Z.eqb_spec v1 0); [contradiction|reflexivity].
Qed.

(** X9.  Merging the same supplemental record a second time changes
    nothing, merging a record into itself changes nothing, and merging in a
    record that holds nothing (the zero record, as decoded from [{}])
    returns the primary. *)
Theorem merge_is_idempotent (p s : Metadata) :
  mergeMetadata (mergeMetadata p s) s = mergeMetadata p s
  /\ mergeMetadata p p = p
  /\ mergeMetadata p emptyMeta = p.
Proof.
  destruct p as [t1 d1 v1 [c1] m1 g1 a1 [p1] s1].
  destruct s as [t2 d2 v2 [c2] m2 g2 a2 [p2] s2].
  split; [|split].
  - rewrite !mergeMetadata_record. merge_fields. f_equal.
    + two_tests (String.eqb t1 "") (String.eqb t2 "").
    + two_tests (String.eqb d1 "") (String.eqb d2 "").
    + apply views_twice.
    + two_tests (String.eqb c1 "") (String.eqb c2 "").
    + four_tests (ne0 (GeoData_t.Latitude g1)) (ne0 (GeoData_t.Longitude g1))
        (ne0 (GeoData_t.Latitude g2)) (ne0 (GeoData_t.Longitude g2)).
    + four_tests (ne0 (GeoDataAlt_t.Latitude a1))
        (ne0 (GeoDataAlt_t.Longitude a1))
        (ne0 (GeoDataAlt_t.Latitude a2)) (ne0 (GeoDataAlt_t.Longitude a2)).
    + two_tests (String.eqb p1 "") (String.eqb p2 "").
  - rewrite !mergeMetadata_record. merge_fields. f_equal.
    + now destruct (String.eqb t1 "").
    + now destruct (String.eqb d1 "").
    + now destruct ((v1 =? 0) && (0 <? v1)).
    + now destruct (String.eqb c1 "").
    + now destruct (negb _ && _).
    + now destruct (negb _ && _).
    + now destruct (String.eqb p1 "").
  - rewrite !mergeMetadata_record. merge_fields. cbn.
    rewrite !andb_false_r. reflexivity.
Qed.

Lemma views_assoc (v1 v2 v3 : Z) :
  0 <= v2 ->
  (if ((if (v1 =? 0) && (0 <? v2) then v2 else v1) =? 0) && (0 <? v3)
   then v3
   else if (v1 =? 0) && (0 <? v2) then v2 else v1) =
  (if (v1 =? 0) && (0 <? (if (v2 =? 0) && (0 <? v3) then v3 else v2))
   then if (v2 =? 0) && (0 <? v3) then v3 else v2
   else v1).
Proof.
  intros H.
  destruct (Z.eqb_spec v1 0), (Z.ltb_spec 0 v2), (Z.eqb_spec v2 0),
    (Z.ltb_spec 0 v3); cbn -[Z.eqb Z.ltb]; try lia;
    repeat match goal with
           | |- context [?a =? 0] => destruct (Z.eqb_spec a 0)
           | |- context [0 <? ?a] => destruct (Z.ltb_spec 0 a)
           end; cbn; try reflexivity; lia.
Qed.

(** X10.  Layers can be grouped either way: merging a global layer [g]
    and then a per-file layer [f] into a primary gives the same record as
    merging [f] into [g] first and the result into the primary, provided the
    view count of [g] is not negative. *)
Theorem merge_is_associative (p g f : Metadata) :
  0 <= ImageViews g ->
  mergeMetadata (mergeMetadata p g) f = mergeMetadata p (mergeMetadata g f).
Proof.
  intros Hv.
  destruct p as [t1 d1 v1 [c1] m1 g1 a1 [p1] s1].
  destruct g as [t2 d2 v2 [c2] m2 g2 a2 [p2] s2].
  destruct f as [t3 d3 v3 [c3] m3 g3 a3 [p3] s3].
  cbn [ImageViews] in Hv.
  rewrite !mergeMetadata_record. merge_fields. f_equal.
  - three_tests (String.eqb t1 "") (String.eqb t2 "") (String.eqb t3 "").
  - three_tests (String.eqb d1 "") (String.eqb d2 "") (String.eqb d3 "").
  - now apply views_assoc.
  - three_tests (String.eqb c1 "") (String.eqb c2 "") (String.eqb c3 "").
  - six_tests (ne0 (GeoData_t.Latitude g1)) (ne0 (GeoData_t.Longitude g1))
      (ne0 (GeoData_t.Latitude g2)) (ne0 (GeoData_t.Longitude g2))
      (ne0 (GeoData_t.Latitude g3)) (ne0 (GeoData_t.Longitude g3)).
  - six_tests (ne0 (GeoDataAlt_t.Latitude a1))
      (ne0 (GeoDataAlt_t.Longitude a1))
      (ne0 (GeoDataAlt_t.Latitude a2)) (ne0 (GeoDataAlt_t.Longitude a2))
      (ne0 (GeoDataAlt_t.Latitude a3)) (ne0 (GeoDataAlt_t.Longitude a3)).
  - three_tests (String.eqb p1 "") (String.eqb p2 "") (String.eqb p3 "").
Qed.

Lemma merge_is_associative_witness :
  0 <= ImageViews (modifiedAt "1")
  /\ mergeMetadata (mergeMetadata (takenAt "2") (modifiedAt "1")) twoFixes =
       mergeMetadata (takenAt "2") (mergeMetadata (modifiedAt "1") twoFixes).
Proof.
  split; [discriminate|].
  apply (merge_is_associative (takenAt "2") (modifiedAt "1") twoFixes).
  discriminate.
Defined.

(** X11.  The time of a merged record.  [GetPhotoTime] of the merge reads
    the primary's photo-taken time, else the supplemental's photo-taken
    time, else the primary's creation time, else the supplemental's creation
    time: a photo-taken time of the supplemental is preferred to a creation
    time of the primary. *)
Theorem photo_time_of_a_merge (p s : Metadata) :
  GetPhotoTime (mergeMetadata p s) =
    match firstNonEmpty [photoTakenTs p; photoTakenTs s;
                         creationTs p; creationTs s] with
    | Some ts => parseTimestamp ts
    | None => Err (Errorf "no valid timestamp found in metadata")
    end.
Proof.
  destruct p as [t1 d1 v1 [c1] m1 g1 a1 [p1] s1].
  destruct s as [t2 d2 v2 [c2] m2 g2 a2 [p2] s2].
  rewrite mergeMetadata_record. unfold GetPhotoTime. merge_fields.
  cbn [firstNonEmpty]. unfold nonEmpty.
  destruct (String.eqb p1 "") eqn:E1, (String.eqb p2 "") eqn:E2,
    (String.eqb c1 "") eqn:E3, (String.eqb c2 "") eqn:E4;
    repeat (cbn -[String.eqb parseTimestamp];
            rewrite ?E1, ?E2, ?E3, ?E4);
    reflexivity.
Qed.

(** ** The time of a parsed record *)

Lemma photoTakenTs_merge (p s : Metadata) :
  photoTakenTs (mergeMetadata p s) =
    if nonEmpty (photoTakenTs p) then photoTakenTs p else photoTakenTs s.
Proof.
  destruct p as [t1 d1 v1 [c1] m1 g1 a1 [p1] s1].
  destruct s as [t2 d2 v2 [c2] m2 g2 a2 [p2] s2].
  rewrite mergeMetadata_record. unfold photoTakenTs. merge_fields.
  unfold nonEmpty.
  destruct (String.eqb p1 "") eqn:E1, (String.eqb p2 "") eqn:E2;
    cbn -[String.eqb]; try reflexivity.
  apply String.eqb_eq in E1, E2. congruence.
Qed.

Lemma creationTs_merge (p s : Metadata) :
  creationTs (mergeMetadata p s) =
    if nonEmpty (creationTs p) then creationTs p else creationTs s.
Proof.
  destruct p as [t1 d1 v1 [c1] m1 g1 a1 [p1] s1].
  destruct s as [t2 d2 v2 [c2] m2 g2 a2 [p2] s2].
  rewrite mergeMetadata_record. unfold creationTs. merge_fields.
  unfold nonEmpty.
  destruct (String.eqb c1 "") eqn:E1, (String.eqb c2 "") eqn:E2;
    cbn -[String.eqb]; try reflexivity.
  apply String.eqb_eq in E1, E2. congruence.
Qed.

Lemma firstNonEmpty_app (a b : list string) :
  firstNonEmpty (a ++ b) =
    match firstNonEmpty a with
    | Some x => Some x
    | None => firstNonEmpty b
    end.
Proof.
  induction a as [|x a IH]; [reflexivity|]. cbn.
  now destruct (nonEmpty x).
Qed.

Lemma firstNonEmpty_none_empty (x : string) :
  nonEmpty x = false -> x = "".
Proof.
  unfold nonEmpty. intros H. apply negb_false_iff in H.
  now apply String.eqb_eq.
Qed.

(** The time fields of records merged in order are the first that are not
    empty. *)
Lemma timestamps_of_fold (ls : list Metadata) (meta : Metadata) :
  photoTakenTs (fold_left mergeMetadata ls meta) =
    default "" (firstNonEmpty (map photoTakenTs (meta :: ls)))
  /\ creationTs (fold_left mergeMetadata ls meta) =
       default "" (firstNonEmpty (map creationTs (meta :: ls))).
Proof.
  revert meta. induction ls as [|l ls IH]; intros meta.
  - cbn. split.
    + destruct (nonEmpty (photoTakenTs meta)) eqn:E; [reflexivity|].
      now apply firstNonEmpty_none_empty.
    + destruct (nonEmpty (creationTs meta)) eqn:E; [reflexivity|].
      now apply firstNonEmpty_none_empty.
  - cbn [fold_left]. destruct (IH (mergeMetadata meta l)) as [H1 H2].
    rewrite H1, H2. cbn [map firstNonEmpty].
    rewrite photoTakenTs_merge, creationTs_merge. split.
    + destruct (nonEmpty (photoTakenTs meta)) eqn:E; [now rewrite E|].
      reflexivity.
    + destruct (nonEmpty (creationTs meta)) eqn:E; [now rewrite E|].
      reflexivity.
Qed.

Lemma firstNonEmpty_nonEmpty (l : list string) (x : string) :
  firstNonEmpty l = Some x -> nonEmpty x = true.
Proof.
  induction l as [|y l IH]; [discriminate|]. cbn.
  destruct (nonEmpty y) eqn:E; [|exact IH]. now intros [= <-].
Qed.

Lemma GetPhotoTime_fold (ls : list Metadata) (meta : Metadata) :
  GetPhotoTime (fold_left mergeMetadata ls meta) =
    match firstNonEmpty (timeOrder (meta :: ls)) with
    | Some ts => parseTimestamp ts
    | None => Err (Errorf "no valid timestamp found in metadata")
    end.
Proof.
  destruct (timestamps_of_fold ls meta) as [H1 H2].
  unfold GetPhotoTime, timeOrder. fold (photoTakenTs (fold_left mergeMetadata ls meta)).
  fold (creationTs (fold_left mergeMetadata ls meta)).
  rewrite H1, H2, firstNonEmpty_app.
  destruct (firstNonEmpty (map photoTakenTs (meta :: ls))) as [x|] eqn:E1.
  - cbn [from_option id]. now rewrite (firstNonEmpty_nonEmpty _ _ E1).
  - cbn [from_option id]. change (nonEmpty "") with false. cbv iota.
    destruct (firstNonEmpty (map creationTs (meta :: ls))) as [y|] eqn:E2.
    + cbn [from_option id]. now rewrite (firstNonEmpty_nonEmpty _ _ E2).
    + reflexivity.
Qed.

Lemma mergeLayers_fold (meta : Metadata) (layers : list (option Metadata)) :
  mergeLayers meta layers = fold_left mergeMetadata (omap id layers) meta.
Proof.
  unfold mergeLayers. revert meta.
  induction layers as [|[l|] layers IH]; intros meta; cbn; auto.
Qed.

(** X12.  The time of a parsed sidecar.  When the primary sidecar decodes,
    [ParseJSON] succeeds and [GetPhotoTime] of its record reads the first
    string that is not empty among: the photo-taken times of the primary,
    the global supplemental and the per-file supplemental, then their
    creation times in the same order; with none there is no time.  A
    supplemental photo-taken time is thus read before the primary's
    creation time. *)
Theorem parsed_time_follows_the_layers (w : World) (jsonPath data : string)
    (meta : Metadata) :
  ReadFile w jsonPath = Ok data ->
  Unmarshal w (stripBOM data) = Ok meta ->
  exists merged,
    ParseJSON w jsonPath = Ok merged
    /\ GetPhotoTime merged =
         match firstNonEmpty (timeOrder (layersOf w jsonPath meta)) with
         | Some ts => parseTimestamp ts
         | None => Err (Errorf "no valid timestamp found in metadata")
         end.
Proof.
  intros Hr Hu. eexists. split; [exact (ParseJSON_layers _ _ _ _ Hr Hu)|].
  rewrite mergeLayers_fold, GetPhotoTime_fold. unfold layersOf.
  replace (omap id [layer w (globalPath w jsonPath);
                    layer w (perFilePath w jsonPath)])
    with (omap (layer w) [globalPath w jsonPath; perFilePath w jsonPath]);
    [reflexivity|].
  cbn. destruct (layer w (globalPath w jsonPath)),
         (layer w (perFilePath w jsonPath)); reflexivity.
Qed.

(** A photo whose own sidecar has a creation time only (here none at
    all) and whose folder's supplemental sidecar has a photo-taken time:
    the time read is the supplemental's. *)
Lemma parsed_time_follows_the_layers_witness :
  let w := exampleWorld Windows
             [("C:\Takeout\photo.json", "{}");
              ("C:\Takeout\supplemental-metadata.json", "1609459200")] [] in
  exists merged,
    ParseJSON w "C:\Takeout\photo.json" = Ok merged
    /\ GetPhotoTime merged =
         match firstNonEmpty
                 (timeOrder (layersOf w "C:\Takeout\photo.json" emptyMeta)) with
         | Some ts => parseTimestamp ts
         | None => Err (Errorf "no valid timestamp found in metadata")
         end.
Proof.
  intros w.
  apply (parsed_time_follows_the_layers w "C:\Takeout\photo.json" "{}"
           emptyMeta); vm_compute; reflexivity.
Defined.

(** ** A unit of work, in general *)

(** A unit of work starts with a resolution, which leaves the processor
    as it was. *)
Lemma processMediaFile_start (w : World) (mediaPath : string) (s : State) :
  exists jsonPath r s1,
    checkSupplementalData w mediaPath s = ((jsonPath, r), s1)
    /\ Proc s1 = Proc s /\ Stdout s1 = Stdout s
    /\ In jsonPath (probePlan (goos w) mediaPath)
    /\ Stat w jsonPath = r.
Proof.
  destruct (checkSupplementalData w mediaPath s) as [[jsonPath r] s1] eqn:H.
  exists jsonPath, r, s1. split; [reflexivity|].
  destruct (checkSupplementalData_Proc _ _ _ _ _ H) as [HP HS].
  split; [exact HP|]. split; [exact HS|].
  pose proof (checkSupplementalData_plan w mediaPath s) as E. cbv zeta in E.
  rewrite H in E.
  destruct (find (present w) (probePlan (goos w) mediaPath)) as [p|] eqn:F.
  - injection E as Ej Er _. subst jsonPath r. split; [|reflexivity].
    now apply find_some in F.
  - injection E as Ej Er _. subst jsonPath r. split; [|reflexivity].
    refine (In_last (probePlan (goos w) mediaPath) "" _). discriminate.
Qed.

(** X13.  The counters of one unit of work.  A unit never changes
    [TotalFiles], [SkippedFiles] or the settings of the run.  A unit that
    returns true counts one sidecar and one processed file, which is either
    one modified or one unmodified file with one line of detail, and no
    error.  A unit that returns false counts no processed file, adds no
    detail and records no deletion; it counts at most one error. *)
Theorem unit_accounting (w : World) (mediaPath : string) (s : State) :
  let run := processMediaFile w mediaPath s in
  let p := Proc s in
  let p' := Proc (snd run) in
  let st := stats p in
  let st' := stats p' in
  (rootDir p', dryRun p', verbose p', workerCount p') =
    (rootDir p, dryRun p, verbose p, workerCount p)
  /\ TotalFiles st' = TotalFiles st
  /\ SkippedFiles st' = SkippedFiles st
  /\ if fst run then
       JSONFiles st' = incr (JSONFiles st)
       /\ ProcessedFiles st' = incr (ProcessedFiles st)
       /\ ErrorCount st' = ErrorCount st
       /\ ((ModifiedFiles st' = incr (ModifiedFiles st)
            /\ UnmodifiedFiles st' = UnmodifiedFiles st
            /\ (exists d, ModifiedDetails st' = ModifiedDetails st ++ [d])
            /\ UnmodifiedDetails st' = UnmodifiedDetails st)
           \/ (UnmodifiedFiles st' = incr (UnmodifiedFiles st)
               /\ ModifiedFiles st' = ModifiedFiles st
               /\ (exists d,
                     UnmodifiedDetails st' = UnmodifiedDetails st ++ [d])
               /\ ModifiedDetails st' = ModifiedDetails st))
     else
       ProcessedFiles st' = ProcessedFiles st
       /\ ModifiedFiles st' = ModifiedFiles st
       /\ UnmodifiedFiles st' = UnmodifiedFiles st
       /\ ModifiedDetails st' = ModifiedDetails st
       /\ UnmodifiedDetails st' = UnmodifiedDetails st
       /\ deletedFiles p' = deletedFiles p
       /\ ((ErrorCount st' = ErrorCount st /\ JSONFiles st' = JSONFiles st)
           \/ (ErrorCount st' = incr (ErrorCount st)
               /\ (JSONFiles st' = JSONFiles st
                   \/ JSONFiles st' = incr (JSONFiles st)))).
Proof.
  cbv zeta. unit_start processMediaFile_start w mediaPath s;
    (split; [reflexivity|]); (split; [reflexivity|]);
    (split; [reflexivity|]); repeat (split; [reflexivity|]);
    first [ left; repeat split; eauto; fail
          | right; repeat split; eauto; fail
          | right; split; [reflexivity|]; left; reflexivity
          | right; split; [reflexivity|]; right; reflexivity ].
Qed.

Lemma incr_congr (x : Z) : exists k, incr x = x + 1 + 2 ^ 64 * k.
Proof.
  unfold incr, wrapInt.
  exists (- ((x + 1 + 2 ^ 63) / 2 ^ 64)).
  pose proof (Z.div_mod (x + 1 + 2 ^ 63) (2 ^ 64) ltac:(lia)). lia.
Qed.

Lemma balanced_step (p m u p' m' u' : Z) :
  (p - (m + u)) mod 2 ^ 64 = 0 ->
  p' = incr p ->
  (m' = incr m /\ u' = u) \/ (m' = m /\ u' = incr u) ->
  (p' - (m' + u')) mod 2 ^ 64 = 0.
Proof.
  intros Hb -> Hor.
  apply Z.mod_divide in Hb; [|lia]. destruct Hb as [q Hq].
  destruct (incr_congr p) as [k1 H1].
  apply Z.mod_divide; [lia|].
  destruct Hor as [[-> ->]|[-> ->]].
  - destruct (incr_congr m) as [k2 H2]. exists (q + k1 - k2). lia.
  - destruct (incr_congr u) as [k2 H2]. exists (q + k1 - k2). lia.
Qed.

(** X14.  The counters add up after every unit of work: when the number
    of processed files is the number of modified plus the number of
    unmodified files (as 64-bit integers) before a unit, it is so after
    it. *)
Theorem unit_keeps_counters_balanced (w : World) (mediaPath : string)
    (s : State) :
  balanced (stats (Proc s)) ->
  balanced (stats (Proc (snd (processMediaFile w mediaPath s)))).
Proof.
  unfold balanced.
  unit_start processMediaFile_start w mediaPath s; intros Hb; try exact Hb;
    (eapply balanced_step; [exact Hb|reflexivity|]);
    first [ left; split; reflexivity | right; split; reflexivity ].
Qed.

Lemma unit_keeps_counters_balanced_witness :
  let w := exampleWorld Windows
             [("C:\Takeout\photo.json", "1609459200")] [] in
  balanced (stats (Proc (freshState "C:\Takeout")))
  /\ balanced
       (stats (Proc (snd (processMediaFile w "C:\Takeout\photo.jpg"
                            (freshState "C:\Takeout"))))).
Proof.
  intros w. split; [reflexivity|].
  apply (unit_keeps_counters_balanced w "C:\Takeout\photo.jpg"
           (freshState "C:\Takeout")).
  reflexivity.
Defined.

(** X15.  A dry run changes no file.  In a dry run the result of a unit of
    work, its counters and its output are the same whatever [os.Remove]
    and the two appliers would do: none of them is called. *)
Theorem dry_run_calls_no_effect (w : World) (mediaPath : string) (s : State)
    (rm : string -> option error)
    (ai av : string -> Metadata -> result ApplyResult) :
  dryRun (Proc s) = true ->
  processMediaFile (withEffects w rm ai av) mediaPath s =
    processMediaFile w mediaPath s.
Proof.
  intros Hdry. unfold processMediaFile, processor.bind.
  pose proof (checkSupplementalData_plan w mediaPath s) as E1.
  pose proof (checkSupplementalData_plan (withEffects w rm ai av) mediaPath s)
    as E2.
  cbv zeta in E1, E2.
  change (goos (withEffects w rm ai av)) with (goos w) in E2.
  change (present (withEffects w rm ai av)) with (present w) in E2.
  change (Stat (withEffects w rm ai av)) with (Stat w) in E2.
  rewrite E2, E1. cbn [fst snd getProc].
  set (found := match find (present w) (probePlan (goos w) mediaPath) with
                | Some p => (p, Stat w p)
                | None => _
                end).
  change (Proc (probed s _)) with (Proc s). rewrite Hdry.
  destruct (snd found); [|reflexivity].
  change (ParseJSON (withEffects w rm ai av) (fst found))
    with (ParseJSON w (fst found)).
  reflexivity.
Qed.

Lemma dry_run_calls_no_effect_witness :
  let w := exampleWorld Windows
             [("C:\Takeout\photo.json", "1609459200")] [] in
  let failing := withEffects w (fun _ => Some (ErrOther "read-only"))
                   (fun _ _ => Err (ErrOther "exiftool failed"))
                   (fun _ _ => Err (ErrOther "ffmpeg failed")) in
  dryRun (Proc (dryState "C:\Takeout")) = true
  /\ processMediaFile failing "C:\Takeout\photo.jpg" (dryState "C:\Takeout") =
       processMediaFile w "C:\Takeout\photo.jpg" (dryState "C:\Takeout")
  /\ fst (processMediaFile failing "C:\Takeout\photo.jpg"
            (dryState "C:\Takeout")) = true.
Proof.
  intros w failing. split; [reflexivity|]. split.
  - apply (dry_run_calls_no_effect w "C:\Takeout\photo.jpg"
             (dryState "C:\Takeout")).
    reflexivity.
  - vm_compute. reflexivity.
Defined.

(** X16.  What is recorded as deleted.  A unit of work leaves the set of
    deleted sidecars as it was, or adds one path to it: then the run is no
    dry run, the unit returns true, and the path is one of the candidate
    paths of the media file, on which [os.Stat] succeeded and [os.Remove]
    returned no error. *)
Theorem recorded_deletion_is_a_removed_candidate (w : World)
    (mediaPath : string) (s : State) :
  let run := processMediaFile w mediaPath s in
  deletedFiles (Proc (snd run)) = deletedFiles (Proc s)
  \/ (dryRun (Proc s) = false
      /\ fst run = true
      /\ exists jsonPath,
           In jsonPath (probePlan (goos w) mediaPath)
           /\ present w jsonPath = true
           /\ Remove w jsonPath = None
           /\ deletedFiles (Proc (snd run)) =
                <[jsonPath := true]> (deletedFiles (Proc s))).
Proof.
  cbv zeta.
  unit_start processMediaFile_start w mediaPath s;
    first [ left; reflexivity
          | right; split; [reflexivity|]; split; [reflexivity|];
            exists jsonPath; unfold present; rewrite Hst; repeat split;
            assumption ].
Qed.

(** X17.  Only the last probe decides between a skip and an error.  When
    no candidate path exists, the unit returns false, and what it counts
    depends on the error of [os.Stat] for the last candidate alone: a
    not-exist error there makes the unit a silent skip that counts nothing,
    whatever errors the earlier candidates gave; any other error counts one
    error and is reported with the last candidate's path. *)
Theorem last_probe_decides_skip_or_error (w : World) (mediaPath : string)
    (s : State) (e : error) :
  find (present w) (probePlan (goos w) mediaPath) = None ->
  Stat w (mediaPath +:+ ".s" +:+ ".json") = Err e ->
  let run := processMediaFile w mediaPath s in
  fst run = false
  /\ if IsNotExist e then
       stats (Proc (snd run)) = stats (Proc s)
       /\ Stdout (snd run) =
            Stdout s ++
              (if verbose (Proc s)
               then [Printf "[SKIP] No metadata file for: %s\n"
                       [AString mediaPath]]
               else [])
     else
       ErrorCount (stats (Proc (snd run))) = incr (ErrorCount (stats (Proc s)))
       /\ Stdout (snd run) =
            Stdout s ++
              [Printf "[ERROR] Cannot access metadata file %s: %v\n"
                 [AString (mediaPath +:+ ".s" +:+ ".json"); AError e]].
Proof.
  intros F He. cbv zeta.
  pose proof (checkSupplementalData_plan w mediaPath s) as E. cbv zeta in E.
  rewrite F, probePlan_last, He in E.
  unfold processMediaFile, processor.bind. rewrite E.
  cbn [fst snd getProc]. change (Proc (probed s _)) with (Proc s).
  destruct (IsNotExist e), (verbose (Proc s)); cbn;
    rewrite ?List.app_nil_r; repeat split.
Qed.

(** A photo for which access to the first candidate is refused and no
    candidate exists: the unit is a silent skip. *)
Lemma last_probe_decides_skip_or_error_witness :
  let w := deniedWorld Windows ["C:\Takeout\photo.json"] in
  let s := freshState "C:\Takeout" in
  let run := processMediaFile w "C:\Takeout\photo.jpg" s in
  Stat w "C:\Takeout\photo.json" = Err (ErrOther "access is denied")
  /\ fst run = false
  /\ stats (Proc (snd run)) = stats (Proc s)
  /\ Stdout (snd run) = Stdout s ++ [].
Proof.
  intros w s run. split; [reflexivity|].
  pose proof (last_probe_decides_skip_or_error w "C:\Takeout\photo.jpg" s
                (ErrNotExist "C:\Takeout\photo.jpg.s.json")) as T.
  cbv zeta in T. cbn [IsNotExist] in T.
  destruct T as [T1 [T2 T3]]; [vm_compute; reflexivity ..|].
  split; [exact T1|]. split; [exact T2|]. exact T3.
Defined.

(** ** Coordinates of a merged record *)

Lemma GeoData_merge (p s : Metadata) :
  GeoData (mergeMetadata p s) =
    if negb (hasFix p) && hasFix s then GeoData s else GeoData p.
Proof. now rewrite mergeMetadata_record. Qed.

Lemma GeoDataAlt_merge (p s : Metadata) :
  GeoDataAlt (mergeMetadata p s) =
    if negb (hasFixAlt p) && hasFixAlt s then GeoDataAlt s else GeoDataAlt p.
Proof. now rewrite mergeMetadata_record. Qed.

(** X18.  A primary fix with a latitude and a longitude survives the
    merge: the coordinates read from the merged record have the primary's
    latitude and longitude, whatever the supplemental holds. *)
Theorem full_primary_fix_is_kept (p s : Metadata) :
  ne0 (GeoData_t.Latitude (GeoData p)) = true ->
  ne0 (GeoData_t.Longitude (GeoData p)) = true ->
  exists alt,
    ResolvedCoordinates (mergeMetadata p s) =
      Some (GeoData_t.Latitude (GeoData p), GeoData_t.Longitude (GeoData p),
            alt).
Proof.
  intros Hlat Hlon.
  unfold ResolvedCoordinates, GetLatitude, GetLongitude.
  assert (Hfix : hasFix p = true) by (unfold hasFix; now rewrite Hlat).
  rewrite GeoData_merge, Hfix. cbn [negb andb].
  rewrite Hlat. cbv beta iota. rewrite Hlon.
  destruct (GetAltitude (mergeMetadata p s)). eexists. reflexivity.
Qed.

Lemma full_primary_fix_is_kept_witness :
  exists alt,
    ResolvedCoordinates (mergeMetadata fixOnly twoFixes) =
      Some (fl 1, fl 2, alt).
Proof.
  apply (full_primary_fix_is_kept fixOnly twoFixes); reflexivity.
Defined.

(** X19.  A supplemental fix comes before the primary's alternate fix.
    When the primary has no fix of its own (latitude and longitude both
    zero) and the supplemental has one with a latitude and a longitude, the
    coordinates read from the merged record have the supplemental's latitude
    and longitude, also when the primary has an alternate fix. *)
Theorem supplemental_fix_precedes_alternate_fix (p s : Metadata) :
  hasFix p = false ->
  ne0 (GeoData_t.Latitude (GeoData s)) = true ->
  ne0 (GeoData_t.Longitude (GeoData s)) = true ->
  exists alt,
    ResolvedCoordinates (mergeMetadata p s) =
      Some (GeoData_t.Latitude (GeoData s), GeoData_t.Longitude (GeoData s),
            alt).
Proof.
  intros Hp Hlat Hlon.
  unfold ResolvedCoordinates, GetLatitude, GetLongitude.
  assert (Hfix : hasFix s = true) by (unfold hasFix; now rewrite Hlat).
  rewrite GeoData_merge, Hp, Hfix. cbn [negb andb].
  rewrite Hlat. cbv beta iota. rewrite Hlon.
  destruct (GetAltitude (mergeMetadata p s)). eexists. reflexivity.
Qed.

(** The primary has the alternate fix (2, 3, 4) only, the supplemental the
    fix (1, 2): latitude and longitude are the supplemental's. *)
Lemma supplemental_fix_precedes_alternate_fix_witness :
  hasFixAlt alternateOnly = true
  /\ ResolvedCoordinates alternateOnly = Some (fl 2, fl 3, Some (fl 4))
  /\ exists alt,
       ResolvedCoordinates (mergeMetadata alternateOnly fixOnly) =
         Some (fl 1, fl 2, alt).
Proof.
  split; [reflexivity|]. split; [reflexivity|].
  apply (supplemental_fix_precedes_alternate_fix alternateOnly fixOnly);
    reflexivity.
Defined.

(** ** Signs, blanks and the range of a timestamp *)

Lemma Sscanf_d_blank (s : string) :
  GoFmt.Sscanf_d (String " " s) = GoFmt.Sscanf_d s.
Proof. reflexivity. Qed.

(** X20.  Signs, blanks and range of a timestamp.  For a decimal string
    [ds] of value [v], followed by anything that does not go on with a
    digit: [ds] is read as the instant [v] when [v] fits a signed 64-bit
    integer, and is refused otherwise; with a minus sign in front it is read
    as the instant [-v], before the epoch, when [v] is at most 2^63; a plus
    sign or a space in front changes nothing but the text of the error. *)
Theorem timestamp_sign_blank_and_range (ds rest : string) :
  isDecimal ds = true -> endsNumber rest = true ->
  let v := decimalValue ds in
  let refused ts := Err (Errorf ("invalid timestamp format: " +:+ ts)) in
  parseTimestamp (ds +:+ rest) =
    (if v <=? 2 ^ 63 - 1 then Ok (GoTime.Unix v) else refused (ds +:+ rest))
  /\ parseTimestamp ("-" +:+ ds +:+ rest) =
       (if v <=? 2 ^ 63 then Ok (GoTime.Unix (- v))
        else refused ("-" +:+ ds +:+ rest))
  /\ parseTimestamp ("+" +:+ ds +:+ rest) =
       (if v <=? 2 ^ 63 - 1 then Ok (GoTime.Unix v)
        else refused ("+" +:+ ds +:+ rest))
  /\ parseTimestamp (" " +:+ ds +:+ rest) =
       (if v <=? 2 ^ 63 - 1 then Ok (GoTime.Unix v)
        else refused (" " +:+ ds +:+ rest)).
Proof.
  intros Hd Hr v refused. subst v refused.
  assert (H0 : 0 <= decimalValue ds) by (apply fold_digits_nonneg; lia).
  change (2 ^ 63 - 1) with GoFmt.maxInt64.
  unfold parseTimestamp.
  change ("-" +:+ ds +:+ rest) with (String "-" (ds +:+ rest)).
  change ("+" +:+ ds +:+ rest) with (String "+" (ds +:+ rest)).
  change (" " +:+ ds +:+ rest) with (String " " (ds +:+ rest)).
  rewrite Sscanf_d_blank, !Sscanf_d_signed, Sscanf_d_decimal by easy.
  cbv zeta. change (Ascii.eqb "-" "-") with true.
  change (Ascii.eqb "+" "-") with false. cbv iota.
  assert (E1 : (GoFmt.minInt64 <=? decimalValue ds) = true)
    by (apply Z.leb_le; unfold GoFmt.minInt64; lia).
  assert (E2 : (- decimalValue ds <=? GoFmt.maxInt64) = true)
    by (apply Z.leb_le; unfold GoFmt.maxInt64; lia).
  assert (E3 : (GoFmt.minInt64 <=? - decimalValue ds) =
               (decimalValue ds <=? 2 ^ 63)).
  { unfold GoFmt.minInt64.
    destruct (Z.leb_spec (- 2 ^ 63) (- decimalValue ds)),
      (Z.leb_spec (decimalValue ds) (2 ^ 63)); try reflexivity; lia. }
  rewrite E1, E2, E3, andb_true_r. cbn [andb].
  repeat split;
    destruct (decimalValue ds <=? GoFmt.maxInt64);
    try destruct (decimalValue ds <=? 2 ^ 63); reflexivity.
Qed.

(** A time one day before the epoch, followed by text; and a number
    with an underscore, which is read up to the underscore. *)
Lemma timestamp_sign_blank_and_range_witness :
  (isDecimal "86400" = true
   /\ endsNumber " seconds" = true
   /\ parseTimestamp "-86400 seconds" = Ok (GoTime.Unix (- 86400)))
  /\ (isDecimal "1" = true
      /\ endsNumber "_000" = true
      /\ parseTimestamp "1_000" = Ok (GoTime.Unix 1)).
Proof.
  split; (split; [reflexivity|]); (split; [reflexivity|]).
  - exact (proj1 (proj2 (timestamp_sign_blank_and_range "86400" " seconds"
                           eq_refl eq_refl))).
  - exact (proj1 (timestamp_sign_blank_and_range "1" "_000"
                    eq_refl eq_refl)).
Defined.

(** ** The directory walk *)

Lemma HasSuffix_split (s t : string) :
  HasSuffix s t = true -> exists stem, s = stem +:+ t.
Proof.
  unfold HasSuffix. intros H. apply andb_prop in H as [_ H].
  apply String.eqb_eq in H.
  exists (slice_to s (String.length s - String.length t)).
  pose proof (slice_to_from s (String.length s - String.length t)) as E.
  now rewrite H in E.
Qed.

(** A supplemental sidecar is no media file. *)
Lemma supplemental_not_supported (os : GOOS) (p : string) :
  HasSuffix p ".supplemental-metadata.json" = true ->
  isSupportedMediaFile os p = false.
Proof.
  intros H. destruct (HasSuffix_split _ _ H) as [stem ->].
  assert (He : plain os "json") by (destruct os; reflexivity).
  change (stem +:+ ".supplemental-metadata.json")
    with (stem +:+ ".supplemental-metadata" +:+ "." +:+ "json").
  rewrite <- (app_assoc' stem ".supplemental-metadata" ("." +:+ "json")).
  unfold isSupportedMediaFile.
  now rewrite (Ext_stem _ _ _ He).
Qed.

Lemma queued_cons (os : GOOS) (d : gmap string bool) (v : Visit)
    (rest : list Visit) :
  queued os d (v :: rest) =
    (if isFile v && isSupportedMediaFile os (path v)
        && negb (mapIndex d (path v))
     then [path v] else []) ++ queued os d rest.
Proof.
  unfold queued, filesOf. cbn [List.filter].
  destruct (isFile v); [|reflexivity]. cbn [map List.filter andb].
  now destruct (isSupportedMediaFile os (path v) && negb (mapIndex d (path v))).
Qed.

Lemma filesOf_cons (v : Visit) (rest : list Visit) :
  length (filesOf (v :: rest)) =
    ((if isFile v then 1 else 0) + length (filesOf rest))%nat.
Proof.
  unfold filesOf. cbn [List.filter]. now destruct (isFile v).
Qed.

Lemma mediaLines_app (p : Processor) (a b : list string) :
  mediaLines p (a ++ b) = mediaLines p a ++ mediaLines p b.
Proof.
  unfold mediaLines. destruct (verbose p); [apply map_app|reflexivity].
Qed.

Lemma when_printf (b : bool) (format : string) (args : list Arg)
    (s : State) :
  when b (printf format args) s =
    (tt, {| Proc := Proc s;
            Stdout := Stdout s ++ (if b then [Printf format args] else []);
            Probes := Probes s |}).
Proof. destruct s, b; cbn; rewrite ?List.app_nil_r; reflexivity. Qed.

(** The walk in one equation. *)
Lemma Walk_spec (os : GOOS) (visits : list Visit) :
  forall (files : list string) (s : State),
  exists s',
    Walk os visits files s =
      ((firstFatal visits,
        files ++ queued os (deletedFiles (Proc s)) (beforeFatal visits)), s')
    /\ settings (Proc s') = settings (Proc s)
    /\ otherCounters (stats (Proc s')) = otherCounters (stats (Proc s))
    /\ TotalFiles (stats (Proc s')) =
         Nat.iter (length (filesOf (beforeFatal visits))) incr
           (TotalFiles (stats (Proc s)))
    /\ Stdout s' =
         Stdout s ++
           mediaLines (Proc s)
             (queued os (deletedFiles (Proc s)) (beforeFatal visits))
    /\ Probes s' = Probes s.
Proof.
  induction visits as [|v rest IH]; intros files s.
  - exists s. cbn. unfold mediaLines.
    rewrite !List.app_nil_r. destruct (verbose (Proc s)); cbn;
      rewrite ?List.app_nil_r; repeat split.
  - cbn [Walk beforeFatal firstFatal]. unfold processor.bind.
    destruct v as [p [info|e]]; unfold fatal; cbn [path outcome walkFn].
    + rewrite queued_cons, filesOf_cons. unfold isFile.
      cbn [path outcome]. destruct (IsDir info) eqn:Hd.
      * cbn [ret fst snd negb andb app Nat.add]. walk_close IH mediaLines_app.
      * cbn [negb andb Nat.add].
        unfold processor.bind, modifyStats, getProc.
        cbn [fst snd Proc deletedFiles verbose].
        destruct (HasSuffix p ".supplemental-metadata.json") eqn:Hs.
        { rewrite (supplemental_not_supported os p Hs).
          cbn [orb andb app ret fst snd]. walk_close IH mediaLines_app. }
        destruct (mapIndex (deletedFiles (Proc s)) p) eqn:Hdel.
        { rewrite andb_false_r. cbn [orb andb negb app ret fst snd].
          walk_close IH mediaLines_app. }
        destruct (isSupportedMediaFile os p) eqn:Hsup.
        2:{ cbn [orb andb negb app ret fst snd]. walk_close IH mediaLines_app. }
        cbn [orb andb negb]. rewrite when_printf. cbn [ret fst snd].
        walk_close IH mediaLines_app.
    + destruct (IsNotExist e && HasSuffix p ".supplemental-metadata.json").
      * cbn [negb ret fst snd]. rewrite queued_cons, filesOf_cons.
        unfold isFile. cbn [path outcome andb app Nat.add]. walk_close IH mediaLines_app.
      * exists s. cbn. unfold mediaLines. rewrite !List.app_nil_r.
        destruct (verbose (Proc s)); cbn; rewrite ?List.app_nil_r;
          repeat split.
Qed.

Lemma no_fatal_visit (visits : list Visit) :
  existsb fatal visits = false ->
  firstFatal visits = None /\ beforeFatal visits = visits.
Proof.
  induction visits as [|v rest IH]; [now split|].
  cbn. intros H. apply orb_false_iff in H as [Hv Hrest]. rewrite Hv.
  destruct (IH Hrest) as [H1 H2]. now rewrite H1, H2.
Qed.

Lemma first_fatal_visit (before after : list Visit) (v : Visit) (e : error) :
  existsb fatal before = false ->
  outcome v = Err e ->
  IsNotExist e && HasSuffix (path v) ".supplemental-metadata.json" = false ->
  firstFatal (before ++ v :: after) = Some e
  /\ beforeFatal (before ++ v :: after) = before.
Proof.
  intros Hb Ho He.
  assert (Hv : fatal v = true) by (unfold fatal; now rewrite Ho, He).
  induction before as [|b before IH].
  - cbn. now rewrite Hv, Ho.
  - cbn in Hb. apply orb_false_iff in Hb as [Hb Hrest]. cbn. rewrite Hb.
    destruct (IH Hrest) as [H1 H2]. now rewrite H1, H2.
Qed.

(** X21.  What the walk queues.  When no call of the walk carries an error
    that stops it, [Process] goes on with exactly the supported media files
    among the files visited, in the order of the walk, leaving out those
    recorded as deleted; the test for [.supplemental-metadata.json] removes
    nothing further, since such a path is no media file.  [TotalFiles]
    counts every file visited, sidecars and other files included; no other
    counter changes, and one line is printed per queued file in a verbose
    run. *)
Theorem walk_queues_the_supported_media (w : World) (visits : list Visit)
    (s : State) :
  existsb fatal visits = false ->
  let run := Process_walk w visits s in
  let files := queued (goos w) (deletedFiles (Proc s)) visits in
  fst run = Ok files
  /\ settings (Proc (snd run)) = settings (Proc s)
  /\ otherCounters (stats (Proc (snd run))) = otherCounters (stats (Proc s))
  /\ TotalFiles (stats (Proc (snd run))) =
       Nat.iter (length (filesOf visits)) incr (TotalFiles (stats (Proc s)))
  /\ Stdout (snd run) = Stdout s ++ mediaLines (Proc s) files.
Proof.
  intros Hall run files. subst run files.
  destruct (no_fatal_visit _ Hall) as [Hf Hb].
  unfold Process_walk, processor.bind.
  destruct (Walk_spec (goos w) visits [] s)
    as (s' & E & H1 & H2 & H3 & H4 & _).
  rewrite E, Hf, Hb in *. cbn [fst snd ret app].
  repeat split; assumption.
Qed.

(** A folder with a photo, its supplemental sidecar, a text file, a
    supplemental sidecar that vanished during the walk and a video: the
    photo and the video are queued, four files are counted. *)
Lemma walk_queues_the_supported_media_witness :
  let w := exampleWorld Windows [] [] in
  let visits :=
    [dirAt "C:\Takeout";
     fileAt "C:\Takeout\photo.jpg";
     fileAt "C:\Takeout\photo.jpg.supplemental-metadata.json";
     fileAt "C:\Takeout\notes.txt";
     errorAt "C:\Takeout\old.jpg.supplemental-metadata.json"
       (ErrNotExist "C:\Takeout\old.jpg.supplemental-metadata.json");
     fileAt "C:\Takeout\clip.MP4"] in
  let run := Process_walk w visits (freshState "C:\Takeout") in
  existsb fatal visits = false
  /\ fst run = Ok ["C:\Takeout\photo.jpg"; "C:\Takeout\clip.MP4"]
  /\ TotalFiles (stats (Proc (snd run))) = 4.
Proof.
  intros w visits run. split; [reflexivity|].
  destruct (walk_queues_the_supported_media w visits
              (freshState "C:\Takeout") eq_refl) as (H1 & _ & _ & H3 & _).
  split; [exact H1|exact H3].
Defined.

(** X22.  An error of the walk ends the run before any unit of work.  At
    the first call of the walk that carries an error, other than a
    not-exist error for a path ending in [.supplemental-metadata.json],
    [Process] stops: it returns that error wrapped as "error walking
    directory" and no list of files, so that no media file is processed,
    the ones seen before included.  It counts one error; [TotalFiles] holds
    the files seen before the error. *)
Theorem walk_error_ends_the_run (w : World) (before after : list Visit)
    (v : Visit) (e : error) (s : State) :
  existsb fatal before = false ->
  outcome v = Err e ->
  IsNotExist e && HasSuffix (path v) ".supplemental-metadata.json" = false ->
  let run := Process_walk w (before ++ v :: after) s in
  let st := stats (Proc s) in
  let st' := stats (Proc (snd run)) in
  fst run = Err (ErrorfW "error walking directory" e)
  /\ ErrorCount st' = incr (ErrorCount st)
  /\ TotalFiles st' = Nat.iter (length (filesOf before)) incr (TotalFiles st)
  /\ (JSONFiles st', ProcessedFiles st', ModifiedFiles st',
      UnmodifiedFiles st', SkippedFiles st') =
       (JSONFiles st, ProcessedFiles st, ModifiedFiles st,
        UnmodifiedFiles st, SkippedFiles st)
  /\ settings (Proc (snd run)) = settings (Proc s).
Proof.
  intros Hb Ho He run st st'. subst run st st'.
  destruct (first_fatal_visit before after v e Hb Ho He) as [Hf Hbf].
  unfold Process_walk, processor.bind.
  destruct (Walk_spec (goos w) (before ++ v :: after) [] s)
    as (s' & E & H1 & H2 & H3 & H4 & _).
  rewrite E, Hf, Hbf in *. cbn [fst snd ret modifyStats Proc stats].
  unfold otherCounters in H2. injection H2 as J1 J2 J3 J4 J5 J6 J7 J8.
  cbn. rewrite J1, J2, J3, J4, J5, J6, H3.
  repeat split. exact H1.
Qed.

(** A folder that cannot be read, met after a photo: the run ends with an
    error, the photo is counted and not processed. *)
Lemma walk_error_ends_the_run_witness :
  let w := exampleWorld Windows [] [] in
  let denied := ErrOther "access is denied" in
  let run :=
    Process_walk w
      ([dirAt "C:\Takeout"; fileAt "C:\Takeout\photo.jpg"]
         ++ errorAt "C:\Takeout\private" denied
         :: [fileAt "C:\Takeout\later.jpg"])
      (freshState "C:\Takeout") in
  fst run = Err (ErrorfW "error walking directory" denied)
  /\ ErrorCount (stats (Proc (snd run))) = 1
  /\ TotalFiles (stats (Proc (snd run))) = 1.
Proof.
  intros w denied run.
  destruct (walk_error_ends_the_run w
              [dirAt "C:\Takeout"; fileAt "C:\Takeout\photo.jpg"]
              [fileAt "C:\Takeout\later.jpg"]
              (errorAt "C:\Takeout\private" denied) denied
              (freshState "C:\Takeout") eq_refl eq_refl eq_refl)
    as (H1 & H2 & H3 & _).
  split; [exact H1|]. split; [exact H2|exact H3].
Defined.

(** ** The set of deleted sidecars and the walk *)

Lemma HasSuffix_app_r (a b t : string) :
  HasSuffix b t = true -> HasSuffix (a +:+ b) t = true.
Proof.
  intros H. destruct (HasSuffix_split _ _ H) as [stem ->].
  rewrite <- app_assoc'. apply HasSuffix_app.
Qed.

Lemma plan_paths_end_in_json (os : GOOS) (mediaPath p : string) :
  In p (probePlan os mediaPath) -> HasSuffix p ".json" = true.
Proof.
  unfold probePlan, truncationPlan. intros [<-|H].
  - apply HasSuffix_app.
  - destruct (normalize mediaPath) as [m base].
    apply in_app_or in H as [H|H]; apply in_map_iff in H as (sfx & <- & _).
    + do 2 apply HasSuffix_app_r. apply HasSuffix_app.
    + apply HasSuffix_app_r. apply HasSuffix_app.
Qed.

(** A path that ends in [.json] is no media file. *)
Lemma json_not_supported (os : GOOS) (p : string) :
  HasSuffix p ".json" = true -> isSupportedMediaFile os p = false.
Proof.
  intros H. destruct (HasSuffix_split _ _ H) as [stem ->].
  assert (He : plain os "json") by (destruct os; reflexivity).
  change (stem +:+ ".json") with (stem +:+ "." +:+ "json").
  unfold isSupportedMediaFile. now rewrite (Ext_stem _ _ _ He).
Qed.

Lemma sidecarsOnly_insert (d : gmap string bool) (jsonPath : string) :
  sidecarsOnly d -> HasSuffix jsonPath ".json" = true ->
  sidecarsOnly (<[jsonPath := true]> d).
Proof.
  intros Hd Hj k. unfold mapIndex.
  destruct (decide (k = jsonPath)) as [->|Hne]; [intros _; exact Hj|].
  rewrite lookup_insert_ne by congruence. apply Hd.
Qed.

(** X23.  The set of deleted files holds sidecars only, and never hides a
    media file from the walk.  When every path recorded as deleted ends in
    [.json], this is still so after a unit of work; and the walk then
    queues every supported media file it visits: its test of the set of
    deleted files removes none. *)
Theorem deleted_set_never_hides_media (w : World) (mediaPath : string)
    (s : State) (visits : list Visit) :
  sidecarsOnly (deletedFiles (Proc s)) ->
  sidecarsOnly (deletedFiles (Proc (snd (processMediaFile w mediaPath s))))
  /\ queued (goos w) (deletedFiles (Proc s)) visits =
       List.filter (isSupportedMediaFile (goos w)) (filesOf visits).
Proof.
  intros Hside. split.
  - revert Hside.
    unit_start processMediaFile_start w mediaPath s; intros Hside;
      try exact Hside.
    all: apply sidecarsOnly_insert; [exact Hside|].
    all: match goal with
         | H : In _ (probePlan _ _) |- _ =>
             exact (plan_paths_end_in_json _ _ _ H)
         end.
  - unfold queued. apply List.filter_ext_in. intros p _.
    destruct (isSupportedMediaFile (goos w) p) eqn:Hs; [|reflexivity].
    destruct (mapIndex (deletedFiles (Proc s)) p) eqn:Hm; [|reflexivity].
    apply Hside in Hm. apply (json_not_supported (goos w)) in Hm. congruence.
Qed.

(** A fresh run, in which nothing is recorded as deleted: after the unit
    of [photo.jpg], whose sidecar [photo.json] is deleted, the set holds
    that sidecar only. *)
Lemma deleted_set_never_hides_media_witness :
  let w := exampleWorld Windows
             [("C:\Takeout\photo.json", "1609459200")] [] in
  let s := freshState "C:\Takeout" in
  let s' := snd (processMediaFile w "C:\Takeout\photo.jpg" s) in
  sidecarsOnly (deletedFiles (Proc s))
  /\ deletedFiles (Proc s') = {["C:\Takeout\photo.json" := true]}
  /\ sidecarsOnly (deletedFiles (Proc s'))
  /\ queued Windows (deletedFiles (Proc s)) [fileAt "C:\Takeout\photo.jpg"] =
       ["C:\Takeout\photo.jpg"].
Proof.
  intros w s s'.
  assert (H0 : sidecarsOnly (deletedFiles (Proc s)))
    by (intros k Hk; unfold mapIndex in Hk; cbn in Hk;
        rewrite lookup_empty in Hk; discriminate).
  split; [exact H0|]. split; [vm_compute; reflexivity|].
  destruct (deleted_set_never_hides_media w "C:\Takeout\photo.jpg" s
              [fileAt "C:\Takeout\photo.jpg"] H0) as [H1 H2].
  split; [exact H1|]. exact H2.
Defined.
